(** * Gaffer MCP gateway: the request core, the project-id resolver and the
      operation wrappers, embedded from the TypeScript sources.

    Sources embedded here:
    - [src/api-client.ts]: [detectTokenType], [GafferApiClient.request] and
      the client methods of the per-token route layout (module [Legacy]);
    - the second [api-client.ts] text (stored after [tools/get-upload-status.ts]):
      the same transport plus [resolveProjectId] and the unified route tree
      (module [Unified]);
    - the tool files [compare-test-metrics] and [get-test-history]:
      [executeCompareTestMetrics] and [executeGetTestHistory].

    Conventions of the embedding:
    - a JavaScript string is a [string], a sequence of code units below 256.
      The one character of the sources above that range, the dash in the
      message of the unified [listProjects], is carried as the bytes the
      source file stores for it;
    - a JavaScript number is a [JsNum]: a finite value, NaN or an infinity.
      The products the code computes are rounded to the nearest double
      ([roundDouble]); the sign of zero is not represented;
    - [undefined] and a missing optional field are [None]; where the code can
      also see [null] the three states are kept apart ([Field]);
    - a decoded JSON body is a [Body]: the JSON value [null], or an object of
      one of the shapes the code reads;
    - the network is a deterministic stub [Net]: it answers the n-th fetch of
      a run, and a timeout of an attempt is the answer [Rejected] with an
      [AbortError].  Every effect the claims talk about (a fetch, a backoff
      sleep, the write of the project-id cache) is recorded in the state
      [Sys];
    - the URL of a request is what [new URL] makes of it: the path with its
      dot segments resolved and its characters percent-encoded, the query
      cut off at [?] and the fragment at [#] ([parseReference]); whether the
      base URL parses at all is [canParseBase].  Serialising a query value
      with [String(value)] is left to the platform. *)

From Stdlib Require Import String Ascii List ZArith QArith Bool Arith Lia.
From Stdlib Require Import DecimalString.
Import ListNotations.
Local Open Scope string_scope.
Local Open Scope Z_scope.

(* ===================================================================== *)
(** ** JavaScript values *)
(* ===================================================================== *)

(** A JavaScript number. *)
Inductive JsNum : Type :=
| Finite (q : Q)
| NaN
| Infinity (negative : bool).

Definition num (z : Z) : JsNum := Finite (inject_Z z).

(** The integer nearest to the positive rational [n / d], ties to even. *)
Definition roundHalfEven (n d : Z) : Z :=
  let k := n / d in
  match 2 * (n mod d) ?= d with
  | Lt => k
  | Gt => k + 1
  | Eq => if Z.even k then k else k + 1
  end.

(** The rationals a double holds whatever their size: the integers up to
    2^53 in magnitude. *)
Definition isExactInteger (q : Q) : bool :=
  (Qden q =? 1)%positive && (Z.abs (Qnum q) <=? 2 ^ 53).

(** The double nearest to a rational, ties to even: 53 significant bits,
    exponents down to the subnormal unit 2^-1074, an infinity from 2^1024
    on. *)
Definition roundDouble (q : Q) : JsNum :=
  if isExactInteger q then Finite q
  else
    let n := Qnum q in
    let d := Zpos (Qden q) in
    let a := Z.abs n in
    if a =? 0 then Finite 0
    else
      let e0 := Z.log2 a - Z.log2 d in
      let e := if (if 0 <=? e0 then d * 2 ^ e0 <=? a else d <=? a * 2 ^ (- e0))
               then e0 else e0 - 1 in
      let u := Z.max (e - 52) (-1074) in
      if 0 <=? u then
        let m := roundHalfEven a (d * 2 ^ u) in
        if 2 ^ 1024 <=? m * 2 ^ u then Infinity (n <? 0)
        else Finite (inject_Z (Z.sgn n * m * 2 ^ u))
      else
        let m := roundHalfEven (a * 2 ^ (- u)) d in
        Finite (Qred (Z.sgn n * m # Z.to_pos (2 ^ (- u)))).

Definition isZeroQ (q : Q) : bool := Qeq_bool q 0.

Definition isNegativeQ (q : Q) : bool := Qnum q <? 0.

(** [a * b] *)
Definition js_mul (a b : JsNum) : JsNum :=
  match a, b with
  | Finite x, Finite y => roundDouble (x * y)
  | Finite x, Infinity neg | Infinity neg, Finite x =>
      if isZeroQ x then NaN else Infinity (xorb neg (isNegativeQ x))
  | Infinity n1, Infinity n2 => Infinity (xorb n1 n2)
  | _, _ => NaN
  end.

(** [a <= b] for two numbers that are not NaN. *)
Definition js_le (a b : JsNum) : bool :=
  match a, b with
  | Finite x, Finite y => Qle_bool x y
  | Infinity true, _ => true
  | _, Infinity false => true
  | _, _ => false
  end.

(** [Math.max(a, b)]: NaN as soon as one argument is NaN. *)
Definition js_max (a b : JsNum) : JsNum :=
  match a, b with
  | NaN, _ | _, NaN => NaN
  | _, _ => if js_le a b then b else a
  end.

(** [2 ** n] for a loop counter [n]. *)
Definition js_pow2 (n : nat) : JsNum := roundDouble (inject_Z (2 ^ Z.of_nat n)).

(** Truthiness of a number: [0] and [NaN] are falsy. *)
Definition truthyNum (a : JsNum) : bool :=
  match a with
  | Finite q => negb (Qeq_bool q 0)
  | NaN => false
  | Infinity _ => true
  end.

(** Truthiness of a string: only the empty string is falsy. *)
Definition truthyStr (s : string) : bool :=
  match s with
  | EmptyString => false
  | String _ _ => true
  end.

(** Truthiness of an optional string ([undefined] is falsy). *)
Definition truthyOptStr (o : option string) : bool :=
  match o with
  | Some s => truthyStr s
  | None => false
  end.

(** The string of an option when it is truthy: the value [v] in the branch
    taken by [if (v)]. *)
Definition whenTruthy (o : option string) : option string :=
  match o with
  | Some s => if truthyStr s then Some s else None
  | None => None
  end.

(** [String(n)] for an integer status code or constant. *)
Definition string_of_Z (z : Z) : string := NilZero.string_of_int (Z.to_int z).

(** *** Whitespace, [trim] and [parseInt] *)

(** WhiteSpace and LineTerminator code units below 256: TAB, LF, VT, FF, CR,
    SP and NBSP. *)
Definition isWhiteSpace (c : ascii) : bool :=
  let n := nat_of_ascii c in
  (((9 <=? n) && (n <=? 13)) || (n =? 32) || (n =? 160))%nat.

Fixpoint trimStart (s : string) : string :=
  match s with
  | EmptyString => EmptyString
  | String c r => if isWhiteSpace c then trimStart r else s
  end.

Fixpoint trimEnd (s : string) : string :=
  match s with
  | EmptyString => EmptyString
  | String c r =>
      match trimEnd r with
      | EmptyString => if isWhiteSpace c then EmptyString else String c EmptyString
      | r' => String c r'
      end
  end.

(** [s.trim()] *)
Definition trim (s : string) : string := trimEnd (trimStart s).

(** [s?.trim()] *)
Definition optTrim (o : option string) : option string := option_map trim o.

Definition digitValue (c : ascii) : option Z :=
  let n := nat_of_ascii c in
  if ((48 <=? n) && (n <=? 57))%nat then Some (Z.of_nat n - 48) else None.

(** The longest prefix of decimal digits, as a number; [None] when the
    string does not start with a digit. *)
Fixpoint digitsPrefix (s : string) (acc : option Z) : option Z :=
  match s with
  | EmptyString => acc
  | String c r =>
      match digitValue c with
      | Some d =>
          digitsPrefix r (Some (10 * (match acc with Some a => a | None => 0 end) + d))
      | None => acc
      end
  end.

(** The integer [Number.parseInt(s, 10)] reads, [None] for NaN: leading
    white space is skipped, one sign is read, then the longest run of
    digits. *)
Definition parseIntZ (s : string) : option Z :=
  match trimStart s with
  | String c r =>
      if Ascii.eqb c "-" then option_map Z.opp (digitsPrefix r None)
      else if Ascii.eqb c "+" then digitsPrefix r None
      else digitsPrefix (String c r) None
  | EmptyString => None
  end.

(** [Number.parseInt(s, 10)]: that integer as a double. *)
Definition parseInt (s : string) : JsNum :=
  match parseIntZ s with
  | Some z => roundDouble (inject_Z z)
  | None => NaN
  end.

(** A value stored in a [params] object ([Record<string, string | number>];
    the loop in [request] also tests for [undefined] and [null]). *)
Inductive JsVal : Type :=
| VUndefined
| VNull
| VStr (s : string)
| VNum (n : JsNum).

Definition Params : Type := list (string * JsVal).

(** An optional or nullable field of a decoded JSON object: missing, present
    with value [null], or present with a value. *)
Inductive Field (A : Type) : Type :=
| Absent
| Null
| Present (a : A).
Arguments Absent {A}.
Arguments Null {A}.
Arguments Present {A} a.

(* ===================================================================== *)
(** ** Token types *)
(* ===================================================================== *)

Inductive TokenType : Type :=
| user
| project.

(** [detectTokenType]: [gaf_] is a user API key, anything else a project
    token. *)
Definition detectTokenType (token : string) : TokenType :=
  if String.prefix "gaf_" token then user else project.

(* ===================================================================== *)
(** ** Errors, responses and the network *)
(* ===================================================================== *)

(** The classes of thrown values the [catch] block of [request] tells apart. *)
Inductive ErrorName : Type :=
| PlainError
| TypeError
| AbortError
| SyntaxError.

Record JsError : Type := mkError {
  err_name : ErrorName;
  err_message : string
}.

Definition newError (msg : string) : JsError := mkError PlainError msg.

(** The entries of one test-history response ([TestHistoryResponse]). *)
Inductive TestStatus : Type :=
| passed
| failed
| skipped
| pending.

Record TestInfo : Type := {
  test_name : string;
  test_status : TestStatus;
  test_durationMs : JsNum;
  test_filePath : Field string;
  test_message : Field string
}.

Record TestHistoryEntry : Type := {
  entry_testRunId : string;
  entry_createdAt : string;
  entry_branch : Field string;
  entry_commitSha : Field string;
  entry_test : TestInfo
}.

Record HistorySummary : Type := {
  sum_totalRuns : JsNum;
  sum_passedRuns : JsNum;
  sum_failedRuns : JsNum;
  sum_passRate : Field JsNum;
  sum_searchedBy : string;
  sum_searchValue : string
}.

Record TestHistoryResponse : Type := {
  resp_history : list TestHistoryEntry;
  resp_summary : HistorySummary
}.

(** A decoded JSON body: an object of one of the shapes the client casts
    bodies to, or the JSON value [null].  [BOther] is an object (or a number,
    string or boolean) with none of the members [error], [project] and
    [history], so that reading one of them gives [undefined].  The members
    that are there have the types of the casts: [BProject id] is a body
    whose [project.id] is the string [id]; a [project] without a string
    [id] is not among these shapes. *)
Inductive Body : Type :=
| BApiError (code message : string)       (* {error:{code,message}} *)
| BProject (id : string)                  (* {project:{id}} *)
| BTestHistory (r : TestHistoryResponse)
| BOther (raw : string)                   (* any other object *)
| BNull.                                  (* null *)

(** The result of [response.json()]. *)
Inductive JsonResult : Type :=
| JsonOk (b : Body)
| JsonFail (e : JsError).

Record Response : Type := {
  status : Z;
  retryAfter : option string;    (* headers.get('Retry-After') *)
  json : JsonResult
}.

(** [response.ok] *)
Definition ok (r : Response) : bool := (200 <=? status r) && (status r <=? 299).

(** What [fetch] settles to: a response, or a rejection (an [AbortError]
    when the 30 s timer fired, a [TypeError] for a connection failure). *)
Inductive FetchOutcome : Type :=
| Resolved (r : Response)
| Rejected (e : JsError).

(** The request the client sends. *)
Record HttpRequest : Type := {
  req_base : string;                      (* the client's baseUrl *)
  req_path : string;                      (* url.pathname *)
  req_query : list (string * JsVal);      (* url.searchParams, in order *)
  req_key : string                        (* the X-API-Key header *)
}.

Inductive Event : Type :=
| EvFetch (req : HttpRequest)
| EvSleep (ms : JsNum).

(** The stubbed network: the answer to the n-th fetch of the run. *)
Definition Net : Type := nat -> HttpRequest -> FetchOutcome.

(* ===================================================================== *)
(** ** The client object and the effect monad *)
(* ===================================================================== *)

Record GafferApiClient : Type := {
  apiKey : string;
  baseUrl : string;
  tokenType : TokenType;
  resolvedProjectId : option string       (* string | null, initially null *)
}.

Record GafferConfig : Type := {
  cfg_apiKey : string;
  cfg_baseUrl : string
}.

(** [baseUrl.replace(/\/$/, '')] *)
Fixpoint stripTrailingSlash (s : string) : string :=
  match s with
  | EmptyString => EmptyString
  | String c r =>
      match r with
      | EmptyString => if Ascii.eqb c "/" then EmptyString else s
      | _ => String c (stripTrailingSlash r)
      end
  end.

(** The constructor. *)
Definition newClient (config : GafferConfig) : GafferApiClient :=
  {| apiKey := cfg_apiKey config;
     baseUrl := stripTrailingSlash (cfg_baseUrl config);
     tokenType := detectTokenType (cfg_apiKey config);
     resolvedProjectId := None |}.

Definition isUserToken (c : GafferApiClient) : bool :=
  match tokenType c with
  | user => true
  | project => false
  end.

(** The observable state: the client object and what has happened so far. *)
Record Sys : Type := {
  this : GafferApiClient;
  log : list Event
}.

Inductive Outcome (A : Type) : Type :=
| Returned (a : A)
| Threw (e : JsError).
Arguments Returned {A} a.
Arguments Threw {A} e.

(** An async computation: it reads the network, changes the state and
    resolves or rejects.  A rejection keeps the state reached so far. *)
Definition Eff (A : Type) : Type := Net -> Sys -> Outcome A * Sys.

Definition ret {A} (a : A) : Eff A := fun _ s => (Returned a, s).

Definition throw {A} (e : JsError) : Eff A := fun _ s => (Threw e, s).

Definition bind {A B} (m : Eff A) (k : A -> Eff B) : Eff B :=
  fun net s =>
    match m net s with
    | (Returned a, s') => k a net s'
    | (Threw e, s') => (Threw e, s')
    end.

Notation "x <- m ;; k" := (bind m (fun x => k))
  (at level 61, m at next level, right associativity).
Notation "m ;;; k" := (bind m (fun _ => k))
  (at level 61, right associativity).

Definition isFetch (e : Event) : bool :=
  match e with
  | EvFetch _ => true
  | EvSleep _ => false
  end.

(** The number of fetches issued so far. *)
Definition fetchCount (l : list Event) : nat := length (filter isFetch l).

(** [await fetch(url, {headers})] *)
Definition fetch (req : HttpRequest) : Eff FetchOutcome :=
  fun net s =>
    (Returned (net (fetchCount (log s)) req),
     {| this := this s; log := log s ++ [EvFetch req] |}).

(** [await sleep(ms)] *)
Definition sleep (ms : JsNum) : Eff unit :=
  fun _ s => (Returned tt, {| this := this s; log := log s ++ [EvSleep ms] |}).

Definition getThis : Eff GafferApiClient := fun _ s => (Returned (this s), s).

(** [this.resolvedProjectId = id] *)
Definition setResolvedProjectId (id : string) : Eff unit :=
  fun _ s =>
    (Returned tt,
     {| this := {| apiKey := apiKey (this s);
                   baseUrl := baseUrl (this s);
                   tokenType := tokenType (this s);
                   resolvedProjectId := Some id |};
        log := log s |}).

(* ===================================================================== *)
(** ** URLs: what [new URL(input, base)] makes of its arguments *)
(* ===================================================================== *)

Fixpoint dropLeading (p : ascii -> bool) (s : string) : string :=
  match s with
  | EmptyString => EmptyString
  | String c r => if p c then dropLeading p r else s
  end.

Fixpoint dropTrailing (p : ascii -> bool) (s : string) : string :=
  match s with
  | EmptyString => EmptyString
  | String c r =>
      match dropTrailing p r with
      | EmptyString => if p c then EmptyString else String c EmptyString
      | r' => String c r'
      end
  end.

Fixpoint removeAll (p : ascii -> bool) (s : string) : string :=
  match s with
  | EmptyString => EmptyString
  | String c r => if p c then removeAll p r else String c (removeAll p r)
  end.

Fixpoint allChars (p : ascii -> bool) (s : string) : bool :=
  match s with
  | EmptyString => true
  | String c r => p c && allChars p r
  end.

(** The part of [s] before the first character that satisfies [p], and the
    part after that character when there is one. *)
Fixpoint cut (p : ascii -> bool) (s : string) : string * option string :=
  match s with
  | EmptyString => (EmptyString, None)
  | String c r =>
      if p c then (EmptyString, Some r)
      else let (before, after) := cut p r in (String c before, after)
  end.

Definition consHead (c : ascii) (l : list string) : list string :=
  match l with
  | seg :: segs => String c seg :: segs
  | [] => [String c EmptyString]
  end.

(** [s] split at every character that satisfies [sep]; never empty. *)
Fixpoint splitOn (sep : ascii -> bool) (s : string) : list string :=
  match s with
  | EmptyString => [EmptyString]
  | String c r => if sep c then EmptyString :: splitOn sep r
                  else consHead c (splitOn sep r)
  end.

Definition isChar (c0 c : ascii) : bool := Ascii.eqb c c0.

Definition isC0OrSpace (c : ascii) : bool := (nat_of_ascii c <=? 32)%nat.

Definition isTabOrNewline (c : ascii) : bool :=
  let n := nat_of_ascii c in ((n =? 9) || (n =? 10) || (n =? 13))%nat.

Definition isAsciiDigit (c : ascii) : bool :=
  let n := nat_of_ascii c in ((48 <=? n) && (n <=? 57))%nat.

Definition isLowerAlpha (c : ascii) : bool :=
  let n := nat_of_ascii c in ((97 <=? n) && (n <=? 122))%nat.

Definition isUpperAlpha (c : ascii) : bool :=
  let n := nat_of_ascii c in ((65 <=? n) && (n <=? 90))%nat.

Definition isAsciiAlpha (c : ascii) : bool := isLowerAlpha c || isUpperAlpha c.

Definition lowerAscii (c : ascii) : ascii :=
  if isUpperAlpha c then ascii_of_nat (nat_of_ascii c + 32) else c.

Fixpoint lowerString (s : string) : string :=
  match s with
  | EmptyString => EmptyString
  | String c r => String (lowerAscii c) (lowerString r)
  end.

(** The string the URL parser works on: leading and trailing C0 controls
    and spaces are stripped, then every tab and newline is removed. *)
Definition urlInput (s : string) : string :=
  removeAll isTabOrNewline (dropTrailing isC0OrSpace (dropLeading isC0OrSpace s)).

(** *** The path *)

(** In a URL with an [http] or [https] base a backslash separates path
    segments like a slash. *)
Definition isPathSeparator (c : ascii) : bool := isChar "/" c || isChar "\" c.

Definition hexDigit (n : nat) : ascii :=
  if (n <? 10)%nat then ascii_of_nat (48 + n) else ascii_of_nat (55 + n).

Definition percentByte (n : nat) : string :=
  String "%" (String (hexDigit (n / 16)) (String (hexDigit (n mod 16)) EmptyString)).

(** The path percent-encode set below 128: the C0 controls, the space, the
    double quote, [#], [<], [>], [?], [^], the backquote, [{], [}] and
    DEL. *)
Definition inPathEncodeSet (c : ascii) : bool :=
  let n := nat_of_ascii c in
  ((n <=? 32) || (126 <? n) || (n =? 34) || (n =? 35) || (n =? 60) || (n =? 62)
   || (n =? 63) || (n =? 94) || (n =? 96) || (n =? 123) || (n =? 125))%nat.

(** A code unit from 128 on is encoded as the two bytes of its UTF-8 form. *)
Definition encodePathChar (c : ascii) : string :=
  let n := nat_of_ascii c in
  if (n <? 128)%nat then
    if inPathEncodeSet c then percentByte n else String c EmptyString
  else percentByte (192 + n / 64) ++ percentByte (128 + n mod 64).

Fixpoint encodePath (s : string) : string :=
  match s with
  | EmptyString => EmptyString
  | String c r => encodePathChar c ++ encodePath r
  end.

(** A single-dot path segment: [.] or [%2e], in either case of the [e]. *)
Definition isSingleDot (seg : string) : bool :=
  let l := lowerString seg in String.eqb l "." || String.eqb l "%2e".

(** A double-dot path segment: [..], [.%2e], [%2e.] or [%2e%2e]. *)
Definition isDoubleDot (seg : string) : bool :=
  let l := lowerString seg in
  String.eqb l ".." || String.eqb l ".%2e" || String.eqb l "%2e."
  || String.eqb l "%2e%2e".

(** The path state of the parser over the segments of the input; [acc] is
    the path built so far, last segment first.  A double-dot segment removes
    the last segment, a single-dot segment adds nothing, and either leaves
    an empty segment behind when it ends the path. *)
Fixpoint resolveDots (segs : list string) (acc : list string) : list string :=
  match segs with
  | [] => rev acc
  | seg :: rest =>
      let atEnd := match rest with [] => true | _ :: _ => false end in
      if isDoubleDot seg then
        resolveDots rest (if atEnd then EmptyString :: tl acc else tl acc)
      else if isSingleDot seg then
        resolveDots rest (if atEnd then EmptyString :: acc else acc)
      else resolveDots rest (encodePath seg :: acc)
  end.

(** The segments of a path that starts with a separator. *)
Definition pathSegments (path : string) : list string := tl (splitOn isPathSeparator path).

Fixpoint joinPath (segs : list string) : string :=
  match segs with
  | [] => EmptyString
  | seg :: rest => "/" ++ seg ++ joinPath rest
  end.

(** *** The query *)

Definition hexValue (c : ascii) : option nat :=
  let n := nat_of_ascii c in
  if ((48 <=? n) && (n <=? 57))%nat then Some (n - 48)%nat
  else if ((65 <=? n) && (n <=? 70))%nat then Some (n - 55)%nat
  else if ((97 <=? n) && (n <=? 102))%nat then Some (n - 87)%nat
  else None.

(** Percent-decoding, byte by byte. *)
Fixpoint percentDecode (s : string) : string :=
  match s with
  | EmptyString => EmptyString
  | String c r =>
      match r with
      | String h (String l r') =>
          match (if isChar "%" c then hexValue h else None), hexValue l with
          | Some a, Some b => String (ascii_of_nat (16 * a + b)) (percentDecode r')
          | _, _ => String c (percentDecode r)
          end
      | _ => String c (percentDecode r)
      end
  end.

Fixpoint plusToSpace (s : string) : string :=
  match s with
  | EmptyString => EmptyString
  | String c r => String (if isChar "+" c then " "%char else c) (plusToSpace r)
  end.

Definition decodeComponent (s : string) : string := percentDecode (plusToSpace s).

(** One [name=value] sequence of a query string. *)
Definition parsePair (p : string) : string * JsVal :=
  let (name, value) := cut (isChar "=") p in
  (decodeComponent name,
   VStr (decodeComponent (match value with Some v => v | None => EmptyString end))).

(** The list [url.searchParams] starts from: the [application/x-www-form-urlencoded]
    reading of the query string. *)
Definition parseQuery (q : string) : Params :=
  map parsePair
    (filter (fun p => negb (String.eqb p EmptyString)) (splitOn (isChar "&") q)).

Definition removeKey (key : string) (q : Params) : Params :=
  filter (fun kv => negb (String.eqb (fst kv) key)) q.

(** [searchParams.set(key, value)]: the first pair named [key] takes the
    value and the other pairs of that name go; without one the pair is
    appended. *)
Fixpoint setParam (key : string) (value : JsVal) (q : Params) : Params :=
  match q with
  | [] => [(key, value)]
  | (k, v) :: rest =>
      if String.eqb k key then (key, value) :: removeKey key rest
      else (k, v) :: setParam key value rest
  end.

Definition setAll (ps q : Params) : Params :=
  fold_left (fun acc kv => setParam (fst kv) (snd kv) acc) ps q.

(** *** The reference [`/api/v1${endpoint}`] resolved against the base *)

Record Reference : Type := {
  ref_path : string;
  ref_query : Params
}.

(** The input starts with the slash of [/api/v1], so it replaces the path
    of the base: the path runs to the first [?] or [#], the query from a [?]
    to the first [#], and the fragment, which is not sent, is dropped. *)
Definition parseReference (input : string) : Reference :=
  let (beforeFragment, _) := cut (isChar "#") (urlInput input) in
  let (path, query) := cut (isChar "?") beforeFragment in
  {| ref_path := joinPath (resolveDots (pathSegments path) []);
     ref_query := match query with
                  | Some q => parseQuery q
                  | None => []
                  end |}.

(** *** The base URL *)

Definition isSchemeChar (c : ascii) : bool :=
  isAsciiAlpha c || isAsciiDigit c || isChar "+" c || isChar "-" c || isChar "." c.

Fixpoint schemeTail (s : string) : option (string * string) :=
  match s with
  | EmptyString => None
  | String c r =>
      if isChar ":" c then Some (EmptyString, r)
      else if isSchemeChar c then
        match schemeTail r with
        | Some (scheme, rest) => Some (String (lowerAscii c) scheme, rest)
        | None => None
        end
      else None
  end.

(** The scheme of a URL string, in lower case, and what follows its colon. *)
Definition schemeOf (s : string) : option (string * string) :=
  match s with
  | String c _ => if isAsciiAlpha c then schemeTail s else None
  | EmptyString => None
  end.

Definition isSpecialScheme (scheme : string) : bool :=
  String.eqb scheme "http" || String.eqb scheme "https" || String.eqb scheme "ws"
  || String.eqb scheme "wss" || String.eqb scheme "ftp".

(** What follows the last occurrence of [c0] in [s]; [s] without one. *)
Fixpoint afterLast (c0 : ascii) (s : string) : option string :=
  match s with
  | EmptyString => None
  | String c r =>
      match afterLast c0 r with
      | Some t => Some t
      | None => if isChar c0 c then Some r else None
      end
  end.

Definition withoutUserinfo (authority : string) : string :=
  match afterLast "@" authority with
  | Some hostport => hostport
  | None => authority
  end.

(** The forbidden domain code points below 128. *)
Definition isForbiddenHostChar (c : ascii) : bool :=
  let n := nat_of_ascii c in
  ((n <=? 32) || (n =? 35) || (n =? 37) || (n =? 47) || (n =? 58) || (n =? 60)
   || (n =? 62) || (n =? 63) || (n =? 64) || (n =? 91) || (n =? 92) || (n =? 93)
   || (n =? 94) || (n =? 124) || (n =? 127))%nat.

Definition validPort (port : string) : bool :=
  allChars isAsciiDigit port
  && match digitsPrefix port None with
     | Some n => n <=? 65535
     | None => true
     end.

(** The host and port of an authority.  An address in brackets is taken as
    it stands; any other host must be non-empty and, once percent-decoded,
    free of forbidden characters.  The further checks of the host parser
    (IDNA, numeric addresses, the contents of the brackets) are not made
    here. *)
Definition validAuthority (authority : string) : bool :=
  match withoutUserinfo authority with
  | String "[" r =>
      match cut (isChar "]") r with
      | (_, Some EmptyString) => true
      | (_, Some (String ":" port)) => validPort port
      | _ => false
      end
  | hostport =>
      let (host, port) := cut (isChar ":") hostport in
      negb (String.eqb host EmptyString)
      && allChars (fun c => negb (isForbiddenHostChar c)) (percentDecode host)
      && match port with
         | Some p => validPort p
         | None => true
         end
  end.

Definition isAuthorityEnd (c : ascii) : bool :=
  isPathSeparator c || isChar "?" c || isChar "#" c.

(** Whether [new URL(`/api/v1...`, base)] finds a base to resolve against:
    [base] needs a scheme; with [http], [https], [ws], [wss] or [ftp] it
    needs a host after any number of slashes, with any other scheme but
    [file] a path that starts with a slash. *)
Definition canParseBase (base : string) : bool :=
  match schemeOf (urlInput base) with
  | None => false
  | Some (scheme, rest) =>
      if String.eqb scheme "file" then true
      else if isSpecialScheme scheme then
        validAuthority (fst (cut isAuthorityEnd (dropLeading isPathSeparator rest)))
      else String.prefix "/" rest
  end.

(* ===================================================================== *)
(** ** The transport: [GafferApiClient.request] *)
(* ===================================================================== *)

Definition REQUEST_TIMEOUT_MS : Z := 30000.
Definition MAX_RETRIES : nat := 3.
Definition INITIAL_RETRY_DELAY_MS : Z := 1000.
Definition RETRYABLE_STATUS_CODES : list Z := [401; 429; 500; 502; 503; 504].

(** [RETRYABLE_STATUS_CODES.includes(status)] *)
Definition includes (codes : list Z) (st : Z) : bool := existsb (Z.eqb st) codes.

(** [value !== undefined && value !== null] *)
Definition isSet (v : JsVal) : bool :=
  match v with
  | VUndefined | VNull => false
  | _ => true
  end.

(** The URL of a request: [new URL(`/api/v1${endpoint}`, this.baseUrl)] and
    one [searchParams.set] for every entry of [params] that is set. *)
Definition buildRequest (c : GafferApiClient) (endpoint : string)
    (params : option (list (string * JsVal))) : HttpRequest :=
  let url := parseReference ("/api/v1" ++ endpoint) in
  {| req_base := baseUrl c;
     req_path := ref_path url;
     req_query := setAll (match params with
                          | Some ps => filter (fun kv => isSet (snd kv)) ps
                          | None => []
                          end) (ref_query url);
     req_key := apiKey c |}.

(** What [new URL] throws when the base does not parse. *)
Definition invalidUrl : JsError := mkError TypeError "Invalid URL".

(** What reading [errorData.error] throws when the body is [null]. *)
Definition nullErrorData : JsError :=
  mkError TypeError "Cannot read properties of null (reading 'error')".

(** [errorData.error?.message], where [errorData] is the decoded body or
    [{}] when the body does not parse: a [TypeError] when [errorData] is
    [null], else the message or [undefined]. *)
Definition errorDataMessage (r : Response) : JsError + option string :=
  match json r with
  | JsonOk BNull => inl nullErrorData
  | JsonOk (BApiError _ m) => inr (Some m)
  | _ => inr None
  end.

Definition statusMessage (r : Response) : string :=
  "API request failed: " ++ string_of_Z (status r).

(** [errorData.error?.message || `API request failed: ${response.status}`] *)
Definition errorMessage (r : Response) : JsError + string :=
  match errorDataMessage r with
  | inl e => inl e
  | inr (Some m) => inr (if truthyStr m then m else statusMessage r)
  | inr None => inr (statusMessage r)
  end.

(** The message of [errorMessage] for a body that is not [null]. *)
Definition errorMessageOf (r : Response) : string :=
  match errorMessage r with
  | inr m => m
  | inl _ => statusMessage r
  end.

(** [INITIAL_RETRY_DELAY_MS * (2 ** attempt)] *)
Definition backoffDelay (attempt : nat) : JsNum :=
  js_mul (num INITIAL_RETRY_DELAY_MS) (js_pow2 attempt).

(** The delay computed after a retryable response: the backoff value, raised
    for a 429 with a non-empty [Retry-After] header to
    [Math.max(delayMs, Number.parseInt(retryAfter, 10) * 1000)]. *)
Definition retryDelay (attempt : nat) (r : Response) : JsNum :=
  let delayMs := backoffDelay attempt in
  if status r =? 429 then
    match retryAfter r with
    | Some h => if truthyStr h then js_max delayMs (js_mul (parseInt h) (num 1000))
                else delayMs
    | None => delayMs
    end
  else delayMs.

Definition timeoutError : JsError :=
  newError ("Request timed out after " ++ string_of_Z REQUEST_TIMEOUT_MS ++ "ms").

(** The [catch] block of one attempt; [continue] is the next iteration. *)
Definition onCatch {A} (error : JsError) (attempt : nat)
    (continue : option JsError -> Eff A) : Eff A :=
  match err_name error with
  | AbortError =>
      let lastError := timeoutError in
      if (attempt <? MAX_RETRIES)%nat then
        sleep (backoffDelay attempt) ;;; continue (Some lastError)
      else throw lastError
  | TypeError =>
      if (attempt <? MAX_RETRIES)%nat then
        sleep (backoffDelay attempt) ;;; continue (Some error)
      else throw error
  | _ => throw error
  end.

(** The retry loop [for (attempt = 0; attempt <= MAX_RETRIES; attempt++)].
    [fuel] bounds the number of iterations; [requestLoop_fuel] shows that the
    loop condition, not the fuel, ends the loop of [request].  Whatever the
    [try] block throws goes to [onCatch]: the rejection of [fetch], the
    [TypeError] of reading [errorData.error] off [null], which comes before
    the [sleep] of the retry branch, and the [Error] thrown for a response
    that is not retried. *)
Fixpoint requestLoop (fuel attempt : nat) (lastError : option JsError)
    (req : HttpRequest) : Eff Body :=
  match fuel with
  | O => throw (match lastError with
                | Some e => e
                | None => newError "Request failed after retries"
                end)
  | S fuel' =>
      if (attempt <=? MAX_RETRIES)%nat then
        outcome <- fetch req ;;
        match outcome with
        | Resolved response =>
            if negb (ok response) then
              if includes RETRYABLE_STATUS_CODES (status response)
                 && (attempt <? MAX_RETRIES)%nat
              then
                let delayMs := retryDelay attempt response in
                match errorMessage response with
                | inr message =>
                    sleep delayMs ;;;
                    requestLoop fuel' (S attempt) (Some (newError message)) req
                | inl error =>
                    onCatch error attempt
                            (fun le => requestLoop fuel' (S attempt) le req)
                end
              else
                match errorMessage response with
                | inr message =>
                    onCatch (newError message) attempt
                            (fun le => requestLoop fuel' (S attempt) le req)
                | inl error =>
                    onCatch error attempt
                            (fun le => requestLoop fuel' (S attempt) le req)
                end
            else
              match json response with
              | JsonOk b => ret b
              | JsonFail e => throw e
              end
        | Rejected error =>
            onCatch error attempt (fun le => requestLoop fuel' (S attempt) le req)
        end
      else
        throw (match lastError with
               | Some e => e
               | None => newError "Request failed after retries"
               end)
  end.

(** [private async request<T>(endpoint, params?)]: [new URL] comes first and
    throws, before any attempt, when the base URL does not parse. *)
Definition request (endpoint : string) (params : option (list (string * JsVal)))
    : Eff Body :=
  c <- getThis ;;
  if canParseBase (baseUrl c) then
    requestLoop (S (S MAX_RETRIES)) 0 None (buildRequest c endpoint params)
  else throw invalidUrl.

(* ===================================================================== *)
(** ** Building [params] objects *)
(* ===================================================================== *)

(** [...(v && { key: v })] for a string option. *)
Definition spreadStr (key : string) (v : option string) : Params :=
  match v with
  | Some s => if truthyStr s then [(key, VStr s)] else []
  | None => []
  end.

(** [...(v && { key: v })] for a numeric option. *)
Definition spreadNum (key : string) (v : option JsNum) : Params :=
  match v with
  | Some n => if truthyNum n then [(key, VNum n)] else []
  | None => []
  end.

(** [...(v !== undefined && { key: v })] for a numeric option. *)
Definition spreadDefinedNum (key : string) (v : option JsNum) : Params :=
  match v with
  | Some n => [(key, VNum n)]
  | None => []
  end.

(** [v || d] for a numeric option. *)
Definition orNum (v : option JsNum) (d : JsNum) : JsNum :=
  match v with
  | Some n => if truthyNum n then n else d
  | None => d
  end.

(** [if (!v) throw new Error(msg)] for an optional string. *)
Definition requireStr (v : option string) (msg : string) : Eff string :=
  match whenTruthy v with
  | Some s => ret s
  | None => throw (newError msg)
  end.

(* ===================================================================== *)
(** ** The client with project-id resolution (unified route tree) *)
(* ===================================================================== *)

Module Unified.

(** [response.project.id] on the decoded body of [/project]. *)
Definition projectIdOf (b : Body) : Eff string :=
  match b with
  | BProject id => ret id
  | BNull => throw (mkError TypeError "Cannot read properties of null (reading 'project')")
  | _ => throw (mkError TypeError "Cannot read properties of undefined (reading 'id')")
  end.

(** [async resolveProjectId(projectId?)] *)
Definition resolveProjectId (projectId : option string) : Eff string :=
  match whenTruthy projectId with
  | Some explicit => ret explicit
  | None =>
      c <- getThis ;;
      if isUserToken c then
        throw (newError "projectId is required when using a user API Key")
      else
        match whenTruthy (resolvedProjectId c) with
        | Some cached => ret cached
        | None =>
            response <- request "/project" None ;;
            id <- projectIdOf response ;;
            setResolvedProjectId id ;;;
            ret id
        end
  end.

(** [async listProjects(options = {})] *)
Definition listProjects (organizationId : option string)
    (limit offset : option JsNum) : Eff Body :=
  c <- getThis ;;
  if negb (isUserToken c) then
    throw (newError "list_projects is not available with project tokens (gfr_). Your token is already scoped to a single project â€” call tools directly without passing projectId.")
  else
    request "/user/projects"
      (Some (spreadStr "organizationId" organizationId
             ++ spreadNum "limit" limit
             ++ spreadNum "offset" offset)%list).

Definition getProjectHealth (projectId : option string) (days : option JsNum)
    : Eff Body :=
  pid <- resolveProjectId projectId ;;
  request ("/user/projects/" ++ pid ++ "/health")
    (Some [("days", VNum (orNum days (num 30)))]).

Definition getTestHistory (projectId testName filePath : option string)
    (limit : option JsNum) : Eff Body :=
  let testName' := optTrim testName in
  let filePath' := optTrim filePath in
  if negb (truthyOptStr testName') && negb (truthyOptStr filePath') then
    throw (newError "Either testName or filePath is required (and must not be empty)")
  else
    pid <- resolveProjectId projectId ;;
    request ("/user/projects/" ++ pid ++ "/test-history")
      (Some (spreadStr "testName" testName'
             ++ spreadStr "filePath" filePath'
             ++ spreadNum "limit" limit)%list).

Definition getFlakyTests (projectId : option string)
    (threshold limit days : option JsNum) : Eff Body :=
  pid <- resolveProjectId projectId ;;
  request ("/user/projects/" ++ pid ++ "/flaky-tests")
    (Some (spreadNum "threshold" threshold
           ++ spreadNum "limit" limit
           ++ spreadNum "days" days)%list).

Definition getTestRuns (projectId commitSha branch status : option string)
    (limit : option JsNum) : Eff Body :=
  pid <- resolveProjectId projectId ;;
  request ("/user/projects/" ++ pid ++ "/test-runs")
    (Some (spreadStr "commitSha" commitSha
           ++ spreadStr "branch" branch
           ++ spreadStr "status" status
           ++ spreadNum "limit" limit)%list).

Definition getReport (testRunId : option string) : Eff Body :=
  c <- getThis ;;
  if negb (isUserToken c) then
    throw (newError "getReport requires a user API Key (gaf_). Project tokens (gfr_) cannot access reports via API.")
  else
    rid <- requireStr testRunId "testRunId is required" ;;
    request ("/user/test-runs/" ++ rid ++ "/report") None.

Definition getSlowestTests (projectId : option string) (days limit : option JsNum)
    (framework branch : option string) : Eff Body :=
  pid <- resolveProjectId projectId ;;
  request ("/user/projects/" ++ pid ++ "/slowest-tests")
    (Some (spreadNum "days" days
           ++ spreadNum "limit" limit
           ++ spreadStr "framework" framework
           ++ spreadStr "branch" branch)%list).

Definition getTestRunDetails (projectId testRunId status : option string)
    (limit offset : option JsNum) : Eff Body :=
  rid <- requireStr testRunId "testRunId is required" ;;
  pid <- resolveProjectId projectId ;;
  request ("/user/projects/" ++ pid ++ "/test-runs/" ++ rid ++ "/details")
    (Some (spreadStr "status" status
           ++ spreadNum "limit" limit
           ++ spreadNum "offset" offset)%list).

Definition compareTestMetrics (projectId testName beforeCommit afterCommit
    beforeRunId afterRunId : option string) : Eff Body :=
  tn <- requireStr testName "testName is required" ;;
  pid <- resolveProjectId projectId ;;
  request ("/user/projects/" ++ pid ++ "/compare-test")
    (Some ([("testName", VStr tn)]
           ++ spreadStr "beforeCommit" beforeCommit
           ++ spreadStr "afterCommit" afterCommit
           ++ spreadStr "beforeRunId" beforeRunId
           ++ spreadStr "afterRunId" afterRunId)%list).

Definition getCoverageSummary (projectId : option string) (days : option JsNum)
    : Eff Body :=
  pid <- resolveProjectId projectId ;;
  request ("/user/projects/" ++ pid ++ "/coverage-summary")
    (Some (spreadNum "days" days)%list).

Definition getCoverageFiles (projectId filePath : option string)
    (minCoverage maxCoverage limit offset : option JsNum)
    (sortBy sortOrder : option string) : Eff Body :=
  pid <- resolveProjectId projectId ;;
  request ("/user/projects/" ++ pid ++ "/coverage/files")
    (Some (spreadStr "filePath" filePath
           ++ spreadDefinedNum "minCoverage" minCoverage
           ++ spreadDefinedNum "maxCoverage" maxCoverage
           ++ spreadNum "limit" limit
           ++ spreadNum "offset" offset
           ++ spreadStr "sortBy" sortBy
           ++ spreadStr "sortOrder" sortOrder)%list).

Definition getCoverageRiskAreas (projectId : option string)
    (days coverageThreshold : option JsNum) : Eff Body :=
  pid <- resolveProjectId projectId ;;
  request ("/user/projects/" ++ pid ++ "/coverage/risk-areas")
    (Some (spreadNum "days" days
           ++ spreadDefinedNum "coverageThreshold" coverageThreshold)%list).

Definition getReportBrowserUrl (projectId testRunId filename : option string)
    : Eff Body :=
  rid <- requireStr testRunId "testRunId is required" ;;
  pid <- resolveProjectId projectId ;;
  request ("/user/projects/" ++ pid ++ "/reports/" ++ rid ++ "/browser-url")
    (Some (spreadStr "filename" filename)%list).

Definition getFailureClusters (projectId testRunId : option string) : Eff Body :=
  rid <- requireStr testRunId "testRunId is required" ;;
  pid <- resolveProjectId projectId ;;
  request ("/user/projects/" ++ pid ++ "/test-runs/" ++ rid ++ "/failure-clusters")
    None.

Definition listUploadSessions (projectId commitSha branch : option string)
    (limit offset : option JsNum) : Eff Body :=
  pid <- resolveProjectId projectId ;;
  request ("/user/projects/" ++ pid ++ "/upload-sessions")
    (Some (spreadStr "commitSha" commitSha
           ++ spreadStr "branch" branch
           ++ spreadNum "limit" limit
           ++ spreadNum "offset" offset)%list).

Definition getUploadSessionDetail (projectId sessionId : option string) : Eff Body :=
  sid <- requireStr sessionId "sessionId is required" ;;
  pid <- resolveProjectId projectId ;;
  request ("/user/projects/" ++ pid ++ "/upload-sessions/" ++ sid) None.

End Unified.

(* ===================================================================== *)
(** ** The client of [src/api-client.ts] (per-token route layout) *)
(* ===================================================================== *)

Module Legacy.

(** [if (!this.isUserToken()) throw new Error(msg)] *)
Definition requireUserToken (msg : string) : Eff unit :=
  c <- getThis ;;
  if negb (isUserToken c) then throw (newError msg) else ret tt.

Definition listProjects (organizationId : option string)
    (limit offset : option JsNum) : Eff Body :=
  requireUserToken "listProjects requires a user API Key (gaf_). Upload Tokens (gfr_) can only access a single project." ;;;
  request "/user/projects"
    (Some (spreadStr "organizationId" organizationId
           ++ spreadNum "limit" limit
           ++ spreadNum "offset" offset)%list).

Definition getProjectHealth (projectId : option string) (days : option JsNum)
    : Eff Body :=
  c <- getThis ;;
  if isUserToken c then
    pid <- requireStr projectId "projectId is required when using a user API Key" ;;
    request ("/user/projects/" ++ pid ++ "/health")
      (Some [("days", VNum (orNum days (num 30)))])
  else
    request "/project/analytics" (Some [("days", VNum (orNum days (num 30)))]).

Definition getTestHistory (projectId testName filePath : option string)
    (limit : option JsNum) : Eff Body :=
  let testName' := optTrim testName in
  let filePath' := optTrim filePath in
  if negb (truthyOptStr testName') && negb (truthyOptStr filePath') then
    throw (newError "Either testName or filePath is required (and must not be empty)")
  else
    c <- getThis ;;
    if isUserToken c then
      pid <- requireStr projectId "projectId is required when using a user API Key" ;;
      request ("/user/projects/" ++ pid ++ "/test-history")
        (Some (spreadStr "testName" testName'
               ++ spreadStr "filePath" filePath'
               ++ spreadNum "limit" limit)%list)
    else
      request "/project/test-history"
        (Some (spreadStr "testName" testName'
               ++ spreadStr "filePath" filePath'
               ++ spreadNum "limit" limit)%list).

Definition getFlakyTests (projectId : option string)
    (threshold limit days : option JsNum) : Eff Body :=
  c <- getThis ;;
  if isUserToken c then
    pid <- requireStr projectId "projectId is required when using a user API Key" ;;
    request ("/user/projects/" ++ pid ++ "/flaky-tests")
      (Some (spreadNum "threshold" threshold
             ++ spreadNum "limit" limit
             ++ spreadNum "days" days)%list)
  else
    request "/project/flaky-tests"
      (Some (spreadNum "threshold" threshold
             ++ spreadNum "limit" limit
             ++ spreadNum "days" days)%list).

Definition getTestRuns (projectId commitSha branch status : option string)
    (limit : option JsNum) : Eff Body :=
  c <- getThis ;;
  if isUserToken c then
    pid <- requireStr projectId "projectId is required when using a user API Key" ;;
    request ("/user/projects/" ++ pid ++ "/test-runs")
      (Some (spreadStr "commitSha" commitSha
             ++ spreadStr "branch" branch
             ++ spreadStr "status" status
             ++ spreadNum "limit" limit)%list)
  else
    request "/project/test-runs"
      (Some (spreadStr "commitSha" commitSha
             ++ spreadStr "branch" branch
             ++ spreadStr "status" status
             ++ spreadNum "limit" limit)%list).

Definition getReport (testRunId : option string) : Eff Body :=
  requireUserToken "getReport requires a user API Key (gaf_). Upload Tokens (gfr_) cannot access reports via API." ;;;
  rid <- requireStr testRunId "testRunId is required" ;;
  request ("/user/test-runs/" ++ rid ++ "/report") None.

Definition getSlowestTests (projectId : option string) (days limit : option JsNum)
    (framework branch : option string) : Eff Body :=
  requireUserToken "getSlowestTests requires a user API Key (gaf_)." ;;;
  pid <- requireStr projectId "projectId is required" ;;
  request ("/user/projects/" ++ pid ++ "/slowest-tests")
    (Some (spreadNum "days" days
           ++ spreadNum "limit" limit
           ++ spreadStr "framework" framework
           ++ spreadStr "branch" branch)%list).

Definition getTestRunDetails (projectId testRunId status : option string)
    (limit offset : option JsNum) : Eff Body :=
  requireUserToken "getTestRunDetails requires a user API Key (gaf_)." ;;;
  pid <- requireStr projectId "projectId is required" ;;
  rid <- requireStr testRunId "testRunId is required" ;;
  request ("/user/projects/" ++ pid ++ "/test-runs/" ++ rid ++ "/details")
    (Some (spreadStr "status" status
           ++ spreadNum "limit" limit
           ++ spreadNum "offset" offset)%list).

Definition compareTestMetrics (projectId testName beforeCommit afterCommit
    beforeRunId afterRunId : option string) : Eff Body :=
  requireUserToken "compareTestMetrics requires a user API Key (gaf_)." ;;;
  pid <- requireStr projectId "projectId is required" ;;
  tn <- requireStr testName "testName is required" ;;
  request ("/user/projects/" ++ pid ++ "/compare-test")
    (Some ([("testName", VStr tn)]
           ++ spreadStr "beforeCommit" beforeCommit
           ++ spreadStr "afterCommit" afterCommit
           ++ spreadStr "beforeRunId" beforeRunId
           ++ spreadStr "afterRunId" afterRunId)%list).

Definition getCoverageSummary (projectId : option string) (days : option JsNum)
    : Eff Body :=
  requireUserToken "getCoverageSummary requires a user API Key (gaf_)." ;;;
  pid <- requireStr projectId "projectId is required" ;;
  request ("/user/projects/" ++ pid ++ "/coverage-summary")
    (Some (spreadNum "days" days)).

Definition getCoverageFiles (projectId filePath : option string)
    (minCoverage maxCoverage limit offset : option JsNum)
    (sortBy sortOrder : option string) : Eff Body :=
  requireUserToken "getCoverageFiles requires a user API Key (gaf_)." ;;;
  pid <- requireStr projectId "projectId is required" ;;
  request ("/user/projects/" ++ pid ++ "/coverage/files")
    (Some (spreadStr "filePath" filePath
           ++ spreadDefinedNum "minCoverage" minCoverage
           ++ spreadDefinedNum "maxCoverage" maxCoverage
           ++ spreadNum "limit" limit
           ++ spreadNum "offset" offset
           ++ spreadStr "sortBy" sortBy
           ++ spreadStr "sortOrder" sortOrder)%list).

Definition getCoverageRiskAreas (projectId : option string)
    (days coverageThreshold : option JsNum) : Eff Body :=
  requireUserToken "getCoverageRiskAreas requires a user API Key (gaf_)." ;;;
  pid <- requireStr projectId "projectId is required" ;;
  request ("/user/projects/" ++ pid ++ "/coverage/risk-areas")
    (Some (spreadNum "days" days
           ++ spreadDefinedNum "coverageThreshold" coverageThreshold)%list).

Definition getReportBrowserUrl (projectId testRunId filename : option string)
    : Eff Body :=
  requireUserToken "getReportBrowserUrl requires a user API Key (gaf_)." ;;;
  pid <- requireStr projectId "projectId is required" ;;
  rid <- requireStr testRunId "testRunId is required" ;;
  request ("/user/projects/" ++ pid ++ "/reports/" ++ rid ++ "/browser-url")
    (Some (spreadStr "filename" filename)).

Definition getFailureClusters (projectId testRunId : option string) : Eff Body :=
  requireUserToken "getFailureClusters requires a user API Key (gaf_)." ;;;
  pid <- requireStr projectId "projectId is required" ;;
  rid <- requireStr testRunId "testRunId is required" ;;
  request ("/user/projects/" ++ pid ++ "/test-runs/" ++ rid ++ "/failure-clusters")
    None.

Definition listUploadSessions (projectId commitSha branch : option string)
    (limit offset : option JsNum) : Eff Body :=
  requireUserToken "listUploadSessions requires a user API Key (gaf_)." ;;;
  pid <- requireStr projectId "projectId is required" ;;
  request ("/user/projects/" ++ pid ++ "/upload-sessions")
    (Some (spreadStr "commitSha" commitSha
           ++ spreadStr "branch" branch
           ++ spreadNum "limit" limit
           ++ spreadNum "offset" offset)%list).

Definition getUploadSessionDetail (projectId sessionId : option string) : Eff Body :=
  requireUserToken "getUploadSessionDetail requires a user API Key (gaf_)." ;;;
  pid <- requireStr projectId "projectId is required" ;;
  sid <- requireStr sessionId "sessionId is required" ;;
  request ("/user/projects/" ++ pid ++ "/upload-sessions/" ++ sid) None.

End Legacy.

(* ===================================================================== *)
(** ** The tools: [executeCompareTestMetrics], [executeGetTestHistory] *)
(* ===================================================================== *)

(** The methods of [GafferApiClient] the two tools call.  Both client texts
    implement them. *)
Class ClientMethods : Type := {
  client_getTestHistory :
    option string -> option string -> option string -> option JsNum -> Eff Body;
  client_compareTestMetrics :
    option string -> option string -> option string -> option string ->
    option string -> option string -> Eff Body
}.

Definition unifiedClient : ClientMethods :=
  {| client_getTestHistory := Unified.getTestHistory;
     client_compareTestMetrics := Unified.compareTestMetrics |}.

Definition legacyClient : ClientMethods :=
  {| client_getTestHistory := Legacy.getTestHistory;
     client_compareTestMetrics := Legacy.compareTestMetrics |}.

Record CompareTestMetricsInput : Type := {
  cmp_projectId : string;
  cmp_testName : string;
  cmp_beforeCommit : option string;
  cmp_afterCommit : option string;
  cmp_beforeRunId : option string;
  cmp_afterRunId : option string
}.

Record GetTestHistoryInput : Type := {
  hist_projectId : option string;
  hist_testName : option string;
  hist_filePath : option string;
  hist_limit : option JsNum
}.

Record HistoryOutputEntry : Type := {
  out_testRunId : string;
  out_createdAt : string;
  out_branch : Field string;
  out_commitSha : Field string;
  out_status : TestStatus;
  out_durationMs : JsNum;
  out_message : Field string
}.

Record HistoryOutputSummary : Type := {
  out_totalRuns : JsNum;
  out_passedRuns : JsNum;
  out_failedRuns : JsNum;
  out_passRate : Field JsNum
}.

Record GetTestHistoryOutput : Type := {
  out_history : list HistoryOutputEntry;
  out_summary : HistoryOutputSummary
}.

(** [s!.trim().length === 0] on an operand known to be a string. *)
Definition blank (o : option string) : bool :=
  match o with
  | Some s => (String.length (trim s) =? 0)%nat
  | None => true
  end.

(** [v || undefined] on a field read from the response. *)
Definition orUndefined (f : Field string) : Field string :=
  match f with
  | Present s => if truthyStr s then Present s else Absent
  | _ => Absent
  end.

(** The arrow function mapped over [response.history]. *)
Definition reshapeEntry (entry : TestHistoryEntry) : HistoryOutputEntry :=
  {| out_testRunId := entry_testRunId entry;
     out_createdAt := entry_createdAt entry;
     out_branch := entry_branch entry;
     out_commitSha := entry_commitSha entry;
     out_status := test_status (entry_test entry);
     out_durationMs := test_durationMs (entry_test entry);
     out_message := orUndefined (test_message (entry_test entry)) |}.

(** The object literal [executeGetTestHistory] returns. *)
Definition reshapeHistory (response : TestHistoryResponse) : GetTestHistoryOutput :=
  {| out_history := map reshapeEntry (resp_history response);
     out_summary :=
       {| out_totalRuns := sum_totalRuns (resp_summary response);
          out_passedRuns := sum_passedRuns (resp_summary response);
          out_failedRuns := sum_failedRuns (resp_summary response);
          out_passRate := sum_passRate (resp_summary response) |} |}.

Section Tools.

Context {client : ClientMethods}.

(** [executeCompareTestMetrics(client, input)] *)
Definition executeCompareTestMetrics (input : CompareTestMetricsInput) : Eff Body :=
  let hasCommits :=
    truthyOptStr (cmp_beforeCommit input) && truthyOptStr (cmp_afterCommit input) in
  let hasRunIds :=
    truthyOptStr (cmp_beforeRunId input) && truthyOptStr (cmp_afterRunId input) in
  if negb hasCommits && negb hasRunIds then
    throw (newError "Must provide either (beforeCommit + afterCommit) or (beforeRunId + afterRunId)")
  else if hasCommits && (blank (cmp_beforeCommit input) || blank (cmp_afterCommit input)) then
    throw (newError "beforeCommit and afterCommit must not be empty strings")
  else if hasRunIds && (blank (cmp_beforeRunId input) || blank (cmp_afterRunId input)) then
    throw (newError "beforeRunId and afterRunId must not be empty strings")
  else
    response <- client_compareTestMetrics
                  (Some (cmp_projectId input)) (Some (cmp_testName input))
                  (cmp_beforeCommit input) (cmp_afterCommit input)
                  (cmp_beforeRunId input) (cmp_afterRunId input) ;;
    ret response.

(** [executeGetTestHistory(client, input)] *)
Definition executeGetTestHistory (input : GetTestHistoryInput)
    : Eff GetTestHistoryOutput :=
  if negb (truthyOptStr (hist_testName input))
     && negb (truthyOptStr (hist_filePath input)) then
    throw (newError "Either testName or filePath is required")
  else
    response <- client_getTestHistory
                  (hist_projectId input) (hist_testName input) (hist_filePath input)
                  (Some (orNum (hist_limit input) (num 20))) ;;
    match response with
    | BTestHistory r => ret (reshapeHistory r)
    | BNull => throw (mkError TypeError "Cannot read properties of null (reading 'history')")
    | _ => throw (mkError TypeError "Cannot read properties of undefined (reading 'map')")
    end.

End Tools.

(* ===================================================================== *)
(** ** Sessions: sequences of method calls on one client *)
(* ===================================================================== *)

(** One call of a client method with its arguments.  [CallResolveProjectId]
    exists on the unified client only. *)
Inductive Call : Type :=
| CallResolveProjectId (projectId : option string)
| CallListProjects (organizationId : option string) (limit offset : option JsNum)
| CallGetProjectHealth (projectId : option string) (days : option JsNum)
| CallGetTestHistory (projectId testName filePath : option string)
    (limit : option JsNum)
| CallGetFlakyTests (projectId : option string) (threshold limit days : option JsNum)
| CallGetTestRuns (projectId commitSha branch status : option string)
    (limit : option JsNum)
| CallGetReport (testRunId : option string)
| CallGetSlowestTests (projectId : option string) (days limit : option JsNum)
    (framework branch : option string)
| CallGetTestRunDetails (projectId testRunId status : option string)
    (limit offset : option JsNum)
| CallCompareTestMetrics (projectId testName beforeCommit afterCommit
    beforeRunId afterRunId : option string)
| CallGetCoverageSummary (projectId : option string) (days : option JsNum)
| CallGetCoverageFiles (projectId filePath : option string)
    (minCoverage maxCoverage limit offset : option JsNum)
    (sortBy sortOrder : option string)
| CallGetCoverageRiskAreas (projectId : option string)
    (days coverageThreshold : option JsNum)
| CallGetReportBrowserUrl (projectId testRunId filename : option string)
| CallGetFailureClusters (projectId testRunId : option string)
| CallListUploadSessions (projectId commitSha branch : option string)
    (limit offset : option JsNum)
| CallGetUploadSessionDetail (projectId sessionId : option string).

(** Run a computation for its effects; the caller (the tool adapter) catches
    whatever it throws. *)
Definition settle {A} (m : Eff A) : Eff unit :=
  fun net s => (Returned tt, snd (m net s)).

Definition invokeUnified (c : Call) : Eff unit :=
  match c with
  | CallResolveProjectId p => settle (Unified.resolveProjectId p)
  | CallListProjects o l f => settle (Unified.listProjects o l f)
  | CallGetProjectHealth p d => settle (Unified.getProjectHealth p d)
  | CallGetTestHistory p t f l => settle (Unified.getTestHistory p t f l)
  | CallGetFlakyTests p t l d => settle (Unified.getFlakyTests p t l d)
  | CallGetTestRuns p c b st l => settle (Unified.getTestRuns p c b st l)
  | CallGetReport r => settle (Unified.getReport r)
  | CallGetSlowestTests p d l f b => settle (Unified.getSlowestTests p d l f b)
  | CallGetTestRunDetails p r st l o => settle (Unified.getTestRunDetails p r st l o)
  | CallCompareTestMetrics p t bc ac br ar =>
      settle (Unified.compareTestMetrics p t bc ac br ar)
  | CallGetCoverageSummary p d => settle (Unified.getCoverageSummary p d)
  | CallGetCoverageFiles p f mn mx l o sb so =>
      settle (Unified.getCoverageFiles p f mn mx l o sb so)
  | CallGetCoverageRiskAreas p d t => settle (Unified.getCoverageRiskAreas p d t)
  | CallGetReportBrowserUrl p r f => settle (Unified.getReportBrowserUrl p r f)
  | CallGetFailureClusters p r => settle (Unified.getFailureClusters p r)
  | CallListUploadSessions p c b l o => settle (Unified.listUploadSessions p c b l o)
  | CallGetUploadSessionDetail p i => settle (Unified.getUploadSessionDetail p i)
  end.

Definition invokeLegacy (c : Call) : Eff unit :=
  match c with
  | CallResolveProjectId _ =>
      settle (throw (A := unit)
                (mkError TypeError "client.resolveProjectId is not a function"))
  | CallListProjects o l f => settle (Legacy.listProjects o l f)
  | CallGetProjectHealth p d => settle (Legacy.getProjectHealth p d)
  | CallGetTestHistory p t f l => settle (Legacy.getTestHistory p t f l)
  | CallGetFlakyTests p t l d => settle (Legacy.getFlakyTests p t l d)
  | CallGetTestRuns p c b st l => settle (Legacy.getTestRuns p c b st l)
  | CallGetReport r => settle (Legacy.getReport r)
  | CallGetSlowestTests p d l f b => settle (Legacy.getSlowestTests p d l f b)
  | CallGetTestRunDetails p r st l o => settle (Legacy.getTestRunDetails p r st l o)
  | CallCompareTestMetrics p t bc ac br ar =>
      settle (Legacy.compareTestMetrics p t bc ac br ar)
  | CallGetCoverageSummary p d => settle (Legacy.getCoverageSummary p d)
  | CallGetCoverageFiles p f mn mx l o sb so =>
      settle (Legacy.getCoverageFiles p f mn mx l o sb so)
  | CallGetCoverageRiskAreas p d t => settle (Legacy.getCoverageRiskAreas p d t)
  | CallGetReportBrowserUrl p r f => settle (Legacy.getReportBrowserUrl p r f)
  | CallGetFailureClusters p r => settle (Legacy.getFailureClusters p r)
  | CallListUploadSessions p c b l o => settle (Legacy.listUploadSessions p c b l o)
  | CallGetUploadSessionDetail p i => settle (Legacy.getUploadSessionDetail p i)
  end.

(** The calls of a server session, one after the other. *)
Fixpoint session (invoke : Call -> Eff unit) (calls : list Call) : Eff unit :=
  match calls with
  | [] => ret tt
  | c :: rest => invoke c ;;; session invoke rest
  end.

(** The state of a freshly started server. *)
Definition startup (config : GafferConfig) : Sys :=
  {| this := newClient config; log := [] |}.

(** The endpoint paths the capability gates protect. *)
Definition IDENTITY_PATH : string := "/api/v1/project".
Definition LISTING_PATH : string := "/api/v1/user/projects".

(** No request in the log sends a user key to the identity-resolution
    endpoint or a project token to the project-listing endpoint. *)
Definition gated (l : list Event) : Prop :=
  forall req, In (EvFetch req) l ->
    match detectTokenType (req_key req) with
    | user => req_path req <> IDENTITY_PATH
    | project => req_path req <> LISTING_PATH
    end.

(** The delays of the backoff sleeps recorded in a log, in order. *)
Fixpoint sleeps (l : list Event) : list JsNum :=
  match l with
  | [] => []
  | EvSleep ms :: rest => ms :: sleeps rest
  | EvFetch _ :: rest => sleeps rest
  end.

(** The stub whose every answer is the response [r]. *)
Definition always (r : Response) : Net := fun _ _ => Resolved r.

(** [retryable r]: the status of [r] is in [RETRYABLE_STATUS_CODES]. *)
Definition retryable (r : Response) : bool :=
  includes RETRYABLE_STATUS_CODES (status r).


(* ===================================================================== *)
(** ** Predicates used in the statements *)
(* ===================================================================== *)

(** The events one call of [request] can add to the log. *)
Definition fromRequest (req : HttpRequest) (l : list Event) : Prop :=
  forall e, In e l -> e = EvFetch req \/ exists ms, e = EvSleep ms.

(** [m] leaves the client object alone and only appends events of a request
    [req] to the log. *)
Definition extends {A} (req : HttpRequest) (m : Eff A) (net : Net) (s : Sys) : Prop :=
  this (snd (m net s)) = this s
  /\ exists l, log (snd (m net s)) = (log s ++ l)%list /\ fromRequest req l.

(** *** Identifiers and base URLs the URL parser leaves as they are *)

(** Letters, digits, [-] and [_]: characters that end no path segment, are
    not percent-encoded and start no query or fragment. *)
Definition isPlainChar (c : ascii) : bool :=
  isAsciiAlpha c || isAsciiDigit c || isChar "-" c || isChar "_" c.

(** An identifier made of such characters. *)
Definition plainId (s : string) : bool := allChars isPlainChar s.

Definition plainOpt (o : option string) : bool :=
  match o with
  | Some s => plainId s
  | None => true
  end.

(** A path made of such characters and slashes. *)
Definition plainPath (s : string) : bool :=
  allChars (fun c => isPlainChar c || isChar "/" c) s.

Fixpoint hasDoubleHyphen (s : string) : bool :=
  match s with
  | String "-" (String "-" _) => true
  | String _ r => hasDoubleHyphen r
  | EmptyString => false
  end.

(** A label of a host name: lower-case letters, digits and single hyphens
    inside (not at either end). *)
Definition plainLabel (l : string) : bool :=
  allChars (fun c => isLowerAlpha c || isAsciiDigit c || isChar "-" c) l
  && negb (hasDoubleHyphen l)
  && match l with
     | String c _ => isLowerAlpha c || isAsciiDigit c
     | EmptyString => false
     end
  && String.eqb (dropTrailing (isChar "-") l) l.

(** A host name of such labels whose last label starts with a letter, so
    that it does not read as a numeric address. *)
Definition plainHost (h : string) : bool :=
  let labels := splitOn (isChar ".") h in
  forallb plainLabel labels
  && match last labels EmptyString with
     | String c _ => isLowerAlpha c
     | EmptyString => false
     end.

Definition stripPrefix (pre s : string) : option string :=
  if String.prefix pre s
  then Some (substring (String.length pre) (String.length s - String.length pre) s)
  else None.

(** A base URL of the form [http://host], [https://host] or either with
    [:port], with a plain host: for such a base [new URL] does not throw. *)
Definition plainOrigin (base : string) : bool :=
  canParseBase base
  && match (match stripPrefix "https://" base with
            | Some rest => Some rest
            | None => stripPrefix "http://" base
            end) with
     | Some rest =>
         let (host, port) := cut (isChar ":") rest in
         plainHost host
         && match port with
            | Some p => negb (String.eqb p EmptyString) && allChars isAsciiDigit p
            | None => true
            end
     | None => false
     end.

(** A base URL without a colon anywhere, so without a scheme: a bare host
    name such as [app.gaffer.sh]. *)
Definition schemeless (base : string) : bool :=
  allChars (fun c => negb (isChar ":" c)) base.

(** The arguments of a call that the methods put into the path. *)
Definition pathArgs (c : Call) : list (option string) :=
  match c with
  | CallResolveProjectId p => [p]
  | CallListProjects _ _ _ => []
  | CallGetProjectHealth p _ => [p]
  | CallGetTestHistory p _ _ _ => [p]
  | CallGetFlakyTests p _ _ _ => [p]
  | CallGetTestRuns p _ _ _ _ => [p]
  | CallGetReport r => [r]
  | CallGetSlowestTests p _ _ _ _ => [p]
  | CallGetTestRunDetails p r _ _ _ => [p; r]
  | CallCompareTestMetrics p _ _ _ _ _ => [p]
  | CallGetCoverageSummary p _ => [p]
  | CallGetCoverageFiles p _ _ _ _ _ _ _ => [p]
  | CallGetCoverageRiskAreas p _ _ => [p]
  | CallGetReportBrowserUrl p r _ => [p; r]
  | CallGetFailureClusters p r => [p; r]
  | CallListUploadSessions p _ _ _ _ => [p]
  | CallGetUploadSessionDetail p i => [p; i]
  end.

(** A call whose path arguments are plain identifiers. *)
Definition plainCall (c : Call) : bool := forallb plainOpt (pathArgs c).

(** A network whose [/project] answers carry plain project ids. *)
Definition plainNet (net : Net) : Prop :=
  forall n req r id,
    net n req = Resolved r -> json r = JsonOk (BProject id) -> plainId id = true.

(** The invariant of a session run with the key [key]. *)
Definition keyed (key : string) (s : Sys) : Prop :=
  apiKey (this s) = key
  /\ tokenType (this s) = detectTokenType key
  /\ plainOpt (resolvedProjectId (this s)) = true
  /\ gated (log s).

(** A computation that keeps the invariant on a plain network, and whose
    results satisfy [post]. *)
Definition safe {A} (key : string) (m : Eff A) (post : A -> Prop) : Prop :=
  forall net s, plainNet net -> keyed key s ->
    keyed key (snd (m net s))
    /\ forall a, fst (m net s) = Returned a -> post a.

(** The endpoints a key may be sent to. *)
Definition allowed (key endpoint : string) : Prop :=
  match detectTokenType key with
  | user => "/api/v1" ++ endpoint <> IDENTITY_PATH
  | project => "/api/v1" ++ endpoint <> LISTING_PATH
  end.

(** *** Failure responses *)

(** A response whose body is the JSON value [null]. *)
Definition nullBody (r : Response) : bool :=
  match json r with
  | JsonOk BNull => true
  | _ => false
  end.


(** The error a failure response ends the call with when it is the last. *)
Definition failureOf (r : Response) : JsError :=
  if nullBody r then nullErrorData else newError (errorMessageOf r).

(** One side of a comparison pair is supplied when it is a string that is
    not empty after trimming. *)
Definition supplied (o : option string) : bool :=
  match o with
  | Some x => truthyStr (trim x)
  | None => false
  end.

(** A complete comparison axis: both sides supplied. *)
Definition completePair (before after : option string) : bool :=
  supplied before && supplied after.

(** A representation of the number zero. *)
Definition isZero (n : JsNum) : bool :=
  match n with
  | Finite q => Qeq_bool q 0
  | _ => false
  end.

(** The query sets of the fetches recorded in a log, in order. *)
Fixpoint queries (l : list Event) : list Params :=
  match l with
  | [] => []
  | EvFetch req :: rest => req_query req :: queries rest
  | EvSleep _ :: rest => queries rest
  end.

(** A numeric option with a supplied zero taken away. *)
Definition omitZero (v : option JsNum) : option JsNum :=
  match v with
  | Some n => if isZero n then None else Some n
  | None => None
  end.

(** A method call with every zero taken away from the numeric options that
    the method adds by a truthiness spread or defaults with [||]; the options
    the methods guard with [!== undefined] ([minCoverage], [maxCoverage],
    [coverageThreshold]) are left as they are. *)
Definition omitZeros (c : Call) : Call :=
  match c with
  | CallListProjects o l f => CallListProjects o (omitZero l) (omitZero f)
  | CallGetProjectHealth p d => CallGetProjectHealth p (omitZero d)
  | CallGetTestHistory p t f l => CallGetTestHistory p t f (omitZero l)
  | CallGetFlakyTests p t l d =>
      CallGetFlakyTests p (omitZero t) (omitZero l) (omitZero d)
  | CallGetTestRuns p c b st l => CallGetTestRuns p c b st (omitZero l)
  | CallGetSlowestTests p d l f b =>
      CallGetSlowestTests p (omitZero d) (omitZero l) f b
  | CallGetTestRunDetails p r st l o =>
      CallGetTestRunDetails p r st (omitZero l) (omitZero o)
  | CallGetCoverageSummary p d => CallGetCoverageSummary p (omitZero d)
  | CallGetCoverageFiles p f mn mx l o sb so =>
      CallGetCoverageFiles p f mn mx (omitZero l) (omitZero o) sb so
  | CallGetCoverageRiskAreas p d t => CallGetCoverageRiskAreas p (omitZero d) t
  | CallListUploadSessions p c b l o =>
      CallListUploadSessions p c b (omitZero l) (omitZero o)
  | other => other
  end.

(* ===================================================================== *)
(** ** Construction from the environment *)
(* ===================================================================== *)

(** [process.env] *)
Definition Env : Type := string -> option string.

(** [static fromEnv()] *)
Definition fromEnv (env : Env) : Outcome GafferApiClient :=
  match whenTruthy (env "GAFFER_API_KEY") with
  | None => Threw (newError "GAFFER_API_KEY environment variable is required")
  | Some key =>
      let url := match whenTruthy (env "GAFFER_API_URL") with
                 | Some u => u
                 | None => "https://app.gaffer.sh"
                 end in
      Returned (newClient {| cfg_apiKey := key; cfg_baseUrl := url |})
  end.

(** The tools [main] registers, in order; [list_projects] only for a user
    key.  The names are those of the [metadata] objects of the tool files. *)
Definition registeredTools (c : GafferApiClient) : list string :=
  (["get_project_health"; "get_test_history"; "get_flaky_tests"; "list_test_runs"]
   ++ (if isUserToken c then ["list_projects"] else [])
   ++ ["get_report"; "get_slowest_tests"; "get_test_run_details";
       "get_failure_clusters"; "compare_test_metrics"; "get_coverage_summary";
       "get_coverage_for_file"; "find_uncovered_failure_areas";
       "get_untested_files"; "get_report_browser_url"; "get_upload_status"])%list.

(* ===================================================================== *)
(** ** Method calls with their results *)
(* ===================================================================== *)

(** What a client method resolves to. *)
Inductive CallResult : Type :=
| ResolvedId (id : string)
| Decoded (b : Body).

Definition asId (m : Eff string) : Eff CallResult :=
  id <- m ;; ret (ResolvedId id).

Definition asBody (m : Eff Body) : Eff CallResult :=
  b <- m ;; ret (Decoded b).

(** The method call [c] on the unified client. *)
Definition performUnified (c : Call) : Eff CallResult :=
  match c with
  | CallResolveProjectId p => asId (Unified.resolveProjectId p)
  | CallListProjects o l f => asBody (Unified.listProjects o l f)
  | CallGetProjectHealth p d => asBody (Unified.getProjectHealth p d)
  | CallGetTestHistory p t f l => asBody (Unified.getTestHistory p t f l)
  | CallGetFlakyTests p t l d => asBody (Unified.getFlakyTests p t l d)
  | CallGetTestRuns p c b st l => asBody (Unified.getTestRuns p c b st l)
  | CallGetReport r => asBody (Unified.getReport r)
  | CallGetSlowestTests p d l f b => asBody (Unified.getSlowestTests p d l f b)
  | CallGetTestRunDetails p r st l o => asBody (Unified.getTestRunDetails p r st l o)
  | CallCompareTestMetrics p t bc ac br ar =>
      asBody (Unified.compareTestMetrics p t bc ac br ar)
  | CallGetCoverageSummary p d => asBody (Unified.getCoverageSummary p d)
  | CallGetCoverageFiles p f mn mx l o sb so =>
      asBody (Unified.getCoverageFiles p f mn mx l o sb so)
  | CallGetCoverageRiskAreas p d t => asBody (Unified.getCoverageRiskAreas p d t)
  | CallGetReportBrowserUrl p r f => asBody (Unified.getReportBrowserUrl p r f)
  | CallGetFailureClusters p r => asBody (Unified.getFailureClusters p r)
  | CallListUploadSessions p c b l o => asBody (Unified.listUploadSessions p c b l o)
  | CallGetUploadSessionDetail p i => asBody (Unified.getUploadSessionDetail p i)
  end.

(** The method call [c] on the client of [src/api-client.ts], which has no
    [resolveProjectId]. *)
Definition performLegacy (c : Call) : Eff CallResult :=
  match c with
  | CallResolveProjectId _ =>
      throw (mkError TypeError "client.resolveProjectId is not a function")
  | CallListProjects o l f => asBody (Legacy.listProjects o l f)
  | CallGetProjectHealth p d => asBody (Legacy.getProjectHealth p d)
  | CallGetTestHistory p t f l => asBody (Legacy.getTestHistory p t f l)
  | CallGetFlakyTests p t l d => asBody (Legacy.getFlakyTests p t l d)
  | CallGetTestRuns p c b st l => asBody (Legacy.getTestRuns p c b st l)
  | CallGetReport r => asBody (Legacy.getReport r)
  | CallGetSlowestTests p d l f b => asBody (Legacy.getSlowestTests p d l f b)
  | CallGetTestRunDetails p r st l o => asBody (Legacy.getTestRunDetails p r st l o)
  | CallCompareTestMetrics p t bc ac br ar =>
      asBody (Legacy.compareTestMetrics p t bc ac br ar)
  | CallGetCoverageSummary p d => asBody (Legacy.getCoverageSummary p d)
  | CallGetCoverageFiles p f mn mx l o sb so =>
      asBody (Legacy.getCoverageFiles p f mn mx l o sb so)
  | CallGetCoverageRiskAreas p d t => asBody (Legacy.getCoverageRiskAreas p d t)
  | CallGetReportBrowserUrl p r f => asBody (Legacy.getReportBrowserUrl p r f)
  | CallGetFailureClusters p r => asBody (Legacy.getFailureClusters p r)
  | CallListUploadSessions p c b l o => asBody (Legacy.listUploadSessions p c b l o)
  | CallGetUploadSessionDetail p i => asBody (Legacy.getUploadSessionDetail p i)
  end.

(** The [projectId] argument of a call, for the methods that take one. *)
Definition projectIdArg (c : Call) : option (option string) :=
  match c with
  | CallResolveProjectId p => Some p
  | CallListProjects _ _ _ => None
  | CallGetProjectHealth p _ => Some p
  | CallGetTestHistory p _ _ _ => Some p
  | CallGetFlakyTests p _ _ _ => Some p
  | CallGetTestRuns p _ _ _ _ => Some p
  | CallGetReport _ => None
  | CallGetSlowestTests p _ _ _ _ => Some p
  | CallGetTestRunDetails p _ _ _ _ => Some p
  | CallCompareTestMetrics p _ _ _ _ _ => Some p
  | CallGetCoverageSummary p _ => Some p
  | CallGetCoverageFiles p _ _ _ _ _ _ _ => Some p
  | CallGetCoverageRiskAreas p _ _ => Some p
  | CallGetReportBrowserUrl p _ _ => Some p
  | CallGetFailureClusters p _ => Some p
  | CallListUploadSessions p _ _ _ _ => Some p
  | CallGetUploadSessionDetail p _ => Some p
  end.

(** The same call with another [projectId] argument. *)
Definition withProjectId (q : option string) (c : Call) : Call :=
  match c with
  | CallResolveProjectId _ => CallResolveProjectId q
  | CallListProjects o l f => CallListProjects o l f
  | CallGetProjectHealth _ d => CallGetProjectHealth q d
  | CallGetTestHistory _ t f l => CallGetTestHistory q t f l
  | CallGetFlakyTests _ t l d => CallGetFlakyTests q t l d
  | CallGetTestRuns _ c b st l => CallGetTestRuns q c b st l
  | CallGetReport r => CallGetReport r
  | CallGetSlowestTests _ d l f b => CallGetSlowestTests q d l f b
  | CallGetTestRunDetails _ r st l o => CallGetTestRunDetails q r st l o
  | CallCompareTestMetrics _ t bc ac br ar => CallCompareTestMetrics q t bc ac br ar
  | CallGetCoverageSummary _ d => CallGetCoverageSummary q d
  | CallGetCoverageFiles _ f mn mx l o sb so =>
      CallGetCoverageFiles q f mn mx l o sb so
  | CallGetCoverageRiskAreas _ d t => CallGetCoverageRiskAreas q d t
  | CallGetReportBrowserUrl _ r f => CallGetReportBrowserUrl q r f
  | CallGetFailureClusters _ r => CallGetFailureClusters q r
  | CallListUploadSessions _ c b l o => CallListUploadSessions q c b l o
  | CallGetUploadSessionDetail _ i => CallGetUploadSessionDetail q i
  end.

(** The name of the method a call invokes. *)
Definition methodName (c : Call) : string :=
  match c with
  | CallResolveProjectId _ => "resolveProjectId"
  | CallListProjects _ _ _ => "listProjects"
  | CallGetProjectHealth _ _ => "getProjectHealth"
  | CallGetTestHistory _ _ _ _ => "getTestHistory"
  | CallGetFlakyTests _ _ _ _ => "getFlakyTests"
  | CallGetTestRuns _ _ _ _ _ => "getTestRuns"
  | CallGetReport _ => "getReport"
  | CallGetSlowestTests _ _ _ _ _ => "getSlowestTests"
  | CallGetTestRunDetails _ _ _ _ _ => "getTestRunDetails"
  | CallCompareTestMetrics _ _ _ _ _ _ => "compareTestMetrics"
  | CallGetCoverageSummary _ _ => "getCoverageSummary"
  | CallGetCoverageFiles _ _ _ _ _ _ _ _ => "getCoverageFiles"
  | CallGetCoverageRiskAreas _ _ _ => "getCoverageRiskAreas"
  | CallGetReportBrowserUrl _ _ _ => "getReportBrowserUrl"
  | CallGetFailureClusters _ _ => "getFailureClusters"
  | CallListUploadSessions _ _ _ _ _ => "listUploadSessions"
  | CallGetUploadSessionDetail _ _ => "getUploadSessionDetail"
  end.

(** The four methods that the per-token client serves to a project token,
    with the route each one uses then. *)
Definition projectRoute (c : Call) : option string :=
  match c with
  | CallGetProjectHealth _ _ => Some "/project/analytics"
  | CallGetTestHistory _ _ _ _ => Some "/project/test-history"
  | CallGetFlakyTests _ _ _ _ => Some "/project/flaky-tests"
  | CallGetTestRuns _ _ _ _ _ => Some "/project/test-runs"
  | _ => None
  end.

(** A call of a method that exists on the per-token client. *)
Definition isMethod (c : Call) : bool :=
  match c with
  | CallResolveProjectId _ => false
  | _ => true
  end.

(* ===================================================================== *)
(** ** More tools: upload status, untested files, test-run listing *)
(* ===================================================================== *)

(** [v ?? d] for a numeric option. *)
Definition nullishNum (v : option JsNum) (d : JsNum) : JsNum :=
  match v with
  | Some n => n
  | None => d
  end.

(** The methods of [GafferApiClient] these tools call. *)
Class ToolClient : Type := {
  tc_getTestRuns :
    option string -> option string -> option string -> option string ->
    option JsNum -> Eff Body;
  tc_getCoverageFiles :
    option string -> option string -> option JsNum -> option JsNum ->
    option JsNum -> option JsNum -> option string -> option string -> Eff Body;
  tc_listUploadSessions :
    option string -> option string -> option string -> option JsNum ->
    option JsNum -> Eff Body;
  tc_getUploadSessionDetail : option string -> option string -> Eff Body
}.

Definition unifiedTools : ToolClient :=
  {| tc_getTestRuns := Unified.getTestRuns;
     tc_getCoverageFiles := Unified.getCoverageFiles;
     tc_listUploadSessions := Unified.listUploadSessions;
     tc_getUploadSessionDetail := Unified.getUploadSessionDetail |}.

Definition legacyTools : ToolClient :=
  {| tc_getTestRuns := Legacy.getTestRuns;
     tc_getCoverageFiles := Legacy.getCoverageFiles;
     tc_listUploadSessions := Legacy.listUploadSessions;
     tc_getUploadSessionDetail := Legacy.getUploadSessionDetail |}.

Record GetUploadStatusInput : Type := {
  up_projectId : string;
  up_sessionId : option string;
  up_commitSha : option string;
  up_branch : option string
}.

Record GetUntestedFilesInput : Type := {
  unt_projectId : option string;
  unt_maxCoverage : option JsNum;
  unt_limit : option JsNum
}.

Record ListTestRunsInput : Type := {
  ltr_projectId : option string;
  ltr_commitSha : option string;
  ltr_branch : option string;
  ltr_status : option string;
  ltr_limit : option JsNum
}.

(** [Pagination] *)
Record Pagination : Type := {
  pg_limit : JsNum;
  pg_offset : JsNum;
  pg_total : JsNum;
  pg_hasMore : bool
}.

(** [CoverageMetric] and [CoverageFileEntry] *)
Record CoverageMetric : Type := {
  cov_covered : JsNum;
  cov_total : JsNum;
  cov_percentage : JsNum
}.

Record CoverageFileEntry : Type := {
  file_path : string;
  file_lines : CoverageMetric;
  file_branches : CoverageMetric;
  file_functions : CoverageMetric
}.

Record CoverageFilesResponse : Type := {
  cfr_hasCoverage : bool;
  cfr_files : list CoverageFileEntry;
  cfr_pagination : Pagination;
  cfr_overallCoverage : Field JsNum;
  cfr_message : Field string
}.

Record GetUntestedFilesOutput : Type := {
  unt_hasCoverage : bool;
  unt_files : list CoverageFileEntry;
  unt_totalCount : JsNum;
  unt_message : Field string
}.

(** [TestRunEntry] and [TestRunsResponse]; [tags] is kept as its JSON text. *)
Record RunSummary : Type := {
  rsum_passed : JsNum;
  rsum_failed : JsNum;
  rsum_skipped : JsNum;
  rsum_total : JsNum;
  rsum_durationMs : Field JsNum
}.

Record TestRunEntry : Type := {
  run_id : string;
  run_uniqueId : string;
  run_description : Field string;
  run_branch : Field string;
  run_commitSha : Field string;
  run_framework : Field string;
  run_tags : Field string;
  run_summary : RunSummary;
  run_createdAt : string
}.

Record TestRunsResponse : Type := {
  runs_testRuns : list TestRunEntry;
  runs_pagination : Pagination
}.

Record ListedRun : Type := {
  lr_id : string;
  lr_commitSha : Field string;
  lr_branch : Field string;
  lr_passedCount : JsNum;
  lr_failedCount : JsNum;
  lr_skippedCount : JsNum;
  lr_totalCount : JsNum;
  lr_createdAt : string
}.

Record ListTestRunsOutput : Type := {
  ltr_testRuns : list ListedRun;
  ltr_total : JsNum;
  ltr_hasMore : bool
}.

(** The arrow function mapped over [response.files]. *)
Definition reshapeFile (f : CoverageFileEntry) : CoverageFileEntry :=
  {| file_path := file_path f;
     file_lines := file_lines f;
     file_branches := file_branches f;
     file_functions := file_functions f |}.

(** The object literal [executeGetUntestedFiles] returns. *)
Definition reshapeUntested (response : CoverageFilesResponse) : GetUntestedFilesOutput :=
  {| unt_hasCoverage := cfr_hasCoverage response;
     unt_files := map reshapeFile (cfr_files response);
     unt_totalCount := pg_total (cfr_pagination response);
     unt_message := cfr_message response |}.

(** The arrow function mapped over [response.testRuns]. *)
Definition reshapeRun (run : TestRunEntry) : ListedRun :=
  {| lr_id := run_id run;
     lr_commitSha := orUndefined (run_commitSha run);
     lr_branch := orUndefined (run_branch run);
     lr_passedCount := rsum_passed (run_summary run);
     lr_failedCount := rsum_failed (run_summary run);
     lr_skippedCount := rsum_skipped (run_summary run);
     lr_totalCount := rsum_total (run_summary run);
     lr_createdAt := run_createdAt run |}.

(** The object literal [executeListTestRuns] returns. *)
Definition reshapeRuns (response : TestRunsResponse) : ListTestRunsOutput :=
  {| ltr_testRuns := map reshapeRun (runs_testRuns response);
     ltr_total := pg_total (runs_pagination response);
     ltr_hasMore := pg_hasMore (runs_pagination response) |}.

Section MoreTools.

Context {client : ToolClient}.

(** How a decoded body reads at the response type a tool casts it to
    ([None] when it lacks the members the tool dereferences, as [null]
    does).  The bodies of these two responses are carried as [BOther]. *)
Variable asCoverageFiles : Body -> option CoverageFilesResponse.
Variable asTestRuns : Body -> option TestRunsResponse.

(** [executeGetUploadStatus(client, input)] *)
Definition executeGetUploadStatus (input : GetUploadStatusInput) : Eff Body :=
  if truthyOptStr (up_sessionId input) then
    tc_getUploadSessionDetail (Some (up_projectId input)) (up_sessionId input)
  else
    tc_listUploadSessions (Some (up_projectId input))
      (up_commitSha input) (up_branch input) None None.

(** [executeGetUntestedFiles(client, input)] *)
Definition executeGetUntestedFiles (input : GetUntestedFilesInput)
    : Eff GetUntestedFilesOutput :=
  let maxCoverage := nullishNum (unt_maxCoverage input) (num 10) in
  let limit := nullishNum (unt_limit input) (num 20) in
  response <- tc_getCoverageFiles (unt_projectId input) None None
                (Some maxCoverage) (Some limit) None
                (Some "coverage") (Some "asc") ;;
  match asCoverageFiles response with
  | Some r => ret (reshapeUntested r)
  | None =>
      match response with
      | BNull => throw (mkError TypeError "Cannot read properties of null (reading 'hasCoverage')")
      | _ => throw (mkError TypeError "Cannot read properties of undefined (reading 'map')")
      end
  end.

(** [executeListTestRuns(client, input)] *)
Definition executeListTestRuns (input : ListTestRunsInput) : Eff ListTestRunsOutput :=
  response <- tc_getTestRuns (ltr_projectId input) (ltr_commitSha input)
                (ltr_branch input) (ltr_status input)
                (Some (orNum (ltr_limit input) (num 20))) ;;
  match asTestRuns response with
  | Some r => ret (reshapeRuns r)
  | None =>
      match response with
      | BNull => throw (mkError TypeError "Cannot read properties of null (reading 'testRuns')")
      | _ => throw (mkError TypeError "Cannot read properties of undefined (reading 'map')")
      end
  end.

End MoreTools.

(* ===================================================================== *)
(** ** More predicates used in the statements *)
(* ===================================================================== *)


(** The error [request] throws when the outcome [o] ends the call: for a
    failure response [failureOf], the [TypeError] of the [null] body
    included. *)
Definition errorOfOutcome (o : FetchOutcome) (e : JsError) : Prop :=
  match o with
  | Resolved r =>
      if ok r then json r = JsonFail e else e = failureOf r
  | Rejected error =>
      match err_name error with
      | AbortError => e = timeoutError
      | _ => e = error
      end
  end.

(** A client that will not resolve its project id (again): a user key, or a
    project token whose cache holds a non-empty id. *)
Definition settled (c : GafferApiClient) : bool :=
  isUserToken c || truthyOptStr (resolvedProjectId c).

(** [m], started in a state whose client is [c], leaves the client object
    alone and sends nothing to the identity-resolution endpoint; what it
    returns satisfies [post]. *)
Definition quiet {A} (c : GafferApiClient) (m : Eff A) (post : A -> Prop) : Prop :=
  forall net s, this s = c ->
    this (snd (m net s)) = c
    /\ (exists l, log (snd (m net s)) = (log s ++ l)%list
                  /\ forall req, In (EvFetch req) l -> req_path req <> IDENTITY_PATH)
    /\ forall a, fst (m net s) = Returned a -> post a.

(** The keys of a query set. *)
Definition queryKeys (q : Params) : list string := map fst q.

(** A rejection the [catch] block retries: a timeout or a connection
    failure. *)
Definition transient (error : JsError) : bool :=
  match err_name error with
  | AbortError | TypeError => true
  | _ => false
  end.

(** The error the [catch] block ends the call with, for the caught [error]. *)
Definition thrownFor (error : JsError) : JsError :=
  match err_name error with
  | AbortError => timeoutError
  | _ => error
  end.

(** An input that passes the validation: both pairs complete, or one pair
    complete and a side of the other missing or empty. *)
Definition passesValidation (input : CompareTestMetricsInput) : Prop :=
  (completePair (cmp_beforeCommit input) (cmp_afterCommit input) = true
   /\ completePair (cmp_beforeRunId input) (cmp_afterRunId input) = true)
  \/ (completePair (cmp_beforeCommit input) (cmp_afterCommit input) = true
      /\ truthyOptStr (cmp_beforeRunId input)
         && truthyOptStr (cmp_afterRunId input) = false)
  \/ (completePair (cmp_beforeRunId input) (cmp_afterRunId input) = true
      /\ truthyOptStr (cmp_beforeCommit input)
         && truthyOptStr (cmp_afterCommit input) = false).


(* ===================================================================== *)
(** ** Concrete clients, responses and stubs *)
(* ===================================================================== *)

Module Fixtures.

Definition userClient : GafferApiClient :=
  newClient {| cfg_apiKey := "gaf_abc123"; cfg_baseUrl := "https://app.gaffer.sh/" |}.

Definition projectClient : GafferApiClient :=
  newClient {| cfg_apiKey := "gfr_xyz"; cfg_baseUrl := "https://app.gaffer.sh" |}.

Definition userSys : Sys := {| this := userClient; log := [] |}.
Definition projectSys : Sys := {| this := projectClient; log := [] |}.

Definition r503 : Response :=
  {| status := 503; retryAfter := None;
     json := JsonFail (mkError SyntaxError "Unexpected end of JSON input") |}.

Definition r404 : Response :=
  {| status := 404; retryAfter := None;
     json := JsonOk (BApiError "NOT_FOUND" "not found") |}.


(** Two failure responses whose body is the JSON value [null]. *)
Definition rNull404 : Response :=
  {| status := 404; retryAfter := None; json := JsonOk BNull |}.

Definition rNull429 : Response :=
  {| status := 429; retryAfter := Some "10"; json := JsonOk BNull |}.

Definition rProject : Response :=
  {| status := 200; retryAfter := None; json := JsonOk (BProject "proj_1") |}.

Definition rEmpty : Response :=
  {| status := 200; retryAfter := None; json := JsonOk (BOther "{}") |}.

Definition someRequest : HttpRequest :=
  buildRequest projectClient "/project" None.

Definition nullMessageEntry : TestHistoryEntry :=
  {| entry_testRunId := "run_1";
     entry_createdAt := "2024-01-01T00:00:00Z";
     entry_branch := Absent;
     entry_commitSha := Null;
     entry_test := {| test_name := "logs in";
                      test_status := passed;
                      test_durationMs := num 12;
                      test_filePath := Absent;
                      test_message := Null |} |}.

Definition nullMessageHistory : TestHistoryResponse :=
  {| resp_history := [nullMessageEntry];
     resp_summary := {| sum_totalRuns := num 1;
                        sum_passedRuns := num 1;
                        sum_failedRuns := num 0;
                        sum_passRate := Null;
                        sum_searchedBy := "testName";
                        sum_searchValue := "logs in" |} |}.

Definition rHistory : Response :=
  {| status := 200; retryAfter := None; json := JsonOk (BTestHistory nullMessageHistory) |}.

Definition bothPairs : CompareTestMetricsInput :=
  {| cmp_projectId := "proj_1"; cmp_testName := "x";
     cmp_beforeCommit := Some "a"; cmp_afterCommit := Some "b";
     cmp_beforeRunId := Some "r1"; cmp_afterRunId := Some "r2" |}.

Definition noPair : CompareTestMetricsInput :=
  {| cmp_projectId := "proj_1"; cmp_testName := "x";
     cmp_beforeCommit := None; cmp_afterCommit := None;
     cmp_beforeRunId := None; cmp_afterRunId := None |}.

Definition halfPair : CompareTestMetricsInput :=
  {| cmp_projectId := "proj_1"; cmp_testName := "x";
     cmp_beforeCommit := Some "a"; cmp_afterCommit := None;
     cmp_beforeRunId := None; cmp_afterRunId := Some "   " |}.

Definition commitPair : CompareTestMetricsInput :=
  {| cmp_projectId := "proj_1"; cmp_testName := "x";
     cmp_beforeCommit := Some "a"; cmp_afterCommit := Some "b";
     cmp_beforeRunId := None; cmp_afterRunId := None |}.

Definition historyQuery : GetTestHistoryInput :=
  {| hist_projectId := Some "proj_1"; hist_testName := Some "logs in";
     hist_filePath := None; hist_limit := None |}.

Definition zero : JsNum := num 0.

End Fixtures.

(* ===================================================================== *)
(** ** More concrete inputs *)
(* ===================================================================== *)

Module MoreFixtures.

Definition aborted : JsError := mkError AbortError "This operation was aborted".
Definition unreachable : JsError := mkError TypeError "fetch failed".
Definition broken : JsError := mkError PlainError "socket hang up".

Definition rejecting (e : JsError) : Net := fun _ _ => Rejected e.

Definition rBadJson : Response :=
  {| status := 200; retryAfter := None;
     json := JsonFail (mkError SyntaxError "Unexpected token < in JSON at position 0") |}.


(** The project body for [/project], an empty object for anything else. *)
Definition routed : Net :=
  fun _ req => if String.eqb (req_path req) IDENTITY_PATH
               then Resolved Fixtures.rProject
               else Resolved Fixtures.rEmpty.

Definition cachedSys : Sys :=
  {| this := {| apiKey := "gfr_xyz"; baseUrl := "https://app.gaffer.sh";
                tokenType := project; resolvedProjectId := Some "proj_1" |};
     log := [] |}.

Definition envKeyOnly : Env :=
  fun name => if String.eqb name "GAFFER_API_KEY" then Some "gaf_abc123" else None.

Definition envEmpty : Env := fun _ => None.

Definition someCoverage : CoverageFilesResponse :=
  {| cfr_hasCoverage := true;
     cfr_files := [];
     cfr_pagination := {| pg_limit := num 20; pg_offset := num 0;
                          pg_total := num 0; pg_hasMore := false |};
     cfr_overallCoverage := Null;
     cfr_message := Absent |}.

Definition nullShaRun : TestRunEntry :=
  {| run_id := "run_1"; run_uniqueId := "u1";
     run_description := Absent; run_branch := Present "main";
     run_commitSha := Null; run_framework := Absent; run_tags := Absent;
     run_summary := {| rsum_passed := num 3; rsum_failed := num 0;
                       rsum_skipped := num 0; rsum_total := num 3;
                       rsum_durationMs := Absent |};
     run_createdAt := "2024-01-01T00:00:00Z" |}.

Definition someRuns : TestRunsResponse :=
  {| runs_testRuns := [nullShaRun];
     runs_pagination := {| pg_limit := num 20; pg_offset := num 0;
                           pg_total := num 1; pg_hasMore := false |} |}.

Definition detailInput : GetUploadStatusInput :=
  {| up_projectId := "proj_1"; up_sessionId := Some "sess_1";
     up_commitSha := Some "abc"; up_branch := Some "main" |}.

Definition listInput : GetUploadStatusInput :=
  {| up_projectId := "proj_1"; up_sessionId := None;
     up_commitSha := Some "abc"; up_branch := None |}.

Definition whitespacePair : CompareTestMetricsInput :=
  {| cmp_projectId := "proj_1"; cmp_testName := "x";
     cmp_beforeCommit := Some "a"; cmp_afterCommit := Some "b";
     cmp_beforeRunId := Some "  "; cmp_afterRunId := Some "r2" |}.

(** A lone whitespace-only [beforeCommit] beside a complete run pair. *)
Definition loneCommit : CompareTestMetricsInput :=
  {| cmp_projectId := "proj_1"; cmp_testName := "x";
     cmp_beforeCommit := Some "  "; cmp_afterCommit := None;
     cmp_beforeRunId := Some "r1"; cmp_afterRunId := Some "r2" |}.

Definition zeroUntested : GetUntestedFilesInput :=
  {| unt_projectId := Some "proj_1";
     unt_maxCoverage := Some (num 0); unt_limit := Some (num 0) |}.

Definition zeroLimitRuns : ListTestRunsInput :=
  {| ltr_projectId := Some "proj_1"; ltr_commitSha := None;
     ltr_branch := Some "main"; ltr_status := None;
     ltr_limit := Some (num 0) |}.

(** A client configured with a bare host name, as [fromEnv] accepts it. *)
Definition bareHostSys : Sys :=
  {| this := newClient {| cfg_apiKey := "gfr_xyz"; cfg_baseUrl := "app.gaffer.sh" |};
     log := [] |}.

End MoreFixtures.

(* ===================================================================== *)
(** ** Credential classification *)
(* ===================================================================== *)

Lemma prefix_gaf (s : string) :
  String.prefix "gaf_" s = true <-> exists rest, s = "gaf_" ++ rest.
Proof.
  split.
  - intros H. apply String.prefix_correct in H. simpl in H.
    exists (substring 4 (String.length s - 4) s).
    destruct s as [|c1 [|c2 [|c3 [|c4 r]]]]; try discriminate H.
    simpl in H. injection H as -> -> -> -> _. simpl.
    do 4 f_equal. rewrite Nat.sub_0_r.
    clear. induction r as [|c r IH]; simpl; [reflexivity | now rewrite <- IH].
  - intros [rest ->]. simpl. now destruct rest.
Qed.

(** C6.  [detectTokenType s] is [user] exactly when [s] starts with the
    literal prefix [gaf_], and [project] otherwise; so [gaf_abc123] is a user
    key while [gfr_xyz] and the empty string are project tokens.  The function
    is a pure function of the string: it is not a computation in [Eff], so it
    neither reads the network nor touches the state. *)
Theorem detectTokenType_prefix :
  (forall s, detectTokenType s = user <-> exists rest, s = "gaf_" ++ rest)
  /\ (forall s, detectTokenType s = project <-> ~ exists rest, s = "gaf_" ++ rest)
  /\ detectTokenType "gaf_abc123" = user
  /\ detectTokenType "gfr_xyz" = project
  /\ detectTokenType EmptyString = project.
Proof.
  repeat split; try reflexivity.
  - intros H. apply prefix_gaf. unfold detectTokenType in H.
    destruct (String.prefix "gaf_" s); [reflexivity | discriminate].
  - intros H. apply prefix_gaf in H. unfold detectTokenType. now rewrite H.
  - intros H C. apply prefix_gaf in C. unfold detectTokenType in H.
    rewrite C in H. discriminate.
  - intros H. unfold detectTokenType.
    destruct (String.prefix "gaf_" s) eqn:E; [|reflexivity].
    exfalso. apply H. now apply prefix_gaf.
Qed.

(* ===================================================================== *)
(** ** The retry loop *)
(* ===================================================================== *)

Lemma fetchCount_app (l1 l2 : list Event) :
  fetchCount (l1 ++ l2) = (fetchCount l1 + fetchCount l2)%nat.
Proof. unfold fetchCount. now rewrite filter_app, length_app. Qed.

Lemma fetchCount_fetch (l : list Event) (req : HttpRequest) :
  fetchCount (l ++ [EvFetch req]) = S (fetchCount l).
Proof. rewrite fetchCount_app. unfold fetchCount. simpl. lia. Qed.

Lemma fetchCount_sleep (l : list Event) (ms : JsNum) :
  fetchCount (l ++ [EvSleep ms]) = fetchCount l.
Proof. rewrite fetchCount_app. unfold fetchCount. simpl. lia. Qed.

Lemma fetchCount_attempt (l : list Event) (req : HttpRequest) (ms : JsNum) :
  fetchCount (l ++ [EvFetch req; EvSleep ms]) = S (fetchCount l).
Proof. rewrite fetchCount_app. unfold fetchCount. simpl. lia. Qed.







Lemma retryable_not_ok (r : Response) : retryable r = true -> ok r = false.
Proof.
  unfold retryable, includes, ok. simpl. intros H.
  repeat (apply orb_prop in H; destruct H as [H|H]); try discriminate H;
    apply Z.eqb_eq in H; rewrite H; reflexivity.
Qed.

(** The body of a failure response: [null], or one with a message. *)
Lemma errorMessage_null (r : Response) :
  nullBody r = true -> errorMessage r = inl nullErrorData.
Proof.
  unfold nullBody, errorMessage, errorDataMessage.
  destruct (json r) as [[c m|id|h|raw|]|e]; try discriminate. reflexivity.
Qed.

Lemma errorMessage_message (r : Response) :
  nullBody r = false -> errorMessage r = inr (errorMessageOf r).
Proof.
  unfold nullBody, errorMessageOf, errorMessage, errorDataMessage.
  destruct (json r) as [[c m|id|h|raw|]|e]; try discriminate; reflexivity.
Qed.

Lemma failureOf_message (r : Response) :
  nullBody r = false -> failureOf r = newError (errorMessageOf r).
Proof. unfold failureOf. now intros ->. Qed.

Lemma failureOf_null (r : Response) :
  nullBody r = true -> failureOf r = nullErrorData.
Proof. unfold failureOf. now intros ->. Qed.



(** The loop, unfolded by one iteration. *)
Lemma requestLoop_S (fuel attempt : nat) (lastError : option JsError)
    (req : HttpRequest) :
  requestLoop (S fuel) attempt lastError req
  = if (attempt <=? MAX_RETRIES)%nat then
      outcome <- fetch req ;;
      match outcome with
      | Resolved response =>
          if negb (ok response) then
            if includes RETRYABLE_STATUS_CODES (status response)
               && (attempt <? MAX_RETRIES)%nat
            then
              match errorMessage response with
              | inr message =>
                  sleep (retryDelay attempt response) ;;;
                  requestLoop fuel (S attempt) (Some (newError message)) req
              | inl error =>
                  onCatch error attempt
                          (fun le => requestLoop fuel (S attempt) le req)
              end
            else
              match errorMessage response with
              | inr message =>
                  onCatch (newError message) attempt
                          (fun le => requestLoop fuel (S attempt) le req)
              | inl error =>
                  onCatch error attempt
                          (fun le => requestLoop fuel (S attempt) le req)
              end
          else
            match json response with
            | JsonOk b => ret b
            | JsonFail e => throw e
            end
      | Rejected error =>
          onCatch error attempt (fun le => requestLoop fuel (S attempt) le req)
      end
    else
      throw (match lastError with
             | Some e => e
             | None => newError "Request failed after retries"
             end).
Proof. reflexivity. Qed.

Lemma leb_max_true (attempt : nat) :
  (attempt <= MAX_RETRIES)%nat -> (attempt <=? MAX_RETRIES)%nat = true.
Proof. intros H. now apply Nat.leb_le. Qed.

Lemma ltb_max_true (attempt : nat) :
  (attempt < MAX_RETRIES)%nat -> (attempt <? MAX_RETRIES)%nat = true.
Proof. intros H. now apply Nat.ltb_lt. Qed.

(** One iteration that ends in a retry: a retryable response with a body
    that is not [null], while attempts remain. *)
Lemma requestLoop_retry (fuel attempt : nat) (lastError : option JsError)
    (req : HttpRequest) (net : Net) (s : Sys) (r : Response) :
  net (fetchCount (log s)) req = Resolved r ->
  retryable r = true ->
  nullBody r = false ->
  (attempt < MAX_RETRIES)%nat ->
  requestLoop (S fuel) attempt lastError req net s
  = requestLoop fuel (S attempt) (Some (newError (errorMessageOf r))) req net
      {| this := this s;
         log := log s ++ [EvFetch req; EvSleep (retryDelay attempt r)] |}.
Proof.
  intros Hnet Hr Hnull Hlt. rewrite requestLoop_S.
  rewrite leb_max_true by lia.
  unfold bind at 1. unfold fetch at 1. rewrite Hnet.
  rewrite (retryable_not_ok r Hr). cbn [negb].
  unfold retryable in Hr. rewrite Hr, ltb_max_true by assumption. cbn [andb].
  rewrite (errorMessage_message r Hnull).
  unfold bind, sleep. cbn [this log]. rewrite <- app_assoc. reflexivity.
Qed.

(** One iteration on a failure response whose body is [null], while attempts
    remain: whatever the status and the headers, the [TypeError] is caught
    and the loop goes on after the plain backoff. *)
Lemma requestLoop_null (fuel attempt : nat) (lastError : option JsError)
    (req : HttpRequest) (net : Net) (s : Sys) (r : Response) :
  net (fetchCount (log s)) req = Resolved r ->
  ok r = false ->
  nullBody r = true ->
  (attempt < MAX_RETRIES)%nat ->
  requestLoop (S fuel) attempt lastError req net s
  = requestLoop fuel (S attempt) (Some nullErrorData) req net
      {| this := this s;
         log := log s ++ [EvFetch req; EvSleep (backoffDelay attempt)] |}.
Proof.
  intros Hnet Hok Hnull Hlt. rewrite requestLoop_S.
  rewrite leb_max_true by lia.
  unfold bind at 1. unfold fetch at 1. rewrite Hnet, Hok. cbn [negb].
  rewrite (errorMessage_null r Hnull).
  assert (Hc : onCatch nullErrorData attempt
                 (fun le => requestLoop fuel (S attempt) le req)
               = (sleep (backoffDelay attempt) ;;;
                  requestLoop fuel (S attempt) (Some nullErrorData) req)).
  { unfold onCatch. cbn [err_name nullErrorData].
    now rewrite ltb_max_true by assumption. }
  destruct (includes RETRYABLE_STATUS_CODES (status r) && (attempt <? MAX_RETRIES)%nat);
    rewrite Hc; unfold bind, sleep; cbn [this log]; rewrite <- app_assoc;
    reflexivity.
Qed.

(** One iteration that ends the call: a failure response that is not retried,
    because its status is not retryable or because no attempt remains. *)
Lemma requestLoop_fail (fuel attempt : nat) (lastError : option JsError)
    (req : HttpRequest) (net : Net) (s : Sys) (r : Response) :
  net (fetchCount (log s)) req = Resolved r ->
  ok r = false ->
  (attempt <= MAX_RETRIES)%nat ->
  (retryable r = false /\ nullBody r = false) \/ attempt = MAX_RETRIES ->
  requestLoop (S fuel) attempt lastError req net s
  = (Threw (failureOf r),
     {| this := this s; log := log s ++ [EvFetch req] |}).
Proof.
  intros Hnet Hok Hle Hstop. rewrite requestLoop_S.
  rewrite leb_max_true by assumption.
  unfold bind at 1. unfold fetch at 1. rewrite Hnet, Hok. cbn [negb].
  replace (includes RETRYABLE_STATUS_CODES (status r) && (attempt <? MAX_RETRIES)%nat)
    with false.
  - unfold failureOf. destruct (nullBody r) eqn:Hnull.
    + rewrite (errorMessage_null r Hnull).
      destruct Hstop as [[_ H] | ->]; [discriminate H|].
      unfold onCatch. cbn [err_name nullErrorData].
      now rewrite Nat.ltb_irrefl.
    + rewrite (errorMessage_message r Hnull). reflexivity.
  - symmetry. destruct Hstop as [[H _] | ->].
    + unfold retryable in H. now rewrite H.
    + rewrite Nat.ltb_irrefl. apply andb_false_r.
Qed.

(** The fuel of [request] is never what ends the loop: once the fuel covers
    the remaining iterations, more fuel changes nothing. *)
Lemma requestLoop_fuel (fuel attempt : nat) (lastError : option JsError)
    (req : HttpRequest) (net : Net) (s : Sys) :
  (MAX_RETRIES < attempt + fuel)%nat ->
  requestLoop (S fuel) attempt lastError req net s
  = requestLoop fuel attempt lastError req net s.
Proof.
  revert attempt lastError s.
  induction fuel as [|fuel IH]; intros attempt lastError s Hlt.
  - rewrite requestLoop_S. simpl requestLoop.
    replace (attempt <=? MAX_RETRIES)%nat with false
      by (symmetry; apply Nat.leb_gt; lia). reflexivity.
  - assert (Hnext : forall le s', requestLoop (S fuel) (S attempt) le req net s'
                                  = requestLoop fuel (S attempt) le req net s')
      by (intros; apply IH; lia).
    assert (Hcatch : forall e s',
               onCatch e attempt (fun le => requestLoop (S fuel) (S attempt) le req) net s'
               = onCatch e attempt (fun le => requestLoop fuel (S attempt) le req) net s').
    { intros e s'. unfold onCatch.
      destruct (err_name e); try reflexivity;
        destruct (attempt <? MAX_RETRIES)%nat; try reflexivity;
        unfold bind; destruct (sleep _ net s') as [[[]|e'] s2]; try reflexivity;
        apply Hnext. }
    rewrite (requestLoop_S (S fuel)), (requestLoop_S fuel).
    destruct (attempt <=? MAX_RETRIES)%nat; [|reflexivity].
    unfold bind at 1 3. destruct (fetch req net s) as [[o|e] s1]; [|reflexivity].
    destruct o as [r|e]; [|apply Hcatch].
    destruct (negb (ok r)); [|reflexivity].
    destruct (includes RETRYABLE_STATUS_CODES (status r) && (attempt <? MAX_RETRIES)%nat);
      destruct (errorMessage r) as [e|m]; try apply Hcatch.
    unfold bind. destruct (sleep _ net s1) as [[[]|e] s2]; [|reflexivity].
    apply Hnext.
Qed.

(** [new URL] and the loop. *)
Lemma plainOrigin_canParse (base : string) :
  plainOrigin base = true -> canParseBase base = true.
Proof. unfold plainOrigin. intros H. now apply andb_true_iff in H. Qed.

Lemma request_valid (endpoint : string) (params : option Params)
    (net : Net) (s : Sys) :
  canParseBase (baseUrl (this s)) = true ->
  request endpoint params net s
  = requestLoop (S (S MAX_RETRIES)) 0 None
      (buildRequest (this s) endpoint params) net s.
Proof. intros H. unfold request, bind, getThis. now rewrite H. Qed.

Lemma request_plainOrigin (endpoint : string) (params : option Params)
    (net : Net) (s : Sys) :
  plainOrigin (baseUrl (this s)) = true ->
  request endpoint params net s
  = requestLoop 5 0 None (buildRequest (this s) endpoint params) net s.
Proof. intros H. now rewrite request_valid by now apply plainOrigin_canParse. Qed.

Lemma request_invalid (endpoint : string) (params : option Params)
    (net : Net) (s : Sys) :
  canParseBase (baseUrl (this s)) = false ->
  request endpoint params net s = (Threw invalidUrl, s).
Proof. intros H. unfold request, bind, getThis. now rewrite H. Qed.

(** The message thrown for a failure response is the [error.message] of its
    body when that is a non-empty string, and names the status otherwise. *)
Lemma errorMessageOf_envelope (r : Response) (code m : string) :
  json r = JsonOk (BApiError code m) -> m <> EmptyString -> errorMessageOf r = m.
Proof.
  intros Hj Hm. unfold errorMessageOf, errorMessage, errorDataMessage. rewrite Hj.
  destruct m; [contradiction | reflexivity].
Qed.

Lemma errorMessageOf_generic (r : Response) :
  (forall code m, json r = JsonOk (BApiError code m) -> m = EmptyString) ->
  errorMessageOf r = "API request failed: " ++ string_of_Z (status r).
Proof.
  intros H. unfold errorMessageOf, errorMessage, errorDataMessage.
  destruct (json r) as [[c m|id|h|raw|]|e]; try reflexivity.
  now rewrite (H c m eq_refl).
Qed.

(** X23.  When the first response has a failure status outside the
    retryable set and a body that is not the JSON value [null], [request]
    performs that one fetch and nothing else (no sleep, no second attempt)
    and throws at once.  The message is the one of the body's error envelope
    when it carries a non-empty one (so [not found] for a 404 with
    [{error:{message:"not found"}}]); without one it is the status message
    [API request failed: <status>], which is not the fallback [Request
    failed after retries] of the loop exit. *)
Theorem request_non_retryable (net : Net) (s : Sys) (endpoint : string)
    (params : option Params) (r : Response) :
  plainOrigin (baseUrl (this s)) = true ->
  net (fetchCount (log s)) (buildRequest (this s) endpoint params) = Resolved r ->
  ok r = false ->
  includes RETRYABLE_STATUS_CODES (status r) = false ->
  nullBody r = false ->
  request endpoint params net s
  = (Threw (newError (errorMessageOf r)),
     {| this := this s;
        log := log s ++ [EvFetch (buildRequest (this s) endpoint params)] |})
  /\ (forall code m, json r = JsonOk (BApiError code m) -> m <> EmptyString ->
        errorMessageOf r = m)
  /\ ((forall code m, json r = JsonOk (BApiError code m) -> m = EmptyString) ->
        errorMessageOf r = "API request failed: " ++ string_of_Z (status r)
        /\ errorMessageOf r <> "Request failed after retries").
Proof.
  intros Hbase Hnet Hok Hret Hnull. split; [|split].
  - rewrite (request_plainOrigin _ _ _ _ Hbase).
    rewrite <- (failureOf_message r Hnull).
    apply requestLoop_fail; auto.
    unfold MAX_RETRIES; lia.
  - intros code m. apply errorMessageOf_envelope.
  - intros H. rewrite (errorMessageOf_generic r H). split; [reflexivity|].
    simpl. discriminate.
Qed.

(** The 404 of the specification: one attempt, message [not found]. *)
Lemma request_non_retryable_witness :
  request "/project" None (always Fixtures.r404) Fixtures.projectSys
  = (Threw (newError "not found"),
     {| this := Fixtures.projectClient; log := [EvFetch Fixtures.someRequest] |}).
Proof.
  destruct (request_non_retryable (always Fixtures.r404) Fixtures.projectSys
              "/project" None Fixtures.r404) as [H _];
    [reflexivity | reflexivity | reflexivity | reflexivity | reflexivity |].
  exact H.
Defined.

(** C2.  The claim fails on the code for a failure response whose body is
    the JSON value [null]: reading [errorData.error] throws a [TypeError]
    inside the [try] block, and the [catch] block retries a [TypeError] as a
    connection failure.  A stub that always answers 404 with the body [null]
    gets four fetches with waits of 1000, 2000 and 4000 ms, and the call
    ends with that [TypeError], not with [API request failed: 404] after one
    attempt. *)
Theorem not_found_with_null_body_is_retried :
  ok Fixtures.rNull404 = false
  /\ includes RETRYABLE_STATUS_CODES (status Fixtures.rNull404) = false
  /\ request "/project" None (always Fixtures.rNull404) Fixtures.projectSys
     = (Threw (mkError TypeError "Cannot read properties of null (reading 'error')"),
        {| this := Fixtures.projectClient;
           log := [EvFetch Fixtures.someRequest; EvSleep (num 1000);
                   EvFetch Fixtures.someRequest; EvSleep (num 2000);
                   EvFetch Fixtures.someRequest; EvSleep (num 4000);
                   EvFetch Fixtures.someRequest] |}).
Proof. split; [reflexivity|]. split; [reflexivity|]. vm_compute. reflexivity. Qed.







(** C3.  The claim fails on the code for a 429 response whose body is the
    JSON value [null]: the delay computed from [Retry-After: 10] is 10000
    ms, but reading [errorData.error] throws before the [sleep] of the retry
    branch, and the [catch] block waits the plain backoff instead.  A stub
    that always answers 429 with [Retry-After: 10] and the body [null] gets
    waits of 1000, 2000 and 4000 ms. *)
Theorem retry_after_ignored_with_null_body :
  status Fixtures.rNull429 = 429
  /\ retryAfter Fixtures.rNull429 = Some "10"
  /\ retryDelay 0 Fixtures.rNull429 = num 10000
  /\ sleeps (log (snd (request "/project" None (always Fixtures.rNull429)
                         Fixtures.projectSys)))
     = [num 1000; num 2000; num 4000]
  /\ fst (request "/project" None (always Fixtures.rNull429) Fixtures.projectSys)
     = Threw (mkError TypeError "Cannot read properties of null (reading 'error')").
Proof. repeat split; vm_compute; reflexivity. Qed.

(* ===================================================================== *)
(** ** What a request does to the state *)
(* ===================================================================== *)


Lemma fromRequest_nil (req : HttpRequest) : fromRequest req [].
Proof. intros e []. Qed.

Lemma fromRequest_app (req : HttpRequest) (l1 l2 : list Event) :
  fromRequest req l1 -> fromRequest req l2 -> fromRequest req (l1 ++ l2)%list.
Proof.
  intros H1 H2 e Hin. apply in_app_or in Hin. destruct Hin; auto.
Qed.

Lemma fromRequest_fetch (req : HttpRequest) : fromRequest req [EvFetch req].
Proof. intros e [<-|[]]. now left. Qed.

Lemma fromRequest_sleep (req : HttpRequest) (ms : JsNum) :
  fromRequest req [EvSleep ms].
Proof. intros e [<-|[]]. right. now exists ms. Qed.

Create HintDb gaffer.

#[local] Hint Resolve fromRequest_nil fromRequest_app fromRequest_fetch
  fromRequest_sleep : gaffer.


Lemma extends_throw {A} req (e : JsError) net s : extends req (throw (A := A) e) net s.
Proof. split; [reflexivity|]. exists []. rewrite app_nil_r. auto with gaffer. Qed.

Lemma extends_ret {A} req (a : A) net s : extends req (ret a) net s.
Proof. split; [reflexivity|]. exists []. rewrite app_nil_r. auto with gaffer. Qed.

Lemma extends_sleep_then {A} req (ms : JsNum) (k : Eff A) net s :
  (forall s1, extends req k net s1) ->
  extends req (sleep ms ;;; k) net s.
Proof.
  intros Hk. unfold bind, sleep.
  destruct (Hk {| this := this s; log := log s ++ [EvSleep ms] |})
    as [Ht (l & Hl & Hf)].
  split; [exact Ht|].
  exists ([EvSleep ms] ++ l)%list. cbn [log] in Hl. rewrite Hl, app_assoc.
  split; [reflexivity | auto with gaffer].
Qed.

Lemma extends_onCatch {A} req (error : JsError) (attempt : nat)
    (continue : option JsError -> Eff A) net s :
  (forall le s1, extends req (continue le) net s1) ->
  extends req (onCatch error attempt continue) net s.
Proof.
  intros Hk. unfold onCatch.
  destruct (err_name error); try apply extends_throw;
    destruct (attempt <? MAX_RETRIES)%nat; try apply extends_throw;
    apply extends_sleep_then; intros; apply Hk.
Qed.

Lemma extends_fetch_then {A} req (k : FetchOutcome -> Eff A) net s :
  (forall o s1, extends req (k o) net s1) ->
  extends req (outcome <- fetch req ;; k outcome) net s.
Proof.
  intros Hk. unfold extends, bind, fetch.
  destruct (Hk (net (fetchCount (log s)) req)
               {| this := this s; log := log s ++ [EvFetch req] |})
    as [Ht (l & Hl & Hf)].
  split; [exact Ht|].
  exists ([EvFetch req] ++ l)%list. cbn [log] in Hl. rewrite Hl, app_assoc.
  split; [reflexivity | auto with gaffer].
Qed.

Lemma requestLoop_extends (fuel attempt : nat) (lastError : option JsError)
    (req : HttpRequest) (net : Net) (s : Sys) :
  extends req (requestLoop fuel attempt lastError req) net s.
Proof.
  revert attempt lastError s.
  induction fuel as [|fuel IH]; intros attempt lastError s.
  - apply extends_throw.
  - rewrite requestLoop_S.
    destruct (attempt <=? MAX_RETRIES)%nat; [|apply extends_throw].
    apply extends_fetch_then. intros [r|e] s1.
    + destruct (negb (ok r)).
      * destruct (includes RETRYABLE_STATUS_CODES (status r) && (attempt <? MAX_RETRIES)%nat);
          destruct (errorMessage r) as [e|m];
          first [ apply extends_onCatch; intros; apply IH
                | apply extends_sleep_then; intros; apply IH ].
      * destruct (json r); [apply extends_ret | apply extends_throw].
    + apply extends_onCatch. intros; apply IH.
Qed.

Lemma request_extends (endpoint : string) (params : option Params)
    (net : Net) (s : Sys) :
  extends (buildRequest (this s) endpoint params) (request endpoint params) net s.
Proof.
  destruct (canParseBase (baseUrl (this s))) eqn:Hbase.
  - unfold extends. rewrite request_valid by exact Hbase.
    apply requestLoop_extends.
  - unfold extends. rewrite request_invalid by exact Hbase.
    apply (extends_throw _ invalidUrl net s).
Qed.

(** What [request] returns is the decoded body of a response of the
    network. *)
Lemma requestLoop_returns (fuel attempt : nat) (lastError : option JsError)
    (req : HttpRequest) (net : Net) (s : Sys) (b : Body) :
  fst (requestLoop fuel attempt lastError req net s) = Returned b ->
  exists n r, net n req = Resolved r /\ ok r = true /\ json r = JsonOk b.
Proof.
  revert attempt lastError s.
  induction fuel as [|fuel IH]; intros attempt lastError s.
  - discriminate.
  - rewrite requestLoop_S.
    assert (Hcatch : forall e s',
               fst (onCatch e attempt (fun le => requestLoop fuel (S attempt) le req)
                      net s') = Returned b ->
               exists n r, net n req = Resolved r /\ ok r = true /\ json r = JsonOk b).
    { intros e s'. unfold onCatch.
      destruct (err_name e); try discriminate;
        destruct (attempt <? MAX_RETRIES)%nat; try discriminate;
        unfold bind, sleep; apply IH. }
    destruct (attempt <=? MAX_RETRIES)%nat; [|discriminate].
    unfold bind at 1, fetch at 1.
    destruct (net (fetchCount (log s)) req) as [r|e] eqn:Hnet; [|apply Hcatch].
    destruct (ok r) eqn:Hok; cbn [negb].
    + destruct (json r) as [b'|e] eqn:Hj; [|discriminate].
      intros H. injection H as <-. now exists (fetchCount (log s)), r.
    + destruct (includes RETRYABLE_STATUS_CODES (status r) && (attempt <? MAX_RETRIES)%nat);
        destruct (errorMessage r) as [e|m]; try apply Hcatch.
      unfold bind, sleep. apply IH.
Qed.

Lemma request_returns (endpoint : string) (params : option Params)
    (net : Net) (s : Sys) (b : Body) :
  fst (request endpoint params net s) = Returned b ->
  exists n req r, net n req = Resolved r /\ ok r = true /\ json r = JsonOk b.
Proof.
  destruct (canParseBase (baseUrl (this s))) eqn:Hbase.
  - rewrite request_valid by exact Hbase. intros H.
    destruct (requestLoop_returns _ _ _ _ _ _ _ H) as (n & r & Hr).
    now exists n, (buildRequest (this s) endpoint params), r.
  - rewrite request_invalid by exact Hbase. discriminate.
Qed.

Lemma request_this (endpoint : string) (params : option Params)
    (net : Net) (s s' : Sys) (o : Outcome Body) :
  request endpoint params net s = (o, s') -> this s' = this s.
Proof.
  intros H. destruct (request_extends endpoint params net s) as [Ht _].
  now rewrite H in Ht.
Qed.

(* ===================================================================== *)
(** ** The project-id cache *)
(* ===================================================================== *)

Lemma truthyStr_nonempty (x : string) : x <> EmptyString -> truthyStr x = true.
Proof. destruct x; [contradiction | reflexivity]. Qed.

Lemma whenTruthy_truthy (o : option string) :
  match whenTruthy o with Some _ => true | None => false end = truthyOptStr o.
Proof. destruct o as [x|]; [destruct x|]; reflexivity. Qed.

Lemma whenTruthy_Some (o : option string) (x : string) :
  whenTruthy o = Some x -> o = Some x /\ truthyStr x = true.
Proof.
  destruct o as [y|]; [|discriminate]. cbn [whenTruthy].
  destruct (truthyStr y) eqn:E; [|discriminate]. intros H. injection H as <-.
  now split.
Qed.

Lemma whenTruthy_None (o : option string) :
  truthyOptStr o = false -> whenTruthy o = None.
Proof. destruct o as [x|]; [destruct x|]; [reflexivity | discriminate | reflexivity]. Qed.

(** C4, as amended.  With a project token, when a call of [resolveProjectId]
    without an explicit id returns a non-empty identifier [id]:
    - the cache field holds [id] afterwards;
    - any later call without an explicit id, whatever the network would
      answer, returns the same [id] and leaves the state, and so the log of
      network calls, unchanged;
    - the first call either found the cache filled and did nothing, or ran
      exactly one [request] to [/project], which returned [{project:{id}}],
      and then wrote the cache. *)
Theorem resolveProjectId_cached (net : Net) (s s' : Sys) (id : string) :
  isUserToken (this s) = false ->
  Unified.resolveProjectId None net s = (Returned id, s') ->
  id <> EmptyString ->
  resolvedProjectId (this s') = Some id
  /\ (forall net', Unified.resolveProjectId None net' s' = (Returned id, s'))
  /\ ((truthyOptStr (resolvedProjectId (this s)) = true /\ s' = s)
      \/ (truthyOptStr (resolvedProjectId (this s)) = false
          /\ exists s1,
               request "/project" None net s = (Returned (BProject id), s1)
               /\ log s' = log s1
               /\ this s' = {| apiKey := apiKey (this s);
                               baseUrl := baseUrl (this s);
                               tokenType := tokenType (this s);
                               resolvedProjectId := Some id |})).
Proof.
  intros Htok Hrun Hid.
  unfold Unified.resolveProjectId in Hrun. cbn [whenTruthy] in Hrun.
  unfold bind at 1, getThis in Hrun. rewrite Htok in Hrun.
  assert (Hhit : forall st, isUserToken (this st) = false ->
             resolvedProjectId (this st) = Some id ->
             forall net', Unified.resolveProjectId None net' st = (Returned id, st)).
  { intros st Ht Hc net'. unfold Unified.resolveProjectId. cbn [whenTruthy].
    unfold bind at 1, getThis. rewrite Ht, Hc. cbn [whenTruthy].
    rewrite (truthyStr_nonempty id Hid). reflexivity. }
  rewrite <- whenTruthy_truthy.
  destruct (whenTruthy (resolvedProjectId (this s))) as [cached|] eqn:Hc.
  - injection Hrun as -> ->.
    apply whenTruthy_Some in Hc. destruct Hc as [Hp _].
    split; [exact Hp|]. split; [now apply Hhit|]. left. now split.
  - unfold bind at 1 in Hrun.
    destruct (request "/project" None net s) as [[b|e] s1] eqn:Hreq;
      [|discriminate Hrun].
    pose proof (request_this _ _ _ _ _ _ Hreq) as Hthis.
    unfold bind at 1 in Hrun.
    destruct b as [c m|pid|h|raw|]; try discriminate Hrun.
    unfold Unified.projectIdOf, ret, bind, setResolvedProjectId in Hrun.
    injection Hrun as -> <-. cbn [this log]. rewrite Hthis.
    split; [reflexivity|]. split.
    + apply Hhit; [|reflexivity]. cbn [this]. unfold isUserToken in *.
      cbn [tokenType]. exact Htok.
    + right. split; [reflexivity|]. exists s1. repeat split.
Qed.

(** A project token, an empty cache and a network that answers
    [{project:{id:"proj_1"}}]: one fetch of [/project], then the cache
    serves the second call. *)
Lemma resolveProjectId_cached_witness :
  exists s1,
    Unified.resolveProjectId None (always Fixtures.rProject) Fixtures.projectSys
    = (Returned "proj_1", s1)
    /\ fetchCount (log s1) = 1%nat
    /\ Unified.resolveProjectId None (always Fixtures.r404) s1
       = (Returned "proj_1", s1).
Proof.
  eexists. split; [vm_compute; reflexivity|]. split; [reflexivity|].
  refine (proj1 (proj2 (resolveProjectId_cached (always Fixtures.rProject)
                          Fixtures.projectSys _ "proj_1" _ _ _)) _).
  - reflexivity.
  - vm_compute. reflexivity.
  - discriminate.
Defined.

(** C4 as stated fails when the first resolution fails.  With a project
    token and a network that answers 404, two calls in a row both throw, each
    after its own fetch of [/project]: two resolution calls, nothing cached,
    and the second call did go to the network. *)
Lemma resolveProjectId_refetches_after_failure :
  let first := Unified.resolveProjectId None (always Fixtures.r404)
                 Fixtures.projectSys in
  let second := Unified.resolveProjectId None (always Fixtures.r404) (snd first) in
  fst first = Threw (newError "not found")
  /\ fst second = Threw (newError "not found")
  /\ resolvedProjectId (this (snd second)) = None
  /\ log (snd first) = [EvFetch Fixtures.someRequest]
  /\ log (snd second) = [EvFetch Fixtures.someRequest; EvFetch Fixtures.someRequest]
  /\ req_path Fixtures.someRequest = IDENTITY_PATH
  /\ fetchCount (log (snd second)) = 2%nat.
Proof. vm_compute. repeat split. Qed.

(* ===================================================================== *)
(** ** The retry loop on any network *)
(* ===================================================================== *)

Lemma sleeps_app (l1 l2 : list Event) :
  sleeps (l1 ++ l2)%list = (sleeps l1 ++ sleeps l2)%list.
Proof.
  induction l1 as [|[req|ms] l1 IH]; cbn [sleeps app]; [reflexivity | exact IH |].
  now rewrite IH.
Qed.

(** One iteration that ends in a retry after a rejected fetch. *)
Lemma requestLoop_backoff (fuel attempt : nat) (lastError : option JsError)
    (req : HttpRequest) (net : Net) (s : Sys) (e : JsError) :
  net (fetchCount (log s)) req = Rejected e ->
  transient e = true ->
  (attempt < MAX_RETRIES)%nat ->
  requestLoop (S fuel) attempt lastError req net s
  = requestLoop fuel (S attempt) (Some (thrownFor e)) req net
      {| this := this s;
         log := log s ++ [EvFetch req; EvSleep (backoffDelay attempt)] |}.
Proof.
  intros Hnet Htr Hlt. rewrite requestLoop_S.
  rewrite leb_max_true by lia.
  unfold bind at 1. unfold fetch at 1. rewrite Hnet.
  unfold onCatch, transient, thrownFor in *.
  destruct (err_name e); try discriminate Htr;
    rewrite ltb_max_true by assumption;
    unfold bind, sleep; cbn [this log]; rewrite <- app_assoc; reflexivity.
Qed.

(** One iteration that ends the call after a rejected fetch: the rejection
    is not a transient one, or no attempt remains. *)
Lemma requestLoop_rejected (fuel attempt : nat) (lastError : option JsError)
    (req : HttpRequest) (net : Net) (s : Sys) (e : JsError) :
  net (fetchCount (log s)) req = Rejected e ->
  (attempt <= MAX_RETRIES)%nat ->
  transient e = false \/ attempt = MAX_RETRIES ->
  requestLoop (S fuel) attempt lastError req net s
  = (Threw (thrownFor e), {| this := this s; log := log s ++ [EvFetch req] |}).
Proof.
  intros Hnet Hle Hstop. rewrite requestLoop_S.
  rewrite leb_max_true by assumption.
  unfold bind at 1. unfold fetch at 1. rewrite Hnet.
  unfold onCatch, transient, thrownFor in *.
  destruct Hstop as [Htr | ->].
  - destruct (err_name e); try discriminate Htr; reflexivity.
  - rewrite Nat.ltb_irrefl. destruct (err_name e); reflexivity.
Qed.

(** One iteration that ends the call with a 2xx response. *)
Lemma requestLoop_ok (fuel attempt : nat) (lastError : option JsError)
    (req : HttpRequest) (net : Net) (s : Sys) (r : Response) :
  net (fetchCount (log s)) req = Resolved r ->
  ok r = true ->
  (attempt <= MAX_RETRIES)%nat ->
  requestLoop (S fuel) attempt lastError req net s
  = (match json r with
     | JsonOk b => Returned b
     | JsonFail e => Threw e
     end,
     {| this := this s; log := log s ++ [EvFetch req] |}).
Proof.
  intros Hnet Hok Hle. rewrite requestLoop_S.
  rewrite leb_max_true by assumption.
  unfold bind at 1. unfold fetch at 1. rewrite Hnet, Hok. cbn [negb].
  destruct (json r); reflexivity.
Qed.

(** What one iteration does, whatever the network answers: it ends the call
    after its fetch with the error or body of that outcome, or it sleeps and
    goes on with the next attempt, which exists. *)
Lemma requestLoop_step (fuel attempt : nat) (lastError : option JsError)
    (req : HttpRequest) (net : Net) (s : Sys) :
  (attempt <= MAX_RETRIES)%nat ->
  let s1 := {| this := this s; log := log s ++ [EvFetch req] |} in
  let o := net (fetchCount (log s)) req in
  (exists res, requestLoop (S fuel) attempt lastError req net s = (res, s1)
               /\ match res with
                  | Returned b => exists r, o = Resolved r /\ ok r = true
                                            /\ json r = JsonOk b
                  | Threw e => errorOfOutcome o e
                  end)
  \/ (exists ms le,
        (attempt < MAX_RETRIES)%nat
        /\ requestLoop (S fuel) attempt lastError req net s
           = requestLoop fuel (S attempt) le req net
               {| this := this s;
                  log := log s ++ [EvFetch req; EvSleep ms] |}).
Proof.
  intros Hle s1 o. subst s1 o.
  destruct (net (fetchCount (log s)) req) as [r|e] eqn:Hnet.
  - destruct (ok r) eqn:Hok.
    + left. rewrite (requestLoop_ok _ _ _ _ _ _ r Hnet Hok Hle).
      destruct (json r) as [b|e] eqn:Hj; eexists; (split; [reflexivity|]).
      * exists r. now repeat split.
      * cbn [errorOfOutcome]. now rewrite Hok.
    + destruct (nullBody r) eqn:Hnull.
      { destruct (Nat.eq_dec attempt MAX_RETRIES) as [->|Hne].
        - left. rewrite (requestLoop_fail _ _ _ _ _ _ r Hnet Hok Hle);
            [|now right].
          eexists. split; [reflexivity|]. cbn [errorOfOutcome]. now rewrite Hok.
        - right. exists (backoffDelay attempt), (Some nullErrorData).
          split; [lia|]. apply (requestLoop_null _ _ _ _ _ _ r); auto. lia. }
      destruct (retryable r) eqn:Hr.
      * destruct (Nat.eq_dec attempt MAX_RETRIES) as [->|Hne].
        -- left. rewrite (requestLoop_fail _ _ _ _ _ _ r Hnet Hok Hle);
             [|now right].
           eexists. split; [reflexivity|]. cbn [errorOfOutcome]. now rewrite Hok.
        -- right. exists (retryDelay attempt r), (Some (newError (errorMessageOf r))).
           split; [lia|]. apply requestLoop_retry; auto. lia.
      * left. rewrite (requestLoop_fail _ _ _ _ _ _ r Hnet Hok Hle);
          [|left; now split].
        eexists. split; [reflexivity|]. cbn [errorOfOutcome]. now rewrite Hok.
  - destruct (transient e) eqn:Htr.
    + destruct (Nat.eq_dec attempt MAX_RETRIES) as [->|Hne].
      * left. rewrite (requestLoop_rejected _ _ _ _ _ _ e Hnet Hle); [|now right].
        eexists. split; [reflexivity|].
        cbn [errorOfOutcome]. unfold thrownFor. now destruct (err_name e).
      * right. exists (backoffDelay attempt), (Some (thrownFor e)).
        split; [lia|]. apply requestLoop_backoff; auto. lia.
    + left. rewrite (requestLoop_rejected _ _ _ _ _ _ e Hnet Hle); [|now left].
      eexists. split; [reflexivity|].
      cbn [errorOfOutcome]. unfold thrownFor. now destruct (err_name e).
Qed.

Lemma fetchCount_last (l : list Event) (req : HttpRequest) :
  (fetchCount (l ++ [EvFetch req]) - 1)%nat = fetchCount l.
Proof. rewrite fetchCount_fetch. lia. Qed.

(** The loop from attempt [attempt] on, for any network. *)
Lemma requestLoop_run (req : HttpRequest) (net : Net) (fuel : nat) :
  forall attempt lastError s,
    (attempt <= MAX_RETRIES)%nat -> (MAX_RETRIES < attempt + fuel)%nat ->
    let x := requestLoop fuel attempt lastError req net s in
    exists l,
      log (snd x) = (log s ++ l)%list
      /\ (1 <= fetchCount l)%nat
      /\ (fetchCount l + attempt <= S MAX_RETRIES)%nat
      /\ (length (sleeps l) + 1 = fetchCount l)%nat
      /\ match fst x with
         | Returned b =>
             exists r, net (fetchCount (log (snd x)) - 1)%nat req = Resolved r
                       /\ ok r = true /\ json r = JsonOk b
         | Threw e => errorOfOutcome (net (fetchCount (log (snd x)) - 1)%nat req) e
         end.
Proof.
  induction fuel as [|fuel IH]; intros attempt lastError s Hle Hfuel x; [lia|].
  subst x.
  destruct (requestLoop_step fuel attempt lastError req net s Hle)
    as [(res & Hrun & Hres) | (ms & le & Hlt & Hrun)].
  - rewrite Hrun. cbn [fst snd log]. exists [EvFetch req].
    split; [reflexivity|]. unfold fetchCount at 1 2 3. cbn [filter isFetch length sleeps].
    repeat split; try lia.
    rewrite fetchCount_last. exact Hres.
  - rewrite Hrun.
    destruct (IH (S attempt) le
                {| this := this s; log := log s ++ [EvFetch req; EvSleep ms] |})
      as (l & Hlog & H1 & H2 & H3 & Hout); [lia | lia |].
    exists ([EvFetch req; EvSleep ms] ++ l)%list.
    cbn [log] in Hlog.
    split; [rewrite Hlog; now rewrite app_assoc|].
    rewrite fetchCount_app, sleeps_app, length_app.
    unfold fetchCount at 1 3 5. cbn [filter isFetch length sleeps].
    repeat split; try lia.
    exact Hout.
Qed.

(** What one call of [request] appends to the log. *)
Lemma request_trace (endpoint : string) (params : option (list (string * JsVal)))
    (net : Net) (s : Sys) :
  plainOrigin (baseUrl (this s)) = true ->
  exists l,
    log (snd (request endpoint params net s)) = (log s ++ l)%list
    /\ (1 <= fetchCount l <= 4)%nat
    /\ (length (sleeps l) + 1 = fetchCount l)%nat
    /\ fromRequest (buildRequest (this s) endpoint params) l.
Proof.
  intros Hbase.
  destruct (request_extends endpoint params net s) as [_ (l0 & Hl0 & Hf)].
  rewrite (request_plainOrigin _ _ _ _ Hbase) in *.
  destruct (requestLoop_run (buildRequest (this s) endpoint params) net
              5 0 None s) as (l & Hlog & H1 & H2 & H3 & _);
    [unfold MAX_RETRIES; lia | unfold MAX_RETRIES; lia |].
  exists l. split; [exact Hlog|].
  split; [unfold MAX_RETRIES in H2; lia|]. split; [exact H3|].
  rewrite Hlog in Hl0. apply app_inv_head in Hl0. now subst l0.
Qed.

Lemma fromRequest_fetch_eq (req req' : HttpRequest) (l : list Event) :
  fromRequest req l -> In (EvFetch req') l -> req' = req.
Proof.
  intros Hf Hin. destruct (Hf _ Hin) as [H | [ms H]]; [|discriminate H].
  now injection H.
Qed.

Lemma request_ok_body (net : Net) (s : Sys) (endpoint : string)
    (params : option (list (string * JsVal))) (r : Response) (b : Body) :
  plainOrigin (baseUrl (this s)) = true ->
  net (fetchCount (log s)) (buildRequest (this s) endpoint params) = Resolved r ->
  ok r = true -> json r = JsonOk b ->
  request endpoint params net s
  = (Returned b,
     {| this := this s;
        log := log s ++ [EvFetch (buildRequest (this s) endpoint params)] |}).
Proof.
  intros Hbase Hnet Hok Hj.
  rewrite (request_plainOrigin _ _ _ _ Hbase).
  rewrite (requestLoop_ok _ 0 None _ net s r Hnet Hok) by (unfold MAX_RETRIES; lia).
  now rewrite Hj.
Qed.

(** The same, for any base URL: the fetches of one call all carry the
    request that [buildRequest] builds, and with a plain origin there are
    between one and four of them. *)
Lemma request_shape (endpoint : string) (params : option (list (string * JsVal)))
    (net : Net) (s : Sys) :
  exists l,
    log (snd (request endpoint params net s)) = (log s ++ l)%list
    /\ fromRequest (buildRequest (this s) endpoint params) l
    /\ (plainOrigin (baseUrl (this s)) = true -> (1 <= fetchCount l <= 4)%nat).
Proof.
  destruct (request_extends endpoint params net s) as [_ (l & Hl & Hf)].
  exists l. split; [exact Hl|]. split; [exact Hf|]. intros Hbase.
  destruct (request_trace endpoint params net s Hbase) as (l' & Hl' & Hc & _).
  rewrite Hl in Hl'. apply app_inv_head in Hl'. now subst l'.
Qed.

(** A continuation that leaves the state alone does not change what is
    logged. *)
Lemma bind_keeps_state {A B} (m : Eff A) (k : A -> Eff B) (net : Net) (s : Sys) :
  (forall a s', snd (k a net s') = s') ->
  snd (bind m k net s) = snd (m net s).
Proof.
  intros Hk. unfold bind. destruct (m net s) as [[a|e] s1]; cbn [snd]; auto.
Qed.

(* ===================================================================== *)
(** ** URLs of plain paths *)
(* ===================================================================== *)

Lemma allChars_app (p : ascii -> bool) (a b : string) :
  allChars p (a ++ b) = allChars p a && allChars p b.
Proof.
  induction a as [|c a IH]; [reflexivity|].
  cbn [append allChars]. now rewrite IH, andb_assoc.
Qed.

Lemma allChars_impl (p q : ascii -> bool) (s : string) :
  (forall c, p c = true -> q c = true) ->
  allChars p s = true -> allChars q s = true.
Proof.
  intros Hpq. induction s as [|c s IH]; [reflexivity|].
  cbn [allChars]. intros H. apply andb_true_iff in H. destruct H as [Hc Hs].
  now rewrite (Hpq c Hc), IH.
Qed.

Lemma dropLeading_none (p : ascii -> bool) (s : string) :
  allChars (fun c => negb (p c)) s = true -> dropLeading p s = s.
Proof.
  destruct s as [|c s]; [reflexivity|]. cbn [allChars dropLeading].
  intros H. apply andb_true_iff in H. destruct H as [Hc _].
  now destruct (p c).
Qed.

Lemma dropTrailing_none (p : ascii -> bool) (s : string) :
  allChars (fun c => negb (p c)) s = true -> dropTrailing p s = s.
Proof.
  induction s as [|c s IH]; [reflexivity|]. cbn [allChars dropTrailing].
  intros H. apply andb_true_iff in H. destruct H as [Hc Hs].
  rewrite (IH Hs). destruct s; [|reflexivity]. now destruct (p c).
Qed.

Lemma removeAll_none (p : ascii -> bool) (s : string) :
  allChars (fun c => negb (p c)) s = true -> removeAll p s = s.
Proof.
  induction s as [|c s IH]; [reflexivity|]. cbn [allChars removeAll].
  intros H. apply andb_true_iff in H. destruct H as [Hc Hs].
  rewrite (IH Hs). now destruct (p c).
Qed.

Lemma cut_none (p : ascii -> bool) (s : string) :
  allChars (fun c => negb (p c)) s = true -> cut p s = (s, None).
Proof.
  induction s as [|c s IH]; [reflexivity|]. cbn [allChars cut].
  intros H. apply andb_true_iff in H. destruct H as [Hc Hs].
  rewrite (IH Hs). now destruct (p c).
Qed.

(** What a plain path character is not. *)
Lemma plainPathChar_spec (c : ascii) :
  isPlainChar c || isChar "/" c = true ->
  isC0OrSpace c = false /\ isTabOrNewline c = false
  /\ isChar "#" c = false /\ isChar "?" c = false /\ isChar "\" c = false
  /\ (isPathSeparator c = true -> c = "/"%char).
Proof.
  destruct c as [[] [] [] [] [] [] [] []]; cbv; intros H;
    try discriminate H; repeat split; try reflexivity; intros H'; discriminate H'.
Qed.

Lemma plainChar_spec (c : ascii) :
  isPlainChar c = true ->
  isPathSeparator c = false /\ encodePathChar c = String c EmptyString
  /\ Ascii.eqb (lowerAscii c) "." = false /\ Ascii.eqb (lowerAscii c) "%" = false.
Proof.
  destruct c as [[] [] [] [] [] [] [] []]; cbv; intros H;
    try discriminate H; repeat split; reflexivity.
Qed.

Lemma urlInput_plain (s : string) : plainPath s = true -> urlInput s = s.
Proof.
  intros H. unfold urlInput.
  rewrite dropLeading_none, dropTrailing_none, removeAll_none; try reflexivity;
    apply (allChars_impl _ _ s) with (2 := H); intros c Hc;
    destruct (plainPathChar_spec c Hc) as (H1 & H2 & _); now rewrite ?H1, ?H2.
Qed.

Lemma encodePath_plain (seg : string) : plainId seg = true -> encodePath seg = seg.
Proof.
  induction seg as [|c seg IH]; [reflexivity|].
  unfold plainId. cbn [allChars encodePath]. intros H.
  apply andb_true_iff in H. destruct H as [Hc Hs].
  destruct (plainChar_spec c Hc) as (_ & He & _). rewrite He, (IH Hs). reflexivity.
Qed.

Lemma plain_not_dot (seg : string) :
  plainId seg = true -> isSingleDot seg = false /\ isDoubleDot seg = false.
Proof.
  destruct seg as [|c seg]; [split; reflexivity|].
  unfold plainId. cbn [allChars]. intros H.
  apply andb_true_iff in H. destruct H as [Hc _].
  destruct (plainChar_spec c Hc) as (_ & _ & Hd & Hp).
  unfold isSingleDot, isDoubleDot. cbn [lowerString String.eqb].
  rewrite Hd, Hp. split; reflexivity.
Qed.

Lemma splitOn_nonempty (sep : ascii -> bool) (s : string) :
  exists seg segs, splitOn sep s = seg :: segs.
Proof.
  induction s as [|c s (seg & segs & IH)]; cbn [splitOn]; [now eexists; eexists|].
  destruct (sep c); [now eexists; eexists|]. rewrite IH. now eexists; eexists.
Qed.

Lemma splitOn_plain (s : string) :
  plainPath s = true ->
  Forall (fun seg => plainId seg = true) (splitOn isPathSeparator s).
Proof.
  induction s as [|c s IH]; [now repeat constructor|].
  unfold plainPath. cbn [allChars splitOn]. intros H.
  apply andb_true_iff in H. destruct H as [Hc Hs]. specialize (IH Hs).
  destruct (isPathSeparator c) eqn:Hsep; [now constructor|].
  destruct (splitOn_nonempty isPathSeparator s) as (seg & segs & E).
  rewrite E in *. cbn [consHead]. inversion IH as [|x l Hx Hl]; subst.
  constructor; [|exact Hl]. unfold plainId. cbn [allChars].
  apply andb_true_iff. split; [|exact Hx].
  apply orb_true_iff in Hc. destruct Hc as [Hc|Hc]; [exact Hc|].
  unfold isPathSeparator in Hsep. rewrite Hc in Hsep. discriminate Hsep.
Qed.

Lemma joinPath_splitOn (s : string) :
  plainPath s = true -> joinPath (splitOn isPathSeparator s) = String "/" s.
Proof.
  induction s as [|c s IH]; [reflexivity|].
  unfold plainPath. cbn [allChars splitOn]. intros H.
  apply andb_true_iff in H. destruct H as [Hc Hs]. specialize (IH Hs).
  destruct (plainPathChar_spec c Hc) as (_ & _ & _ & _ & _ & Hslash).
  destruct (isPathSeparator c) eqn:Hsep.
  - rewrite (Hslash eq_refl). cbn [joinPath append]. now rewrite IH.
  - destruct (splitOn_nonempty isPathSeparator s) as (seg & segs & E).
    rewrite E in *. cbn [consHead joinPath append] in *.
    injection IH as IH. now rewrite IH.
Qed.

Lemma resolveDots_plain (segs acc : list string) :
  Forall (fun seg => plainId seg = true) segs ->
  resolveDots segs acc = (rev acc ++ segs)%list.
Proof.
  revert acc. induction segs as [|seg segs IH]; intros acc H.
  - cbn [resolveDots]. now rewrite app_nil_r.
  - inversion H as [|x l Hx Hl]; subst. cbn [resolveDots].
    destruct (plain_not_dot seg Hx) as [H1 H2]. rewrite H1, H2.
    rewrite (encodePath_plain seg Hx), (IH _ Hl). cbn [rev].
    now rewrite <- app_assoc.
Qed.

(** A path of plain characters and slashes is its own URL path, with no
    query. *)
Lemma parseReference_plain (s : string) :
  plainPath s = true ->
  parseReference (String "/" s) = {| ref_path := String "/" s; ref_query := [] |}.
Proof.
  intros H.
  assert (H' : plainPath (String "/" s) = true) by exact H.
  unfold parseReference. rewrite (urlInput_plain _ H').
  rewrite (cut_none (isChar "#")), (cut_none (isChar "?"));
    try (apply (allChars_impl _ _ _) with (2 := H'); intros c Hc;
         destruct (plainPathChar_spec c Hc) as (_ & _ & H3 & H4 & _);
         now rewrite ?H3, ?H4).
  unfold pathSegments. cbn [splitOn isPathSeparator isChar Ascii.eqb Bool.eqb orb tl].
  rewrite (resolveDots_plain _ [] (splitOn_plain s H)). cbn [rev app].
  now rewrite (joinPath_splitOn s H).
Qed.

Lemma plainPath_app (a b : string) :
  plainPath a = true -> plainPath b = true -> plainPath (a ++ b) = true.
Proof. unfold plainPath. intros Ha Hb. now rewrite allChars_app, Ha, Hb. Qed.

Lemma plainId_path (s : string) : plainId s = true -> plainPath s = true.
Proof.
  apply allChars_impl. intros c H. now rewrite H.
Qed.

(** The path of a request to a plain endpoint is the endpoint after
    [/api/v1]. *)
Lemma buildRequest_path (c : GafferApiClient) (endpoint : string)
    (params : option Params) :
  plainPath endpoint = true ->
  req_path (buildRequest c endpoint params) = "/api/v1" ++ endpoint
  /\ req_query (buildRequest c endpoint params)
     = setAll (match params with
               | Some ps => filter (fun kv => isSet (snd kv)) ps
               | None => []
               end) [].
Proof.
  intros H. unfold buildRequest.
  change ("/api/v1" ++ endpoint) with (String "/" ("api/v1" ++ endpoint)).
  rewrite parseReference_plain; [split; reflexivity|].
  now apply plainPath_app.
Qed.

#[local] Hint Resolve plainPath_app plainId_path : gaffer.

(** The request for a plain endpoint, written out. *)
Lemma buildRequest_plain (c : GafferApiClient) (endpoint : string)
    (params : option (list (string * JsVal))) :
  plainPath endpoint = true ->
  buildRequest c endpoint params
  = {| req_base := baseUrl c;
       req_path := "/api/v1" ++ endpoint;
       req_query := setAll (match params with
                            | Some ps => filter (fun kv => isSet (snd kv)) ps
                            | None => []
                            end) [];
       req_key := apiKey c |}.
Proof.
  intros Hp. destruct (buildRequest_path c endpoint params Hp) as [Hpath Hq].
  unfold buildRequest in *. cbn [req_path req_query] in Hpath, Hq.
  now rewrite Hpath, Hq.
Qed.

(* ===================================================================== *)
(** ** The capability gates *)
(* ===================================================================== *)

Lemma safe_ret {A} key (a : A) (post : A -> Prop) : post a -> safe key (ret a) post.
Proof. intros Hp net s _ H. split; [exact H|]. intros a' E. now injection E as <-. Qed.

Lemma safe_throw {A} key (e : JsError) (post : A -> Prop) :
  safe key (throw (A := A) e) post.
Proof. intros net s _ H. split; [exact H|]. intros a E. discriminate E. Qed.

Lemma safe_weaken {A} key (m : Eff A) (Q R : A -> Prop) :
  safe key m Q -> (forall a, Q a -> R a) -> safe key m R.
Proof.
  intros Hm HQR net s Hn H. destruct (Hm net s Hn H) as [Hk Hp].
  split; [exact Hk|]. intros a E. apply HQR, Hp, E.
Qed.

Lemma safe_bind {A B} key (m : Eff A) (k : A -> Eff B) (Q : A -> Prop)
    (R : B -> Prop) :
  safe key m Q -> (forall a, Q a -> safe key (k a) R) -> safe key (bind m k) R.
Proof.
  intros Hm Hk net s Hn H. unfold bind. destruct (Hm net s Hn H) as [Hs Hp].
  destruct (m net s) as [[a|e] s1]; cbn [fst snd] in *.
  - apply (Hk a (Hp a eq_refl) net s1 Hn Hs).
  - split; [exact Hs|]. intros b E. discriminate E.
Qed.

Lemma safe_getThis {A} key (k : GafferApiClient -> Eff A) (R : A -> Prop) :
  (forall c, tokenType c = detectTokenType key ->
             plainOpt (resolvedProjectId c) = true -> safe key (k c) R) ->
  safe key (bind getThis k) R.
Proof.
  intros Hk net s Hn H. unfold bind, getThis.
  apply Hk; [apply H | apply H | exact Hn | exact H].
Qed.

Lemma safe_settle {A} key (m : Eff A) (Q : A -> Prop) :
  safe key m Q -> safe key (settle m) (fun _ => True).
Proof.
  intros Hm net s Hn H. unfold settle. cbn [snd]. split; [|trivial].
  now apply Hm.
Qed.

Lemma safe_requireStr key (v : option string) (msg : string) :
  plainOpt v = true -> safe key (requireStr v msg) (fun x => plainId x = true).
Proof.
  intros Hv. unfold requireStr. destruct (whenTruthy v) as [x|] eqn:E.
  - apply safe_ret. apply whenTruthy_Some in E. destruct E as [-> _]. exact Hv.
  - apply safe_throw.
Qed.

Lemma safe_requireStr_any key (v : option string) (msg : string) :
  safe key (requireStr v msg) (fun _ => True).
Proof.
  unfold requireStr. destruct (whenTruthy v);
    [now apply safe_ret | apply safe_throw].
Qed.

Lemma safe_setResolvedProjectId key (id : string) :
  plainId id = true -> safe key (setResolvedProjectId id) (fun _ => True).
Proof.
  intros Hid net s _ (Hkey & Htok & Hc & Hg). split; [|trivial].
  repeat split; assumption.
Qed.

Lemma safe_request key (endpoint : string) (params : option Params) :
  plainPath endpoint = true ->
  allowed key endpoint ->
  safe key (request endpoint params)
       (fun b => forall id, b = BProject id -> plainId id = true).
Proof.
  intros Hplain Hal net s Hn (Hkey & Htok & Hc & Hg).
  destruct (request_extends endpoint params net s) as [Ht (l & Hl & Hf)].
  split.
  - split; [now rewrite Ht|]. split; [now rewrite Ht|]. split; [now rewrite Ht|].
    rewrite Hl. intros req Hin. apply in_app_or in Hin. destruct Hin as [Hin|Hin].
    + now apply Hg.
    + destruct (Hf _ Hin) as [Heq|[ms Heq]]; [|discriminate Heq].
      injection Heq as ->.
      destruct (buildRequest_path (this s) endpoint params Hplain) as [-> _].
      cbn [buildRequest req_key]. rewrite Hkey. exact Hal.
  - intros b Hb id ->.
    destruct (request_returns _ _ _ _ _ Hb) as (n & req & r & Hr & _ & Hj).
    exact (Hn n req r id Hr Hj).
Qed.

Lemma safe_request_any key (endpoint : string) (params : option Params) :
  plainPath endpoint = true ->
  allowed key endpoint ->
  safe key (request endpoint params) (fun _ => True).
Proof.
  intros Hp Ha. apply (safe_weaken key _ _ _ (safe_request key _ _ Hp Ha)).
  trivial.
Qed.

(** Every route below [/user/projects/], [/user/test-runs/] or [/project/]
    is open to both kinds of key; the two gated routes are open to one kind
    each. *)
Lemma allowed_user_projects key (rest : string) :
  allowed key ("/user/projects/" ++ rest).
Proof. unfold allowed. destruct (detectTokenType key); simpl; discriminate. Qed.

Lemma allowed_user_test_runs key (rest : string) :
  allowed key ("/user/test-runs/" ++ rest).
Proof. unfold allowed. destruct (detectTokenType key); simpl; discriminate. Qed.

Lemma allowed_project_sub key (rest : string) :
  allowed key ("/project/" ++ rest).
Proof. unfold allowed. destruct (detectTokenType key); simpl; discriminate. Qed.

Lemma allowed_identity key :
  detectTokenType key = project -> allowed key "/project".
Proof. unfold allowed. intros ->. simpl. discriminate. Qed.

Lemma allowed_listing key :
  detectTokenType key = user -> allowed key "/user/projects".
Proof. unfold allowed. intros ->. simpl. discriminate. Qed.

Lemma safe_resolveProjectId key (p : option string) :
  plainOpt p = true ->
  safe key (Unified.resolveProjectId p) (fun id => plainId id = true).
Proof.
  intros Hp. unfold Unified.resolveProjectId.
  destruct (whenTruthy p) as [x|] eqn:E.
  { apply safe_ret. apply whenTruthy_Some in E. destruct E as [-> _]. exact Hp. }
  apply safe_getThis. intros c Htok Hcache. unfold isUserToken.
  destruct (tokenType c) eqn:Hc; [apply safe_throw|].
  destruct (whenTruthy (resolvedProjectId c)) as [x|] eqn:E'.
  { apply safe_ret. apply whenTruthy_Some in E'. destruct E' as [E' _].
    now rewrite E' in Hcache. }
  eapply safe_bind.
  - apply safe_request; [reflexivity|]. apply allowed_identity. congruence.
  - intros b Hb. cbv beta in Hb.
    destruct b as [c' m|id|h|raw|]; cbn [Unified.projectIdOf];
      try (apply (safe_bind key _ _ (fun _ => False));
           [apply safe_throw | intros ? []]).
    eapply safe_bind; [apply (safe_ret key id (fun x => x = id)); reflexivity|].
    intros a ->. eapply safe_bind.
    + apply safe_setResolvedProjectId. now apply Hb.
    + intros _ _. apply safe_ret. now apply Hb.
Qed.

Lemma safe_bind_resolve {B} key (p : option string) (k : string -> Eff B)
    (R : B -> Prop) :
  plainOpt p = true ->
  (forall pid, plainId pid = true -> safe key (k pid) R) ->
  safe key (bind (Unified.resolveProjectId p) k) R.
Proof. intros Hp Hk. eapply safe_bind; [now apply safe_resolveProjectId | exact Hk]. Qed.

Lemma safe_bind_requireStr {B} key (v : option string) (msg : string)
    (k : string -> Eff B) (R : B -> Prop) :
  plainOpt v = true ->
  (forall x, plainId x = true -> safe key (k x) R) ->
  safe key (bind (requireStr v msg) k) R.
Proof. intros Hv Hk. eapply safe_bind; [now apply safe_requireStr | exact Hk]. Qed.

Lemma safe_requireUserToken_then {A} key (msg : string) (k : Eff A)
    (R : A -> Prop) :
  (detectTokenType key = user -> safe key k R) ->
  safe key (Legacy.requireUserToken msg ;;; k) R.
Proof.
  intros Hk net s Hn H. unfold Legacy.requireUserToken, bind, getThis, isUserToken.
  pose proof H as (Hkey & Htok & Hc & Hg).
  destruct (tokenType (this s)) eqn:E; cbn [negb throw ret fst snd].
  - apply Hk; [congruence | exact Hn | exact H].
  - split; [exact H|]. intros a E'. discriminate E'.
Qed.

(** A path put together from literals and plain identifiers. *)
Ltac plain_path :=
  repeat first
    [ assumption
    | reflexivity
    | apply plainPath_app
    | apply plainId_path; assumption ].

(** Steps shared by the per-method proofs. *)
Ltac gate_step :=
  match goal with
  | |- safe _ (settle _) _ => apply (safe_settle _ _ (fun _ => True))
  | |- safe _ (ret _) _ => apply safe_ret; trivial
  | |- safe _ (throw _) _ => apply safe_throw
  | |- safe _ (bind (requireStr _ _) _) _ =>
      first [ apply safe_bind_requireStr; [assumption | intros ? ?]
            | eapply safe_bind; [apply safe_requireStr_any | intros ? _] ]
  | |- safe _ (bind (Unified.resolveProjectId _) _) _ =>
      apply safe_bind_resolve; [assumption | intros ? ?]
  | |- safe _ (Unified.resolveProjectId _) _ =>
      eapply safe_weaken; [apply safe_resolveProjectId; assumption | trivial]
  | |- safe _ (request ("/user/projects/" ++ _) _) _ =>
      apply safe_request_any; [plain_path | apply allowed_user_projects]
  | |- safe _ (request ("/user/test-runs/" ++ _) _) _ =>
      apply safe_request_any; [plain_path | apply allowed_user_test_runs]
  | |- safe _ (request "/project/analytics" _) _ =>
      apply safe_request_any; [reflexivity | apply (allowed_project_sub _ "analytics")]
  | |- safe _ (request "/project/test-history" _) _ =>
      apply safe_request_any; [reflexivity | apply (allowed_project_sub _ "test-history")]
  | |- safe _ (request "/project/flaky-tests" _) _ =>
      apply safe_request_any; [reflexivity | apply (allowed_project_sub _ "flaky-tests")]
  | |- safe _ (request "/project/test-runs" _) _ =>
      apply safe_request_any; [reflexivity | apply (allowed_project_sub _ "test-runs")]
  | H : detectTokenType ?key = user |- safe ?key (request "/user/projects" _) _ =>
      apply safe_request_any; [reflexivity | apply allowed_listing; exact H]
  | H : user = detectTokenType ?key |- safe ?key (request "/user/projects" _) _ =>
      apply safe_request_any; [reflexivity | apply allowed_listing; symmetry; exact H]
  | |- safe _ (bind (Legacy.requireUserToken _) _) _ =>
      let H := fresh "Huser" in
      apply safe_requireUserToken_then; intros H
  | |- safe _ (bind getThis _) _ =>
      let c := fresh "c" in let H := fresh "Htok" in let Hc := fresh "Hcache" in
      apply safe_getThis; intros c H Hc
  | |- safe _ (if negb (isUserToken ?c) then _ else _) _ =>
      let E := fresh "E" in
      unfold isUserToken; destruct (tokenType c) eqn:E; cbn [negb]
  | |- safe _ (if isUserToken ?c then _ else _) _ =>
      let E := fresh "E" in
      unfold isUserToken; destruct (tokenType c) eqn:E
  | |- safe _ (if _ then _ else _) _ =>
      match goal with |- safe _ (if ?b then _ else _) _ => destruct b end
  end.

Ltac plain_args :=
  match goal with
  | H : plainCall _ = true |- _ =>
      cbn [plainCall pathArgs forallb] in H;
      repeat match goal with
             | H' : _ && _ = true |- _ =>
                 apply andb_true_iff in H'; destruct H' as [? H']
             end
  end.

Lemma invokeUnified_safe key (c : Call) :
  plainCall c = true -> safe key (invokeUnified c) (fun _ => True).
Proof.
  intros Hplain.
  destruct c; plain_args; cbn [invokeUnified];
    unfold Unified.listProjects, Unified.getProjectHealth, Unified.getTestHistory,
      Unified.getFlakyTests, Unified.getTestRuns, Unified.getReport,
      Unified.getSlowestTests, Unified.getTestRunDetails,
      Unified.compareTestMetrics, Unified.getCoverageSummary,
      Unified.getCoverageFiles, Unified.getCoverageRiskAreas,
      Unified.getReportBrowserUrl, Unified.getFailureClusters,
      Unified.listUploadSessions, Unified.getUploadSessionDetail;
    repeat gate_step.
Qed.

Lemma invokeLegacy_safe key (c : Call) :
  plainCall c = true -> safe key (invokeLegacy c) (fun _ => True).
Proof.
  intros Hplain.
  destruct c; plain_args; cbn [invokeLegacy];
    unfold Legacy.listProjects, Legacy.getProjectHealth, Legacy.getTestHistory,
      Legacy.getFlakyTests, Legacy.getTestRuns, Legacy.getReport,
      Legacy.getSlowestTests, Legacy.getTestRunDetails,
      Legacy.compareTestMetrics, Legacy.getCoverageSummary,
      Legacy.getCoverageFiles, Legacy.getCoverageRiskAreas,
      Legacy.getReportBrowserUrl, Legacy.getFailureClusters,
      Legacy.listUploadSessions, Legacy.getUploadSessionDetail;
    repeat gate_step.
Qed.

Lemma session_safe key (invoke : Call -> Eff unit) (calls : list Call) :
  (forall c, plainCall c = true -> safe key (invoke c) (fun _ => True)) ->
  forallb plainCall calls = true ->
  safe key (session invoke calls) (fun _ => True).
Proof.
  intros Hi. induction calls as [|c rest IH]; cbn [session forallb]; intros Hp.
  - now apply safe_ret.
  - apply andb_true_iff in Hp. destruct Hp as [Hc Hrest].
    eapply safe_bind; [apply Hi, Hc | intros _ _; exact (IH Hrest)].
Qed.

Lemma startup_keyed (config : GafferConfig) :
  keyed (cfg_apiKey config) (startup config).
Proof. repeat split. intros req []. Qed.

(** C5, as amended.  The two gates test the kind of the key before anything
    is sent:
    - with a user key, [resolveProjectId] without an explicit id throws
      [projectId is required ...] and leaves the state, log included, as it
      was;
    - with a project token, [listProjects] (either client text) throws its
      explanation and leaves the state as it was;
    - in every session whose calls carry plain identifiers (letters, digits,
      [-] and [_]) in their path arguments, on a network whose [/project]
      answers carry plain project ids (any key, any sequence of method calls,
      on either client), no fetch ever sends a user key to the
      identity-resolution endpoint [/api/v1/project], nor a project token to
      the project-listing endpoint [/api/v1/user/projects].
    Paths are those of the URL that is fetched. *)
Theorem capability_gates :
  (forall net s p,
      isUserToken (this s) = true -> truthyOptStr p = false ->
      Unified.resolveProjectId p net s
      = (Threw (newError "projectId is required when using a user API Key"), s))
  /\ (forall net s organizationId limit offset,
        isUserToken (this s) = false ->
        Unified.listProjects organizationId limit offset net s
        = (Threw (newError "list_projects is not available with project tokens (gfr_). Your token is already scoped to a single project â€” call tools directly without passing projectId."), s)
        /\ Legacy.listProjects organizationId limit offset net s
           = (Threw (newError "listProjects requires a user API Key (gaf_). Upload Tokens (gfr_) can only access a single project."), s))
  /\ (forall config net calls,
        plainNet net ->
        forallb plainCall calls = true ->
        gated (log (snd (session invokeUnified calls net (startup config))))
        /\ gated (log (snd (session invokeLegacy calls net (startup config))))).
Proof.
  split; [|split].
  - intros net s p Htok Hp. unfold Unified.resolveProjectId.
    rewrite (whenTruthy_None p Hp). unfold bind, getThis. now rewrite Htok.
  - intros net s o l f Htok. split.
    + unfold Unified.listProjects, bind, getThis. now rewrite Htok.
    + unfold Legacy.listProjects, Legacy.requireUserToken, bind, getThis.
      now rewrite Htok.
  - intros config net calls Hnet Hcalls. split.
    + apply (session_safe (cfg_apiKey config) invokeUnified calls
               (invokeUnified_safe _) Hcalls net (startup config) Hnet
               (startup_keyed config)).
    + apply (session_safe (cfg_apiKey config) invokeLegacy calls
               (invokeLegacy_safe _) Hcalls net (startup config) Hnet
               (startup_keyed config)).
Qed.

(** The gates at work on the user key [gaf_abc123] and the project token
    [gfr_xyz]: both calls throw with an empty log; and a session of a
    project token that resolves its project and then asks for the listing
    sends nothing to the listing endpoint. *)
Lemma capability_gates_witness :
  Unified.resolveProjectId None (always Fixtures.rProject) Fixtures.userSys
  = (Threw (newError "projectId is required when using a user API Key"),
     Fixtures.userSys)
  /\ log (snd (Legacy.listProjects None None None (always Fixtures.rEmpty)
                 Fixtures.projectSys)) = []
  /\ gated (log (snd (session invokeUnified
                        [CallGetProjectHealth None None;
                         CallListProjects None None None]
                        (always Fixtures.rProject)
                        (startup {| cfg_apiKey := "gfr_xyz";
                                    cfg_baseUrl := "https://app.gaffer.sh" |})))).
Proof.
  destruct capability_gates as (Hres & Hlist & Hsession). split; [|split].
  - apply Hres; reflexivity.
  - destruct (Hlist (always Fixtures.rEmpty) Fixtures.projectSys None None None)
      as [_ H]; [reflexivity|].
    rewrite H. reflexivity.
  - apply Hsession; [|reflexivity].
    intros n req r id H Hj. injection H as <-. injection Hj as <-. reflexivity.
Defined.

(** C5 as stated fails for a project id that is not a plain identifier: the
    methods put it into the path as it is, and [new URL] resolves its dot
    segments and cuts the path at [?].  With the user key [gaf_abc123],
    [getProjectHealth] of either client for the project id [../../project?]
    fetches [/api/v1/project]; with the project token [gfr_xyz], the unified
    [getProjectHealth] for [../projects?] fetches [/api/v1/user/projects]. *)
Lemma crafted_project_id_passes_the_gates :
  (forall invoke, invoke = invokeUnified \/ invoke = invokeLegacy ->
     exists req,
       log (snd (session invoke [CallGetProjectHealth (Some "../../project?") None]
                   (always Fixtures.rEmpty) Fixtures.userSys)) = [EvFetch req]
       /\ req_key req = "gaf_abc123"
       /\ detectTokenType (req_key req) = user
       /\ req_path req = IDENTITY_PATH)
  /\ (exists req,
        log (snd (session invokeUnified
                    [CallGetProjectHealth (Some "../projects?") None]
                    (always Fixtures.rEmpty) Fixtures.projectSys)) = [EvFetch req]
        /\ req_key req = "gfr_xyz"
        /\ detectTokenType (req_key req) = project
        /\ req_path req = LISTING_PATH)
  /\ ~ gated (log (snd (session invokeUnified
                          [CallGetProjectHealth (Some "../../project?") None]
                          (always Fixtures.rEmpty) Fixtures.userSys))).
Proof.
  split; [|split].
  - intros invoke [-> | ->]; eexists; (split; [vm_compute; reflexivity|]);
      repeat split.
  - eexists. split; [vm_compute; reflexivity|]. repeat split.
  - intros H.
    set (req := buildRequest Fixtures.userClient
                  "/user/projects/../../project?/health"
                  (Some [("days", VNum (num 30))])).
    assert (Hin : In (EvFetch req)
                    (log (snd (session invokeUnified
                                 [CallGetProjectHealth (Some "../../project?") None]
                                 (always Fixtures.rEmpty) Fixtures.userSys))))
      by (vm_compute; left; reflexivity).
    specialize (H req Hin). vm_compute in H. now apply H.
Qed.
(* ===================================================================== *)
(** ** Query sets *)
(* ===================================================================== *)

Lemma spreadStr_cases (key : string) (v : option string) :
  spreadStr key v = [] \/ exists x, spreadStr key v = [(key, VStr x)].
Proof.
  unfold spreadStr. destruct v as [x|]; [|now left].
  destruct (truthyStr x); [right; now exists x | now left].
Qed.

Lemma spreadNum_cases (key : string) (v : option JsNum) :
  spreadNum key v = [] \/ exists n, spreadNum key v = [(key, VNum n)].
Proof.
  unfold spreadNum. destruct v as [n|]; [|now left].
  destruct (truthyNum n); [right; now exists n | now left].
Qed.

Lemma spreadDefinedNum_cases (key : string) (v : option JsNum) :
  spreadDefinedNum key v = [] \/ exists n, spreadDefinedNum key v = [(key, VNum n)].
Proof. destruct v as [n|]; [right; now exists n | now left]. Qed.

(** Splits every spread of the goal into its two cases. *)
Ltac spread_cases :=
  repeat match goal with
         | |- context [spreadStr ?k ?v] =>
             let x := fresh "x" in
             destruct (spreadStr_cases k v) as [-> | [x ->]]
         | |- context [spreadNum ?k ?v] =>
             let n := fresh "n" in
             destruct (spreadNum_cases k v) as [-> | [n ->]]
         | |- context [spreadDefinedNum ?k ?v] =>
             let n := fresh "n" in
             destruct (spreadDefinedNum_cases k v) as [-> | [n ->]]
         end.

(** The query of a request to a plain endpoint whose parameters have
    distinct names is the list of the parameters that are set. *)
Lemma compare_query (c : GafferApiClient) (endpoint tn : string)
    (bc ac br ar : option string) :
  plainPath endpoint = true ->
  let params := ([("testName", VStr tn)]
                 ++ spreadStr "beforeCommit" bc ++ spreadStr "afterCommit" ac
                 ++ spreadStr "beforeRunId" br ++ spreadStr "afterRunId" ar)%list in
  req_query (buildRequest c endpoint (Some params)) = params.
Proof.
  intros Hp params. subst params.
  destruct (buildRequest_path c endpoint
              (Some ([("testName", VStr tn)]
                     ++ spreadStr "beforeCommit" bc ++ spreadStr "afterCommit" ac
                     ++ spreadStr "beforeRunId" br ++ spreadStr "afterRunId" ar)%list)
              Hp) as [_ ->].
  spread_cases; reflexivity.
Qed.

(* ===================================================================== *)
(** ** Validation in the comparison tool *)
(* ===================================================================== *)

Lemma blank_supplied (o : option string) : blank o = negb (supplied o).
Proof.
  destruct o as [x|]; [|reflexivity]. cbn [blank supplied].
  now destruct (trim x).
Qed.

Lemma supplied_truthy (o : option string) :
  supplied o = true -> truthyOptStr o = true.
Proof.
  destruct o as [x|]; [|discriminate]. destruct x; [discriminate | reflexivity].
Qed.

Section ToolProperties.

Context {client : ClientMethods}.

(** The three cases of the validation, for any client: refused without a
    complete pair; handed to the client with both pairs complete, or with
    one complete and a side of the other missing or empty. *)
Lemma compare_validation :
  (forall input net s,
      completePair (cmp_beforeCommit input) (cmp_afterCommit input) = false ->
      completePair (cmp_beforeRunId input) (cmp_afterRunId input) = false ->
      exists msg, executeCompareTestMetrics input net s = (Threw (newError msg), s))
  /\ (forall input net s,
        completePair (cmp_beforeCommit input) (cmp_afterCommit input) = true ->
        completePair (cmp_beforeRunId input) (cmp_afterRunId input) = true ->
        executeCompareTestMetrics input net s
        = client_compareTestMetrics
            (Some (cmp_projectId input)) (Some (cmp_testName input))
            (cmp_beforeCommit input) (cmp_afterCommit input)
            (cmp_beforeRunId input) (cmp_afterRunId input) net s)
  /\ (forall input net s,
        (completePair (cmp_beforeCommit input) (cmp_afterCommit input) = true
         /\ truthyOptStr (cmp_beforeRunId input)
            && truthyOptStr (cmp_afterRunId input) = false)
        \/ (completePair (cmp_beforeRunId input) (cmp_afterRunId input) = true
            /\ truthyOptStr (cmp_beforeCommit input)
               && truthyOptStr (cmp_afterCommit input) = false) ->
        executeCompareTestMetrics input net s
        = client_compareTestMetrics
            (Some (cmp_projectId input)) (Some (cmp_testName input))
            (cmp_beforeCommit input) (cmp_afterCommit input)
            (cmp_beforeRunId input) (cmp_afterRunId input) net s).
Proof.
  assert (Hdispatch : forall input net s,
             (bind (client_compareTestMetrics
                      (Some (cmp_projectId input)) (Some (cmp_testName input))
                      (cmp_beforeCommit input) (cmp_afterCommit input)
                      (cmp_beforeRunId input) (cmp_afterRunId input))
                   (fun response => ret response)) net s
             = client_compareTestMetrics
                 (Some (cmp_projectId input)) (Some (cmp_testName input))
                 (cmp_beforeCommit input) (cmp_afterCommit input)
                 (cmp_beforeRunId input) (cmp_afterRunId input) net s).
  { intros input net s. unfold bind, ret.
    destruct (client_compareTestMetrics _ _ _ _ _ _ net s) as [[b|e] s1];
      reflexivity. }
  split; [|split].
  - intros input net s Hc Hr. unfold executeCompareTestMetrics.
    unfold completePair in Hc, Hr. rewrite !blank_supplied.
    destruct (truthyOptStr (cmp_beforeCommit input)
              && truthyOptStr (cmp_afterCommit input)) eqn:E1;
      destruct (truthyOptStr (cmp_beforeRunId input)
                && truthyOptStr (cmp_afterRunId input)) eqn:E2;
      cbn [negb andb];
      try (eexists; reflexivity).
    + apply andb_false_iff in Hc. destruct Hc as [-> | ->];
        cbn [negb orb]; rewrite ?orb_true_r; eexists; reflexivity.
    + apply andb_false_iff in Hc. destruct Hc as [-> | ->];
        cbn [negb orb]; rewrite ?orb_true_r; eexists; reflexivity.
    + apply andb_false_iff in Hr. destruct Hr as [-> | ->];
        cbn [negb orb]; rewrite ?orb_true_r; eexists; reflexivity.
  - intros input net s Hc Hr. unfold executeCompareTestMetrics.
    unfold completePair in Hc, Hr.
    apply andb_true_iff in Hc. destruct Hc as [Hc1 Hc2].
    apply andb_true_iff in Hr. destruct Hr as [Hr1 Hr2].
    rewrite !blank_supplied, Hc1, Hc2, Hr1, Hr2.
    rewrite (supplied_truthy _ Hc1), (supplied_truthy _ Hc2),
      (supplied_truthy _ Hr1), (supplied_truthy _ Hr2).
    cbn [negb andb orb]. apply Hdispatch.
  - intros input net s [[Hc Hr] | [Hr Hc]]; unfold executeCompareTestMetrics;
      unfold completePair in *.
    + apply andb_true_iff in Hc. destruct Hc as [Hc1 Hc2].
      rewrite Hr, !blank_supplied, Hc1, Hc2.
      rewrite (supplied_truthy _ Hc1), (supplied_truthy _ Hc2).
      cbn [negb andb orb]. apply Hdispatch.
    + apply andb_true_iff in Hr. destruct Hr as [Hr1 Hr2].
      rewrite Hc, !blank_supplied, Hr1, Hr2.
      rewrite (supplied_truthy _ Hr1), (supplied_truthy _ Hr2).
      cbn [negb andb orb]. apply Hdispatch.
Qed.

End ToolProperties.

Lemma compare_passes {client : ClientMethods} (input : CompareTestMetricsInput)
    (net : Net) (s : Sys) :
  passesValidation input ->
  executeCompareTestMetrics input net s
  = client_compareTestMetrics
      (Some (cmp_projectId input)) (Some (cmp_testName input))
      (cmp_beforeCommit input) (cmp_afterCommit input)
      (cmp_beforeRunId input) (cmp_afterRunId input) net s.
Proof.
  destruct (@compare_validation client) as (_ & Hboth & Hone).
  intros [[Hc Hr] | [H | H]]; [now apply Hboth | apply Hone; now left
                               | apply Hone; now right].
Qed.

(** On the unified client an input that passes the validation, with a
    project id and a test name, is one call of [request]. *)
Lemma compare_unified_request (input : CompareTestMetricsInput) (net : Net)
    (s : Sys) :
  passesValidation input ->
  cmp_projectId input <> EmptyString ->
  cmp_testName input <> EmptyString ->
  executeCompareTestMetrics (client := unifiedClient) input net s
  = request ("/user/projects/" ++ cmp_projectId input ++ "/compare-test")
      (Some ([("testName", VStr (cmp_testName input))]
             ++ spreadStr "beforeCommit" (cmp_beforeCommit input)
             ++ spreadStr "afterCommit" (cmp_afterCommit input)
             ++ spreadStr "beforeRunId" (cmp_beforeRunId input)
             ++ spreadStr "afterRunId" (cmp_afterRunId input))%list) net s.
Proof.
  intros Hpass Hpid Htn.
  rewrite (compare_passes input net s Hpass).
  cbn [client_compareTestMetrics unifiedClient].
  unfold Unified.compareTestMetrics, requireStr. cbn [whenTruthy].
  rewrite (truthyStr_nonempty _ Htn).
  unfold bind at 1, ret at 1. unfold bind at 1.
  unfold Unified.resolveProjectId. cbn [whenTruthy].
  rewrite (truthyStr_nonempty _ Hpid). reflexivity.
Qed.

(** C7.  [executeCompareTestMetrics] wants a complete comparison axis:
    - an input with neither a complete (beforeCommit, afterCommit) pair nor a
      complete (beforeRunId, afterRunId) pair (a side missing, empty or
      whitespace-only counts as not supplied) throws a validation error
      without calling the client, whichever client it is given, so the state
      and its log of network calls are untouched;
    - an input with both pairs complete, or with one pair complete and a
      side of the other missing or empty, passes validation and is
      dispatched: for a non-empty project id and test name the call is the
      client's request to [/user/projects/<projectId>/compare-test] with the
      test name and the supplied sides as its query, on the unified client
      and, with a user key, on the client of [src/api-client.ts], which with
      a project token refuses the call at its own gate;
    - that request reaches the network: with a base URL that is a plain
      origin and a plain project id it makes between one and four fetches,
      each to that path with that query. *)
Theorem compare_requires_complete_axis :
  (forall (client : ClientMethods) input net s,
      completePair (cmp_beforeCommit input) (cmp_afterCommit input) = false ->
      completePair (cmp_beforeRunId input) (cmp_afterRunId input) = false ->
      exists msg, executeCompareTestMetrics input net s = (Threw (newError msg), s))
  /\ (forall input net s,
        passesValidation input ->
        cmp_projectId input <> EmptyString ->
        cmp_testName input <> EmptyString ->
        let endpoint := "/user/projects/" ++ cmp_projectId input ++ "/compare-test" in
        let query := ([("testName", VStr (cmp_testName input))]
                      ++ spreadStr "beforeCommit" (cmp_beforeCommit input)
                      ++ spreadStr "afterCommit" (cmp_afterCommit input)
                      ++ spreadStr "beforeRunId" (cmp_beforeRunId input)
                      ++ spreadStr "afterRunId" (cmp_afterRunId input))%list in
        executeCompareTestMetrics (client := unifiedClient) input net s
        = request endpoint (Some query) net s
        /\ (isUserToken (this s) = true ->
            executeCompareTestMetrics (client := legacyClient) input net s
            = request endpoint (Some query) net s)
        /\ (isUserToken (this s) = false ->
            executeCompareTestMetrics (client := legacyClient) input net s
            = (Threw (newError "compareTestMetrics requires a user API Key (gaf_)."),
               s))
        /\ (plainOrigin (baseUrl (this s)) = true ->
            plainId (cmp_projectId input) = true ->
            exists l,
              log (snd (request endpoint (Some query) net s)) = (log s ++ l)%list
              /\ (1 <= fetchCount l <= 4)%nat
              /\ forall req, In (EvFetch req) l ->
                   req_path req = "/api/v1" ++ endpoint
                   /\ req_query req = query)).
Proof.
  split.
  { intros client. apply (@compare_validation client). }
  intros input net s Hpass Hpid Htn endpoint query.
  split; [|split; [|split]].
  - now apply compare_unified_request.
  - intros Htok. rewrite (compare_passes input net s Hpass).
    cbn [client_compareTestMetrics legacyClient].
    unfold Legacy.compareTestMetrics, Legacy.requireUserToken, requireStr.
    cbn [whenTruthy].
    rewrite (truthyStr_nonempty _ Htn), (truthyStr_nonempty _ Hpid).
    unfold bind at 1. unfold bind at 1, getThis. rewrite Htok. reflexivity.
  - intros Htok. rewrite (compare_passes input net s Hpass).
    cbn [client_compareTestMetrics legacyClient].
    unfold Legacy.compareTestMetrics, Legacy.requireUserToken.
    unfold bind at 1. unfold bind at 1, getThis. rewrite Htok. reflexivity.
  - intros Hbase Hplain.
    destruct (request_trace endpoint (Some query) net s Hbase)
      as (l & Hlog & Hcount & _ & Hf).
    exists l. split; [exact Hlog|]. split; [exact Hcount|].
    intros req Hin. rewrite (fromRequest_fetch_eq _ _ _ Hf Hin).
    assert (Hpath : plainPath endpoint = true).
    { unfold endpoint.
      repeat first [reflexivity | apply plainPath_app | now apply plainId_path]. }
    split.
    + now destruct (buildRequest_path (this s) endpoint (Some query) Hpath).
    + now apply compare_query.
Qed.

(** On the unified client with a user key: no pair at all, or one side of
    each pair, is refused with the state untouched; both pairs together are
    dispatched as one request to [/user/projects/proj_1/compare-test],
    which is fetched. *)
Lemma compare_requires_complete_axis_witness :
  (exists msg,
      executeCompareTestMetrics (client := unifiedClient) Fixtures.noPair
        (always Fixtures.rEmpty) Fixtures.userSys
      = (Threw (newError msg), Fixtures.userSys))
  /\ (exists msg,
        executeCompareTestMetrics (client := unifiedClient) Fixtures.halfPair
          (always Fixtures.rEmpty) Fixtures.userSys
        = (Threw (newError msg), Fixtures.userSys))
  /\ executeCompareTestMetrics (client := unifiedClient) Fixtures.bothPairs
       (always Fixtures.rEmpty) Fixtures.userSys
     = request "/user/projects/proj_1/compare-test"
         (Some [("testName", VStr "x"); ("beforeCommit", VStr "a");
                ("afterCommit", VStr "b"); ("beforeRunId", VStr "r1");
                ("afterRunId", VStr "r2")])
         (always Fixtures.rEmpty) Fixtures.userSys
  /\ exists l,
       log (snd (request "/user/projects/proj_1/compare-test"
                   (Some [("testName", VStr "x"); ("beforeCommit", VStr "a");
                          ("afterCommit", VStr "b"); ("beforeRunId", VStr "r1");
                          ("afterRunId", VStr "r2")])
                   (always Fixtures.rEmpty) Fixtures.userSys)) = l
       /\ (1 <= fetchCount l <= 4)%nat
       /\ forall req, In (EvFetch req) l ->
            req_path req = "/api/v1/user/projects/proj_1/compare-test"
            /\ req_query req
               = [("testName", VStr "x"); ("beforeCommit", VStr "a");
                  ("afterCommit", VStr "b"); ("beforeRunId", VStr "r1");
                  ("afterRunId", VStr "r2")].
Proof.
  destruct compare_requires_complete_axis as (Hno & Hpass).
  assert (Hok : passesValidation Fixtures.bothPairs) by (left; split; reflexivity).
  destruct (Hpass Fixtures.bothPairs (always Fixtures.rEmpty) Fixtures.userSys Hok)
    as (Hu & _ & _ & Hn); [discriminate | discriminate |].
  split; [|split; [|split]].
  - apply Hno; reflexivity.
  - apply Hno; reflexivity.
  - exact Hu.
  - destruct (Hn eq_refl eq_refl) as (l & Hlog & Hcount & Hreq).
    exists l. split; [exact Hlog|]. split; [exact Hcount | exact Hreq].
Defined.

(* ===================================================================== *)
(** ** The test-history tool *)
(* ===================================================================== *)

Section HistoryProperties.

Context {client : ClientMethods}.

(** C8, as amended.  When the client returns a test-history response,
    [executeGetTestHistory] returns one output entry per upstream entry, in
    order, and:
    - [branch] and [commitSha] of every entry and [passRate] of the summary
      are copied as they are, so absent stays absent, null stays null and a
      value stays that value;
    - [message] is not: a non-empty string is copied, while null, an empty
      string and a missing field all come out absent. *)
Theorem history_nullability (input : GetTestHistoryInput) (net : Net)
    (s s1 : Sys) (r : TestHistoryResponse) :
  truthyOptStr (hist_testName input) || truthyOptStr (hist_filePath input) = true ->
  client_getTestHistory (hist_projectId input) (hist_testName input)
    (hist_filePath input) (Some (orNum (hist_limit input) (num 20))) net s
  = (Returned (BTestHistory r), s1) ->
  exists out,
    executeGetTestHistory input net s = (Returned out, s1)
    /\ out_passRate (out_summary out) = sum_passRate (resp_summary r)
    /\ Forall2
         (fun entry o =>
            out_branch o = entry_branch entry
            /\ out_commitSha o = entry_commitSha entry
            /\ (forall m, test_message (entry_test entry) = Present m -> m <> EmptyString ->
                  out_message o = Present m)
            /\ (test_message (entry_test entry) = Null -> out_message o = Absent)
            /\ (test_message (entry_test entry) = Present EmptyString -> out_message o = Absent)
            /\ (test_message (entry_test entry) = Absent -> out_message o = Absent))
         (resp_history r) (out_history out).
Proof.
  intros Hv Hc. exists (reshapeHistory r). split; [|split].
  - unfold executeGetTestHistory.
    apply orb_true_iff in Hv.
    replace (negb (truthyOptStr (hist_testName input))
             && negb (truthyOptStr (hist_filePath input))) with false
      by (destruct Hv as [-> | ->]; cbn [negb andb]; now rewrite ?andb_false_r).
    unfold bind. rewrite Hc. reflexivity.
  - reflexivity.
  - cbn [reshapeHistory out_history].
    induction (resp_history r) as [|entry rest IH]; cbn [map]; constructor; auto.
    cbn [reshapeEntry out_branch out_commitSha out_message].
    repeat split.
    + intros m -> Hm. cbn [orUndefined]. now rewrite truthyStr_nonempty.
    + now intros ->.
    + now intros ->.
    + now intros ->.
Qed.

End HistoryProperties.

(** A response with one entry whose [commitSha] and [message] are null, on
    the unified client with a user key: [commitSha] comes out null. *)
Lemma history_nullability_witness :
  exists out s1,
    executeGetTestHistory (client := unifiedClient) Fixtures.historyQuery
      (always Fixtures.rHistory) Fixtures.userSys = (Returned out, s1)
    /\ map out_commitSha (out_history out) = [Null]
    /\ out_passRate (out_summary out) = Null.
Proof.
  destruct (@history_nullability unifiedClient Fixtures.historyQuery
              (always Fixtures.rHistory) Fixtures.userSys
              (snd (Unified.getTestHistory (Some "proj_1") (Some "logs in") None
                      (Some (num 20)) (always Fixtures.rHistory) Fixtures.userSys))
              Fixtures.nullMessageHistory)
    as (out & Hrun & Hrate & Hall).
  - reflexivity.
  - vm_compute. reflexivity.
  - exists out. eexists. split; [exact Hrun|]. split; [|exact Hrate].
    cbn [Fixtures.nullMessageHistory resp_history] in Hall.
    inversion Hall as [|e o l l' (_ & Hsha & _) Hrest Heq1 Heq2]; subst.
    inversion Hrest; subst. cbn [map]. now rewrite Hsha.
Defined.

(** C8 as stated fails for the [message] field: the upstream entry carries
    [message: null], and the output entry has no message at all, while the
    null [commitSha] of the same entry is kept. *)
Lemma history_null_message_becomes_absent :
  map (fun entry => test_message (entry_test entry))
    (resp_history Fixtures.nullMessageHistory) = [Null]
  /\ exists out s1,
       executeGetTestHistory (client := unifiedClient) Fixtures.historyQuery
         (always Fixtures.rHistory) Fixtures.userSys = (Returned out, s1)
       /\ map out_message (out_history out) = [Absent]
       /\ map out_message (out_history out) <> [Null]
       /\ map out_commitSha (out_history out) = [Null].
Proof.
  split; [reflexivity|]. eexists. eexists.
  split; [vm_compute; reflexivity|].
  split; [reflexivity|]. split; [discriminate | reflexivity].
Qed.

(** The rule of [getTestHistory], for both client texts: both fields
    blank is refused; otherwise the call goes on to the project id and the
    request. *)
Lemma getTestHistory_blank (projectId testName filePath : option string)
    (limit : option JsNum) (net : Net) (s : Sys) :
  blank testName = true -> blank filePath = true ->
  let refused :=
    (Threw (A := Body)
       (newError "Either testName or filePath is required (and must not be empty)"),
     s) in
  Unified.getTestHistory projectId testName filePath limit net s = refused
  /\ Legacy.getTestHistory projectId testName filePath limit net s = refused.
Proof.
  intros Ht Hf refused.
  assert (H : forall o, blank o = true -> truthyOptStr (optTrim o) = false).
  { intros [x|]; [|reflexivity]. cbn [blank optTrim option_map truthyOptStr].
    now destruct (trim x). }
  unfold Unified.getTestHistory, Legacy.getTestHistory.
  rewrite (H _ Ht), (H _ Hf). split; reflexivity.
Qed.

Lemma getTestHistory_supplied (projectId testName filePath : option string)
    (limit : option JsNum) :
  blank testName = false \/ blank filePath = false ->
  Unified.getTestHistory projectId testName filePath limit
  = (pid <- Unified.resolveProjectId projectId ;;
     request ("/user/projects/" ++ pid ++ "/test-history")
       (Some (spreadStr "testName" (optTrim testName)
              ++ spreadStr "filePath" (optTrim filePath)
              ++ spreadNum "limit" limit)%list)).
Proof.
  intros H.
  assert (Hb : forall o, blank o = false -> truthyOptStr (optTrim o) = true).
  { intros [x|]; [|discriminate]. cbn [blank optTrim option_map truthyOptStr].
    now destruct (trim x). }
  unfold Unified.getTestHistory.
  destruct H as [H|H]; rewrite (Hb _ H); cbn [negb andb];
    [reflexivity | now rewrite andb_false_r].
Qed.

Lemma getTestHistory_supplied_legacy (projectId testName filePath : option string)
    (limit : option JsNum) :
  blank testName = false \/ blank filePath = false ->
  let params := Some (spreadStr "testName" (optTrim testName)
                      ++ spreadStr "filePath" (optTrim filePath)
                      ++ spreadNum "limit" limit)%list in
  Legacy.getTestHistory projectId testName filePath limit
  = (c <- getThis ;;
     if isUserToken c then
       pid <- requireStr projectId "projectId is required when using a user API Key" ;;
       request ("/user/projects/" ++ pid ++ "/test-history") params
     else request "/project/test-history" params).
Proof.
  intros H params.
  assert (Hb : forall o, blank o = false -> truthyOptStr (optTrim o) = true).
  { intros [x|]; [|discriminate]. cbn [blank optTrim option_map truthyOptStr].
    now destruct (trim x). }
  unfold Legacy.getTestHistory.
  destruct H as [H|H]; rewrite (Hb _ H); cbn [negb andb];
    [reflexivity | now rewrite andb_false_r].
Qed.

(** C9, as amended.  The test-history lookup needs a test name or a file
    path that is not empty after trimming:
    - when both are missing, empty or whitespace-only, [getTestHistory] of
      either client throws [Either testName or filePath is required (and
      must not be empty)] and leaves the state, log included, as it was,
      whatever the key, the project id and the limit; a whitespace-only test
      name without a file path is refused exactly like a call with neither
      field;
    - through [executeGetTestHistory] such a call is refused as well, again
      with the state untouched, but not always with the same error: when
      both fields are missing or empty the tool's own check stops it, whose
      text lacks the parenthesis; a whitespace-only field passes that check
      and is stopped by the client's;
    - when one of the two is not blank, [getTestHistory] passes this check
      and goes on: the unified client to resolve the project id and to
      request [/user/projects/<id>/test-history] with the trimmed fields,
      the client of [src/api-client.ts] to the same request with a user key
      and to [/project/test-history] with a project token. *)
Theorem blank_test_name_rejected (projectId testName filePath : option string)
    (limit : option JsNum) (net : Net) (s : Sys) :
  (blank testName = true -> blank filePath = true ->
   let refused :=
     (Threw (A := Body)
        (newError "Either testName or filePath is required (and must not be empty)"),
      s) in
   Unified.getTestHistory projectId testName filePath limit net s = refused
   /\ Legacy.getTestHistory projectId testName filePath limit net s = refused
   /\ Unified.getTestHistory projectId testName filePath limit net s
      = Unified.getTestHistory projectId None None limit net s
   /\ Legacy.getTestHistory projectId testName filePath limit net s
      = Legacy.getTestHistory projectId None None limit net s
   /\ (forall client : ClientMethods,
         client = unifiedClient \/ client = legacyClient ->
         executeGetTestHistory
           {| hist_projectId := projectId; hist_testName := testName;
              hist_filePath := filePath; hist_limit := limit |} net s
         = (Threw (newError
                     (if truthyOptStr testName || truthyOptStr filePath
                      then "Either testName or filePath is required (and must not be empty)"
                      else "Either testName or filePath is required")), s)))
  /\ (blank testName = false \/ blank filePath = false ->
      let params := Some (spreadStr "testName" (optTrim testName)
                          ++ spreadStr "filePath" (optTrim filePath)
                          ++ spreadNum "limit" limit)%list in
      Unified.getTestHistory projectId testName filePath limit net s
      = (pid <- Unified.resolveProjectId projectId ;;
         request ("/user/projects/" ++ pid ++ "/test-history") params) net s
      /\ Legacy.getTestHistory projectId testName filePath limit net s
         = (c <- getThis ;;
            if isUserToken c then
              pid <- requireStr projectId
                       "projectId is required when using a user API Key" ;;
              request ("/user/projects/" ++ pid ++ "/test-history") params
            else request "/project/test-history" params) net s).
Proof.
  split.
  - intros Ht Hf refused.
    destruct (getTestHistory_blank projectId testName filePath limit net s Ht Hf)
      as [Hu Hl].
    destruct (getTestHistory_blank projectId None None limit net s eq_refl eq_refl)
      as [Hu0 Hl0].
    split; [exact Hu|]. split; [exact Hl|].
    split; [now rewrite Hu, Hu0|]. split; [now rewrite Hl, Hl0|].
    intros client Hclient. unfold executeGetTestHistory.
    cbn [hist_testName hist_filePath hist_projectId hist_limit].
    destruct (truthyOptStr testName || truthyOptStr filePath) eqn:E.
    + replace (negb (truthyOptStr testName) && negb (truthyOptStr filePath))
        with false
        by (apply orb_true_iff in E; destruct E as [-> | ->];
            cbn [negb andb]; now rewrite ?andb_false_r).
      unfold bind.
      destruct Hclient as [-> | ->];
        cbn [client_getTestHistory unifiedClient legacyClient].
      * now rewrite (proj1 (getTestHistory_blank projectId testName filePath
                              (Some (orNum limit (num 20))) net s Ht Hf)).
      * now rewrite (proj2 (getTestHistory_blank projectId testName filePath
                              (Some (orNum limit (num 20))) net s Ht Hf)).
    + apply orb_false_iff in E. destruct E as [-> ->]. reflexivity.
  - intros H params. split.
    + now rewrite (getTestHistory_supplied projectId testName filePath limit H).
    + now rewrite (getTestHistory_supplied_legacy projectId testName filePath
                     limit H).
Qed.

(** Three spaces as the test name, with a user key and no project id: the
    same refusal as for no field at all, and an empty log. *)
Lemma blank_test_name_rejected_witness :
  Unified.getTestHistory None (Some "   ") None None (always Fixtures.rHistory)
    Fixtures.userSys
  = Unified.getTestHistory None None None None (always Fixtures.rHistory)
      Fixtures.userSys
  /\ log (snd (Unified.getTestHistory None (Some "   ") None None
                 (always Fixtures.rHistory) Fixtures.userSys)) = [].
Proof.
  destruct (blank_test_name_rejected None (Some "   ") None None
              (always Fixtures.rHistory) Fixtures.userSys) as [H _].
  destruct (H eq_refl eq_refl) as (H1 & _ & H3 & _).
  split; [exact H3|]. now rewrite H1.
Defined.

(** C9 as stated fails through the tool: [executeGetTestHistory] refuses
    the whitespace-only test name and the call with neither field with two
    different errors, the first thrown by the client, the second by the
    tool's own check. *)
Lemma blank_test_name_differs_through_tool :
  let whitespace := {| hist_projectId := None; hist_testName := Some "   ";
                       hist_filePath := None; hist_limit := None |} in
  let neither := {| hist_projectId := None; hist_testName := None;
                    hist_filePath := None; hist_limit := None |} in
  executeGetTestHistory (client := legacyClient) whitespace
    (always Fixtures.rHistory) Fixtures.userSys
  = (Threw (newError "Either testName or filePath is required (and must not be empty)"),
     Fixtures.userSys)
  /\ executeGetTestHistory (client := legacyClient) neither
       (always Fixtures.rHistory) Fixtures.userSys
     = (Threw (newError "Either testName or filePath is required"),
        Fixtures.userSys)
  /\ executeGetTestHistory (client := legacyClient) whitespace
       (always Fixtures.rHistory) Fixtures.userSys
     <> executeGetTestHistory (client := legacyClient) neither
          (always Fixtures.rHistory) Fixtures.userSys.
Proof.
  split; [reflexivity|]. split; [reflexivity|]. vm_compute. discriminate.
Qed.

(* ===================================================================== *)
(** ** Zero-valued numeric parameters *)
(* ===================================================================== *)

Lemma isZero_falsy (n : JsNum) : isZero n = true -> truthyNum n = false.
Proof. destruct n as [q| |b]; [|discriminate|discriminate]. cbn. now intros ->. Qed.

Lemma spreadNum_zero (key : string) (zero : JsNum) :
  isZero zero = true -> spreadNum key (Some zero) = [].
Proof. intros H. unfold spreadNum. now rewrite isZero_falsy. Qed.

Lemma spreadNum_nonzero (key k : string) (v : option JsNum) (n : JsNum) :
  In (k, VNum n) (spreadNum key v) -> isZero n = false.
Proof.
  unfold spreadNum. destruct v as [x|]; [|intros []].
  destruct (truthyNum x) eqn:E; [|intros []].
  intros [H|[]]. injection H as _ <-.
  destruct x as [q| |b]; [|reflexivity|reflexivity]. cbn in *.
  now destruct (Qeq_bool q 0).
Qed.

Lemma orNum_nonzero (v : option JsNum) (d : JsNum) :
  isZero d = false -> isZero (orNum v d) = false.
Proof.
  intros Hd. unfold orNum. destruct v as [n|]; [|exact Hd].
  destruct (truthyNum n) eqn:E; [|exact Hd].
  destruct n as [q| |b]; [|reflexivity|reflexivity]. cbn in *.
  now destruct (Qeq_bool q 0).
Qed.

Lemma spreadNum_omitZero (key : string) (v : option JsNum) :
  spreadNum key (omitZero v) = spreadNum key v.
Proof.
  destruct v as [n|]; [|reflexivity]. cbn [omitZero].
  destruct (isZero n) eqn:E; [|reflexivity].
  now rewrite spreadNum_zero.
Qed.

Lemma orNum_omitZero (v : option JsNum) (d : JsNum) :
  orNum (omitZero v) d = orNum v d.
Proof.
  destruct v as [n|]; [|reflexivity]. cbn [omitZero].
  destruct (isZero n) eqn:E; [|reflexivity].
  cbn [orNum]. now rewrite isZero_falsy.
Qed.

Lemma invoke_omitZeros (c : Call) :
  invokeUnified (omitZeros c) = invokeUnified c
  /\ invokeLegacy (omitZeros c) = invokeLegacy c.
Proof.
  destruct c; cbn [omitZeros invokeUnified invokeLegacy];
    unfold Unified.listProjects, Unified.getProjectHealth, Unified.getTestHistory,
      Unified.getFlakyTests, Unified.getTestRuns, Unified.getSlowestTests,
      Unified.getTestRunDetails, Unified.getCoverageSummary,
      Unified.getCoverageFiles, Unified.getCoverageRiskAreas,
      Unified.listUploadSessions,
      Legacy.listProjects, Legacy.getProjectHealth, Legacy.getTestHistory,
      Legacy.getFlakyTests, Legacy.getTestRuns, Legacy.getSlowestTests,
      Legacy.getTestRunDetails, Legacy.getCoverageSummary,
      Legacy.getCoverageFiles, Legacy.getCoverageRiskAreas,
      Legacy.listUploadSessions;
    rewrite ?spreadNum_omitZero, ?orNum_omitZero; split; reflexivity.
Qed.

(** C10, as amended.  For a numeric option that a client method adds to the
    query set with a truthiness spread [...(v && {key: v})] or defaults with
    [v || d], supplying zero is the same as omitting it:
    - such a spread never puts a zero into the query set, and [v || d] with
      a non-zero default [d] is never zero;
    - [getFlakyTests] with [threshold], [limit] or [days] zero is the call
      with that option omitted (both client texts);
    - [getProjectHealth] with [days] zero is the call with [days] omitted,
      which sends [days = 30] (both client texts);
    - [executeGetTestHistory] with [limit] zero is the call with [limit]
      omitted, which hands [limit = 20] to the client, and so is
      [executeListTestRuns], whatever the client;
    - every method call of either client is the same computation as the call
      with the zeros of all such options omitted.
    This is a statement about the client methods and these two tools.  The
    options written with [!== undefined] ([minCoverage], [maxCoverage],
    [coverageThreshold]) are not of this kind, and neither is an option that
    a tool defaults with [??] before the client sees it (the [limit] of
    [executeGetUntestedFiles]). *)
Theorem zero_is_omitted (zero : JsNum) :
  isZero zero = true ->
  (forall key, spreadNum key (Some zero) = spreadNum key None)
  /\ (forall key k v n, In (k, VNum n) (spreadNum key v) -> isZero n = false)
  /\ (forall d, orNum (Some zero) d = d)
  /\ (forall v d, isZero d = false -> isZero (orNum v d) = false)
  /\ (forall p t l d,
        Unified.getFlakyTests p (Some zero) l d = Unified.getFlakyTests p None l d
        /\ Unified.getFlakyTests p t (Some zero) d = Unified.getFlakyTests p t None d
        /\ Unified.getFlakyTests p t l (Some zero) = Unified.getFlakyTests p t l None
        /\ Legacy.getFlakyTests p (Some zero) l d = Legacy.getFlakyTests p None l d
        /\ Legacy.getFlakyTests p t (Some zero) d = Legacy.getFlakyTests p t None d
        /\ Legacy.getFlakyTests p t l (Some zero) = Legacy.getFlakyTests p t l None)
  /\ (forall p,
        Unified.getProjectHealth p (Some zero) = Unified.getProjectHealth p None
        /\ Unified.getProjectHealth p (Some zero)
           = (pid <- Unified.resolveProjectId p ;;
              request ("/user/projects/" ++ pid ++ "/health")
                (Some [("days", VNum (num 30))]))
        /\ Legacy.getProjectHealth p (Some zero) = Legacy.getProjectHealth p None)
  /\ (forall (client : ClientMethods) p t f,
        executeGetTestHistory
          {| hist_projectId := p; hist_testName := t; hist_filePath := f;
             hist_limit := Some zero |}
        = executeGetTestHistory
            {| hist_projectId := p; hist_testName := t; hist_filePath := f;
               hist_limit := None |}
        /\ orNum (Some zero) (num 20) = num 20)
  /\ (forall (client : ToolClient) asTestRuns p c b st,
        executeListTestRuns asTestRuns
          {| ltr_projectId := p; ltr_commitSha := c; ltr_branch := b;
             ltr_status := st; ltr_limit := Some zero |}
        = executeListTestRuns asTestRuns
            {| ltr_projectId := p; ltr_commitSha := c; ltr_branch := b;
               ltr_status := st; ltr_limit := None |})
  /\ (forall c,
        invokeUnified (omitZeros c) = invokeUnified c
        /\ invokeLegacy (omitZeros c) = invokeLegacy c).
Proof.
  intros Hz.
  assert (Hs : forall key, spreadNum key (Some zero) = [])
    by (intros; now apply spreadNum_zero).
  assert (Ho : forall d, orNum (Some zero) d = d)
    by (intros; unfold orNum; now rewrite isZero_falsy).
  split; [intros; now rewrite Hs|].
  split; [intros key k v n; apply spreadNum_nonzero|].
  split; [exact Ho|].
  split; [intros v d; apply orNum_nonzero|].
  split; [|split; [|split; [|split]]].
  - intros p t l d.
    unfold Unified.getFlakyTests, Legacy.getFlakyTests. rewrite !Hs.
    repeat split; reflexivity.
  - intros p. unfold Unified.getProjectHealth, Legacy.getProjectHealth.
    rewrite !Ho. repeat split; reflexivity.
  - intros client p t f. unfold executeGetTestHistory.
    cbn [hist_limit]. rewrite Ho. split; reflexivity.
  - intros client asTestRuns p c b st. unfold executeListTestRuns.
    cbn [ltr_limit]. now rewrite Ho.
  - apply invoke_omitZeros.
Qed.

(** The number 0 itself: dropped by the flaky-tests call, replaced by 30 in
    the health call. *)
Lemma zero_is_omitted_witness :
  queries (log (snd (Unified.getFlakyTests (Some "proj_1")
                       (Some Fixtures.zero) (Some Fixtures.zero) (Some Fixtures.zero)
                       (always Fixtures.rEmpty) Fixtures.userSys)))
  = [[]]
  /\ queries (log (snd (Unified.getProjectHealth (Some "proj_1") (Some Fixtures.zero)
                          (always Fixtures.rEmpty) Fixtures.userSys)))
     = [[("days", VNum (num 30))]].
Proof.
  destruct (zero_is_omitted Fixtures.zero)
    as (_ & _ & _ & _ & Hflaky & Hhealth & _);
    [reflexivity|].
  destruct (Hflaky (Some "proj_1") None (Some Fixtures.zero) (Some Fixtures.zero))
    as (H1 & _).
  destruct (Hflaky (Some "proj_1") None None (Some Fixtures.zero)) as (_ & H2 & _).
  destruct (Hflaky (Some "proj_1") None None None) as (_ & _ & H3 & _).
  destruct (Hhealth (Some "proj_1")) as (_ & H4 & _).
  split.
  - rewrite H1, H2, H3. reflexivity.
  - rewrite H4. reflexivity.
Defined.

(** C10 as stated fails for [getCoverageFiles], whose query set is built
    with truthiness spreads but whose [minCoverage] is guarded by
    [!== undefined]: a supplied zero is sent as [minCoverage = 0], while the
    call without it sends an empty query set.  It fails through
    [executeGetUntestedFiles] too, which defaults [limit] with [??]: a zero
    limit is handed to [getCoverageFiles], which drops it, while an omitted
    one goes out as [limit = 20]. *)
Lemma zero_minCoverage_is_sent :
  queries (log (snd (Unified.getCoverageFiles (Some "proj_1") None
                       (Some (num 0)) None None None None None
                       (always Fixtures.rEmpty) Fixtures.userSys)))
  = [[("minCoverage", VNum (num 0))]]
  /\ queries (log (snd (Unified.getCoverageFiles (Some "proj_1") None
                          None None None None None None
                          (always Fixtures.rEmpty) Fixtures.userSys)))
     = [[]]
  /\ Unified.getCoverageFiles (Some "proj_1") None (Some (num 0)) None None None
       None None (always Fixtures.rEmpty) Fixtures.userSys
     <> Unified.getCoverageFiles (Some "proj_1") None None None None None
          None None (always Fixtures.rEmpty) Fixtures.userSys
  /\ queries (log (snd (executeGetUntestedFiles (client := unifiedTools)
                          (fun _ => Some MoreFixtures.someCoverage)
                          {| unt_projectId := Some "proj_1";
                             unt_maxCoverage := None;
                             unt_limit := Some (num 0) |}
                          (always Fixtures.rEmpty) Fixtures.userSys)))
     = [[("maxCoverage", VNum (num 10)); ("sortBy", VStr "coverage");
         ("sortOrder", VStr "asc")]]
  /\ queries (log (snd (executeGetUntestedFiles (client := unifiedTools)
                          (fun _ => Some MoreFixtures.someCoverage)
                          {| unt_projectId := Some "proj_1";
                             unt_maxCoverage := None; unt_limit := None |}
                          (always Fixtures.rEmpty) Fixtures.userSys)))
     = [[("maxCoverage", VNum (num 10)); ("limit", VNum (num 20));
         ("sortBy", VStr "coverage"); ("sortOrder", VStr "asc")]].
Proof.
  split; [vm_compute; reflexivity|]. split; [vm_compute; reflexivity|].
  split; [vm_compute; discriminate|].
  split; vm_compute; reflexivity.
Qed.

(* ===================================================================== *)
(** ** More on the transport *)
(* ===================================================================== *)

Lemma allChars_dropLeading (p q : ascii -> bool) (s : string) :
  allChars q s = true -> allChars q (dropLeading p s) = true.
Proof.
  induction s as [|c s IH]; [reflexivity|]. cbn [dropLeading].
  destruct (p c); [|trivial]. cbn [allChars]. intros H.
  apply andb_true_iff in H. now apply IH.
Qed.

Lemma allChars_dropTrailing (p q : ascii -> bool) (s : string) :
  allChars q s = true -> allChars q (dropTrailing p s) = true.
Proof.
  induction s as [|c s IH]; [reflexivity|]. cbn [allChars dropTrailing].
  intros H. apply andb_true_iff in H. destruct H as [Hc Hs].
  specialize (IH Hs). destruct (dropTrailing p s) as [|c' r'].
  - destruct (p c); [reflexivity|]. cbn [allChars]. now rewrite Hc.
  - cbn [allChars] in *. now rewrite Hc.
Qed.

Lemma allChars_removeAll (p q : ascii -> bool) (s : string) :
  allChars q s = true -> allChars q (removeAll p s) = true.
Proof.
  induction s as [|c s IH]; [reflexivity|]. cbn [allChars removeAll].
  intros H. apply andb_true_iff in H. destruct H as [Hc Hs].
  destruct (p c); [now apply IH|]. cbn [allChars]. now rewrite Hc, IH.
Qed.

Lemma schemeTail_schemeless (s : string) :
  schemeless s = true -> schemeTail s = None.
Proof.
  unfold schemeless. induction s as [|c s IH]; [reflexivity|].
  cbn [allChars schemeTail]. intros H. apply andb_true_iff in H.
  destruct H as [Hc Hs]. apply negb_true_iff in Hc. rewrite Hc, (IH Hs).
  now destruct (isSchemeChar c).
Qed.

(** A base URL without a scheme does not parse. *)
Lemma canParseBase_schemeless (base : string) :
  schemeless base = true -> canParseBase base = false.
Proof.
  intros H. unfold canParseBase.
  assert (Hin : schemeless (urlInput base) = true).
  { unfold urlInput. apply allChars_removeAll, allChars_dropTrailing,
      allChars_dropLeading. exact H. }
  unfold schemeOf. destruct (urlInput base) as [|c r]; [reflexivity|].
  rewrite (schemeTail_schemeless _ Hin). now destruct (isAsciiAlpha c).
Qed.


(** X1.  Whatever the network answers, one call of [request] makes at most
    four fetches and never more sleeps than fetches, sends every fetch to
    the same URL with the same key, and leaves the client object as it was.
    With a base URL that is a plain origin there is at least one fetch, and
    exactly one sleep between two consecutive fetches (one sleep less than
    fetches, so at most three).  With a base URL without a scheme, such as a
    bare host name, the URL cannot be built: the call throws the
    [TypeError] of [new URL] at once, with no fetch and no sleep. *)
Theorem request_bounded (net : Net) (s : Sys) (endpoint : string)
    (params : option Params) :
  let s' := snd (request endpoint params net s) in
  this s' = this s
  /\ (exists l,
        log s' = (log s ++ l)%list
        /\ (fetchCount l <= 4)%nat
        /\ (length (sleeps l) <= fetchCount l)%nat
        /\ fromRequest (buildRequest (this s) endpoint params) l
        /\ (plainOrigin (baseUrl (this s)) = true ->
            (1 <= fetchCount l)%nat
            /\ (length (sleeps l) + 1 = fetchCount l)%nat))
  /\ (schemeless (baseUrl (this s)) = true ->
      request endpoint params net s = (Threw invalidUrl, s)).
Proof.
  intros s'. subst s'.
  destruct (request_extends endpoint params net s) as [Ht (l0 & Hl0 & Hf)].
  split; [exact Ht|]. split.
  - destruct (canParseBase (baseUrl (this s))) eqn:Hbase.
    + rewrite (request_valid _ _ _ _ Hbase) in *.
      destruct (requestLoop_run (buildRequest (this s) endpoint params) net
                  (S (S MAX_RETRIES)) 0 None s) as (l & Hlog & H1 & H2 & H3 & _);
        [unfold MAX_RETRIES; lia | unfold MAX_RETRIES; lia |].
      exists l. split; [exact Hlog|].
      split; [unfold MAX_RETRIES in H2; lia|]. split; [lia|].
      split; [|intros _; split; [exact H1 | exact H3]].
      rewrite Hlog in Hl0. apply app_inv_head in Hl0. now subst l0.
    + rewrite (request_invalid _ _ _ _ Hbase). exists []. cbn [snd].
      split; [now rewrite app_nil_r|]. split; [cbn; lia|]. split; [cbn; lia|].
      split; [intros ev []|].
      intros Hp. apply plainOrigin_canParse in Hp. congruence.
  - intros Hs. apply request_invalid. now apply canParseBase_schemeless.
Qed.

(** The client of the fixtures makes between one and four fetches; the same
    client with the base URL [app.gaffer.sh] makes none. *)
Lemma request_bounded_witness :
  (exists l,
      log (snd (request "/project" None (always Fixtures.r503) Fixtures.projectSys))
      = l
      /\ (1 <= fetchCount l <= 4)%nat
      /\ (length (sleeps l) + 1 = fetchCount l)%nat)
  /\ request "/project" None (always Fixtures.r503) MoreFixtures.bareHostSys
     = (Threw (mkError TypeError "Invalid URL"), MoreFixtures.bareHostSys).
Proof.
  split.
  - destruct (request_bounded (always Fixtures.r503) Fixtures.projectSys
                "/project" None) as (_ & (l & Hlog & H4 & _ & _ & Hp) & _).
    destruct (Hp eq_refl) as [H1 Hs].
    exists l. split; [exact Hlog|]. split; [lia | exact Hs].
  - apply (request_bounded (always Fixtures.r503) MoreFixtures.bareHostSys
             "/project" None).
    reflexivity.
Defined.

(** X2.  With a base URL that is a plain origin, [request] makes at least
    one fetch, and when it throws, the error is that of the last fetch it
    made: for a failure response the message of that response (the
    [TypeError] of reading [error] of [null] when the body is JSON [null]),
    for a 2xx response the parse error of its body, for a timeout the
    message [Request timed out after 30000ms], for any other rejection the
    rejection itself.  When it returns, the last fetch got a 2xx response
    and the result is its decoded body.  The fallback [Request failed after
    retries] after the loop is never what ends a call. *)
Theorem request_last_outcome (net : Net) (s s' : Sys) (endpoint : string)
    (params : option Params) (res : Outcome Body) :
  plainOrigin (baseUrl (this s)) = true ->
  request endpoint params net s = (res, s') ->
  let last := net (fetchCount (log s') - 1)%nat
                (buildRequest (this s) endpoint params) in
  (fetchCount (log s) < fetchCount (log s'))%nat
  /\ match res with
     | Returned b => exists r, last = Resolved r /\ ok r = true /\ json r = JsonOk b
     | Threw e => errorOfOutcome last e
     end.
Proof.
  intros Hbase Hrun last. subst last.
  rewrite (request_plainOrigin _ _ _ _ Hbase) in Hrun.
  destruct (requestLoop_run (buildRequest (this s) endpoint params) net
              5 0 None s) as (l & Hlog & H1 & _ & _ & Hout);
    [unfold MAX_RETRIES; lia | unfold MAX_RETRIES; lia |].
  rewrite Hrun in Hlog, Hout. cbn [fst snd] in Hlog, Hout.
  split; [|exact Hout].
  rewrite Hlog, fetchCount_app. lia.
Qed.

(** The 404 stub: the call throws [not found], the error of its only
    fetch. *)
Lemma request_last_outcome_witness :
  errorOfOutcome (Resolved Fixtures.r404) (newError "not found").
Proof.
  destruct (request_last_outcome (always Fixtures.r404) Fixtures.projectSys
              (snd (request "/project" None (always Fixtures.r404) Fixtures.projectSys))
              "/project" None (Threw (newError "not found"))) as [_ H];
    [reflexivity | reflexivity |].
  exact H.
Defined.

(** X3.  With a base URL that is a plain origin, when every fetch is rejected
    by a timeout or a connection failure, [request] makes exactly 4 attempts with waits of 1000, 2000 and 4000 ms
    and then throws for the fourth rejection: [Request timed out after
    30000ms] if that was a timeout, the connection error itself otherwise. *)
Theorem request_transient_exhaustion (net : Net) (s : Sys) (endpoint : string)
    (params : option Params) :
  plainOrigin (baseUrl (this s)) = true ->
  (forall n req, exists e, net n req = Rejected e /\ transient e = true) ->
  let req := buildRequest (this s) endpoint params in
  exists e3,
    net (S (S (S (fetchCount (log s))))) req = Rejected e3
    /\ request endpoint params net s
       = (Threw (thrownFor e3),
          {| this := this s;
             log := log s ++ [EvFetch req; EvSleep (num 1000);
                              EvFetch req; EvSleep (num 2000);
                              EvFetch req; EvSleep (num 4000);
                              EvFetch req] |})
    /\ (err_name e3 = AbortError ->
        thrownFor e3 = newError "Request timed out after 30000ms")
    /\ (err_name e3 = TypeError -> thrownFor e3 = e3).
Proof.
  intros Hbase Hall req. set (k := fetchCount (log s)).
  destruct (Hall k req) as [e0 [H0 T0]].
  destruct (Hall (S k) req) as [e1 [H1 T1]].
  destruct (Hall (S (S k)) req) as [e2 [H2 T2]].
  destruct (Hall (S (S (S k))) req) as [e3 [H3 T3]].
  exists e3. split; [exact H3|]. split; [|split].
  - rewrite (request_plainOrigin _ _ _ _ Hbase). fold req.
    rewrite (requestLoop_backoff _ 0 None req net s e0)
      by (auto; unfold MAX_RETRIES; lia).
    rewrite (requestLoop_backoff _ 1 _ req net _ e1);
      [| cbn [log]; rewrite fetchCount_attempt; exact H1 | exact T1
       | unfold MAX_RETRIES; lia].
    rewrite (requestLoop_backoff _ 2 _ req net _ e2);
      [| cbn [log]; rewrite !fetchCount_attempt; exact H2 | exact T2
       | unfold MAX_RETRIES; lia].
    rewrite (requestLoop_rejected _ 3 _ req net _ e3);
      [| cbn [log]; rewrite !fetchCount_attempt; exact H3
       | unfold MAX_RETRIES; lia | now right].
    cbn [this log]. rewrite <- !app_assoc. reflexivity.
  - intros Hn. unfold thrownFor. rewrite Hn. reflexivity.
  - intros Hn. unfold thrownFor. now rewrite Hn.
Qed.

(** Every fetch times out: four attempts, then the timeout message. *)
Lemma request_transient_exhaustion_witness :
  exists s',
    request "/project" None (MoreFixtures.rejecting MoreFixtures.aborted)
      Fixtures.projectSys
    = (Threw (newError "Request timed out after 30000ms"), s')
    /\ fetchCount (log s') = 4%nat
    /\ sleeps (log s') = [num 1000; num 2000; num 4000].
Proof.
  destruct (request_transient_exhaustion
              (MoreFixtures.rejecting MoreFixtures.aborted) Fixtures.projectSys
              "/project" None) as (e3 & H3 & Hrun & Habort & _).
  - reflexivity.
  - intros n req. exists MoreFixtures.aborted. split; reflexivity.
  - injection H3 as <-. rewrite (Habort eq_refl) in Hrun.
    eexists. split; [exact Hrun|]. split; reflexivity.
Defined.

(** X4.  With a base URL that is a plain origin, a rejection of the first
    fetch that is neither a timeout nor a connection failure is thrown as it
    is after that one fetch: no sleep, no second attempt. *)
Theorem request_rejection_not_retried (net : Net) (s : Sys) (endpoint : string)
    (params : option Params) (e : JsError) :
  plainOrigin (baseUrl (this s)) = true ->
  net (fetchCount (log s)) (buildRequest (this s) endpoint params) = Rejected e ->
  transient e = false ->
  request endpoint params net s
  = (Threw e,
     {| this := this s;
        log := log s ++ [EvFetch (buildRequest (this s) endpoint params)] |}).
Proof.
  intros Hbase Hnet Htr.
  rewrite (request_plainOrigin _ _ _ _ Hbase).
  rewrite (requestLoop_rejected _ 0 None _ net s e Hnet);
    [| unfold MAX_RETRIES; lia | now left].
  unfold thrownFor, transient in *. destruct (err_name e); try reflexivity;
    discriminate Htr.
Qed.

Lemma request_rejection_not_retried_witness :
  request "/project" None (MoreFixtures.rejecting MoreFixtures.broken)
    Fixtures.projectSys
  = (Threw MoreFixtures.broken,
     {| this := Fixtures.projectClient; log := [EvFetch Fixtures.someRequest] |}).
Proof.
  apply (request_rejection_not_retried
           (MoreFixtures.rejecting MoreFixtures.broken) Fixtures.projectSys);
    reflexivity.
Defined.

(** X5.  With a base URL that is a plain origin, a 2xx answer to the first
    fetch ends the call after that one fetch: with the decoded body when the body parses, and with the parse
    error when it does not.  A malformed body on a successful status is not
    retried. *)
Theorem request_first_ok (net : Net) (s : Sys) (endpoint : string)
    (params : option Params) (r : Response) :
  plainOrigin (baseUrl (this s)) = true ->
  net (fetchCount (log s)) (buildRequest (this s) endpoint params) = Resolved r ->
  ok r = true ->
  let s1 := {| this := this s;
               log := log s ++ [EvFetch (buildRequest (this s) endpoint params)] |} in
  (forall b, json r = JsonOk b -> request endpoint params net s = (Returned b, s1))
  /\ (forall e, json r = JsonFail e -> request endpoint params net s = (Threw e, s1)).
Proof.
  intros Hbase Hnet Hok s1. subst s1.
  rewrite (request_plainOrigin _ _ _ _ Hbase).
  rewrite (requestLoop_ok _ 0 None _ net s r Hnet Hok) by (unfold MAX_RETRIES; lia).
  split; intros x Hj; now rewrite Hj.
Qed.

Lemma request_first_ok_witness :
  request "/project" None (always MoreFixtures.rBadJson) Fixtures.projectSys
  = (Threw (mkError SyntaxError "Unexpected token < in JSON at position 0"),
     {| this := Fixtures.projectClient; log := [EvFetch Fixtures.someRequest] |}).
Proof.
  destruct (request_first_ok (always MoreFixtures.rBadJson) Fixtures.projectSys
              "/project" None MoreFixtures.rBadJson) as [_ H];
    [reflexivity | reflexivity | reflexivity |].
  apply H. reflexivity.
Defined.




(* ===================================================================== *)
(** ** Building the client *)
(* ===================================================================== *)

Lemma stripTrailingSlash_slash (t : string) : stripTrailingSlash (t ++ "/") = t.
Proof.
  induction t as [|c t IH]; [reflexivity|].
  cbn [append stripTrailingSlash]. rewrite IH.
  destruct t; reflexivity.
Qed.

Lemma stripTrailingSlash_other (u : string) :
  (forall t, u <> t ++ "/") -> stripTrailingSlash u = u.
Proof.
  induction u as [|c r IH]; intros H; [reflexivity|].
  cbn [stripTrailingSlash]. destruct r as [|c' r'].
  - destruct (Ascii.eqb c "/") eqn:E; [|reflexivity].
    apply Ascii.eqb_eq in E. subst c. exfalso. apply (H EmptyString). reflexivity.
  - rewrite IH; [reflexivity|].
    intros t Ht. apply (H (String c t)). cbn [append]. now rewrite Ht.
Qed.

(** X7.  The constructor removes one trailing slash from the base URL and
    nothing else: a URL [u/] is stored as [u] (so [u//] is stored as [u/]),
    and a URL that does not end in a slash is stored unchanged.  The key is
    stored as given, the token type is the classification of the key, and
    the project-id cache starts empty. *)
Theorem newClient_baseUrl (key : string) :
  (forall u, baseUrl (newClient {| cfg_apiKey := key; cfg_baseUrl := u ++ "/" |}) = u)
  /\ (forall u, (forall t, u <> t ++ "/") ->
        baseUrl (newClient {| cfg_apiKey := key; cfg_baseUrl := u |}) = u)
  /\ (forall u,
        let c := newClient {| cfg_apiKey := key; cfg_baseUrl := u |} in
        apiKey c = key /\ tokenType c = detectTokenType key
        /\ resolvedProjectId c = None
        /\ forall endpoint params,
             req_base (buildRequest c endpoint params) = stripTrailingSlash u
             /\ req_key (buildRequest c endpoint params) = key).
Proof.
  split; [|split].
  - intros u. apply stripTrailingSlash_slash.
  - intros u H. now apply stripTrailingSlash_other.
  - intros u c. repeat split.
Qed.

Lemma newClient_baseUrl_witness :
  baseUrl (newClient {| cfg_apiKey := "gaf_abc123";
                        cfg_baseUrl := "https://app.gaffer.sh//" |})
  = "https://app.gaffer.sh/"
  /\ baseUrl (newClient {| cfg_apiKey := "gfr_xyz"; cfg_baseUrl := "http://h" |})
     = "http://h".
Proof.
  destruct (newClient_baseUrl "gaf_abc123") as (Hslash & _).
  destruct (newClient_baseUrl "gfr_xyz") as (_ & Hother & _).
  split.
  - apply (Hslash "https://app.gaffer.sh/").
  - apply (Hother "http://h").
    intros t Ht.
    do 8 (destruct t as [|? t];
          [discriminate Ht | cbn [append] in Ht; injection Ht as _ Ht]).
    destruct t; discriminate Ht.
Defined.

(** X8.  [fromEnv] fails exactly when [GAFFER_API_KEY] is unset or empty,
    with the message [GAFFER_API_KEY environment variable is required].
    Otherwise it builds the client for that key: a user client exactly when
    the key starts with [gaf_], with an empty project-id cache, and with the
    base URL [https://app.gaffer.sh] when [GAFFER_API_URL] is unset or
    empty, else that URL less one trailing slash. *)
Theorem fromEnv_spec (env : Env) :
  (truthyOptStr (env "GAFFER_API_KEY") = false ->
     fromEnv env
     = Threw (newError "GAFFER_API_KEY environment variable is required"))
  /\ (forall key, env "GAFFER_API_KEY" = Some key -> key <> EmptyString ->
        exists c,
          fromEnv env = Returned c
          /\ apiKey c = key
          /\ (isUserToken c = true <-> exists rest, key = "gaf_" ++ rest)
          /\ resolvedProjectId c = None
          /\ (truthyOptStr (env "GAFFER_API_URL") = false ->
                baseUrl c = "https://app.gaffer.sh")
          /\ (forall u, env "GAFFER_API_URL" = Some u -> u <> EmptyString ->
                baseUrl c = stripTrailingSlash u)).
Proof.
  split.
  - intros H. unfold fromEnv. now rewrite (whenTruthy_None _ H).
  - intros key Hk Hne. unfold fromEnv. rewrite Hk. cbn [whenTruthy].
    rewrite (truthyStr_nonempty key Hne).
    eexists. split; [reflexivity|]. cbn [newClient apiKey baseUrl resolvedProjectId].
    split; [reflexivity|]. split; [|split; [reflexivity|split]].
    + unfold isUserToken. cbn [tokenType newClient cfg_apiKey].
      unfold detectTokenType. rewrite <- prefix_gaf.
      now destruct (String.prefix "gaf_" key).
    + intros H. rewrite (whenTruthy_None _ H). reflexivity.
    + intros u Hu Hune. rewrite Hu. cbn [whenTruthy].
      now rewrite (truthyStr_nonempty u Hune).
Qed.

(** Only the key is set: a user client on the default host; nothing set: the
    error. *)
Lemma fromEnv_spec_witness :
  fromEnv MoreFixtures.envEmpty
  = Threw (newError "GAFFER_API_KEY environment variable is required")
  /\ exists c, fromEnv MoreFixtures.envKeyOnly = Returned c
               /\ baseUrl c = "https://app.gaffer.sh".
Proof.
  split.
  - apply (proj1 (fromEnv_spec MoreFixtures.envEmpty)). reflexivity.
  - destruct (proj2 (fromEnv_spec MoreFixtures.envKeyOnly) "gaf_abc123")
      as (c & Hc & _ & _ & _ & Hurl & _); [reflexivity | discriminate |].
    exists c. split; [exact Hc|]. apply Hurl. reflexivity.
Defined.

(** X9.  The server never offers [list_projects] to a project token: the
    tool is among the registered ones exactly when the key is a user key.
    All other fifteen tools are registered for both kinds of key, and no
    name is registered twice. *)
Theorem registeredTools_spec (c : GafferApiClient) :
  (In "list_projects" (registeredTools c) <-> isUserToken c = true)
  /\ NoDup (registeredTools c)
  /\ length (registeredTools c) = (if isUserToken c then 16 else 15)%nat
  /\ forall name, name <> "list_projects" ->
       (In name (registeredTools c)
        <-> In name (registeredTools Fixtures.userClient)).
Proof.
  unfold registeredTools. destruct (isUserToken c) eqn:E; cbn [app].
  - split; [split; [reflexivity | intros _; cbn; tauto]|].
    split; [|split; [reflexivity | intros name _; reflexivity]].
    repeat (constructor; [cbn; intuition discriminate|]). constructor.
  - split; [split; [cbn; intuition discriminate | discriminate]|].
    split; [|split; [reflexivity|]].
    + repeat (constructor; [cbn; intuition discriminate|]). constructor.
    + intros name Hn. cbn. intuition congruence.
Qed.

(* ===================================================================== *)
(** ** More on project-id resolution and the client methods *)
(* ===================================================================== *)

Lemma resolve_explicit (p : option string) (x : string) (net : Net) (s : Sys) :
  whenTruthy p = Some x -> Unified.resolveProjectId p net s = (Returned x, s).
Proof. intros H. unfold Unified.resolveProjectId. now rewrite H. Qed.

Lemma resolve_explicit_id (id : string) (net : Net) (s : Sys) :
  id <> EmptyString -> Unified.resolveProjectId (Some id) net s = (Returned id, s).
Proof.
  intros H. apply resolve_explicit. cbn [whenTruthy].
  now rewrite truthyStr_nonempty.
Qed.

Lemma resolve_cached (p : option string) (id : string) (net : Net) (s : Sys) :
  truthyOptStr p = false ->
  isUserToken (this s) = false ->
  resolvedProjectId (this s) = Some id ->
  id <> EmptyString ->
  Unified.resolveProjectId p net s = (Returned id, s).
Proof.
  intros Hp Ht Hc Hid. unfold Unified.resolveProjectId.
  rewrite (whenTruthy_None p Hp). unfold bind at 1, getThis. rewrite Ht, Hc.
  cbn [whenTruthy]. now rewrite truthyStr_nonempty.
Qed.

Lemma resolve_user (p : option string) (net : Net) (s : Sys) :
  truthyOptStr p = false ->
  isUserToken (this s) = true ->
  Unified.resolveProjectId p net s
  = (Threw (newError "projectId is required when using a user API Key"), s).
Proof.
  intros Hp Ht. unfold Unified.resolveProjectId.
  rewrite (whenTruthy_None p Hp). unfold bind, getThis. now rewrite Ht.
Qed.

Lemma requireStr_missing (v : option string) (msg : string) (net : Net) (s : Sys) :
  truthyOptStr v = false -> requireStr v msg net s = (Threw (newError msg), s).
Proof. intros H. unfold requireStr. now rewrite (whenTruthy_None v H). Qed.

(** X10.  [resolveProjectId] writes the cache only when it resolves the id
    over the network.  A call that throws (a user key without an id, a
    failed request, a body without [project.id]) leaves the client object as
    it was, and so does a call that returns an explicit or cached id; the
    only other case is a project token without explicit id whose cache was
    empty, and then the cache holds the returned id. *)
Theorem resolveProjectId_cache_writes (p : option string) (net : Net)
    (s s' : Sys) (res : Outcome string) :
  Unified.resolveProjectId p net s = (res, s') ->
  match res with
  | Threw _ => this s' = this s
  | Returned id =>
      this s' = this s
      \/ (truthyOptStr p = false
          /\ isUserToken (this s) = false
          /\ truthyOptStr (resolvedProjectId (this s)) = false
          /\ this s' = {| apiKey := apiKey (this s);
                          baseUrl := baseUrl (this s);
                          tokenType := tokenType (this s);
                          resolvedProjectId := Some id |})
  end.
Proof.
  unfold Unified.resolveProjectId.
  rewrite <- (whenTruthy_truthy p).
  destruct (whenTruthy p) as [x|].
  { intros H. injection H as <- <-. now left. }
  unfold bind at 1, getThis.
  destruct (isUserToken (this s)) eqn:Ht.
  { intros H. injection H as <- <-. reflexivity. }
  rewrite <- (whenTruthy_truthy (resolvedProjectId (this s))).
  destruct (whenTruthy (resolvedProjectId (this s))) as [x|].
  { intros H. injection H as <- <-. now left. }
  unfold bind at 1.
  destruct (request "/project" None net s) as [[b|e] s1] eqn:Hreq.
  - pose proof (request_this _ _ _ _ _ _ Hreq) as Hthis.
    unfold bind at 1.
    destruct b as [c m|pid|h|raw|];
      try (intros H; injection H as <- <-; exact Hthis).
    unfold Unified.projectIdOf, ret, bind, setResolvedProjectId.
    intros H. injection H as <- <-. right. cbn [this]. rewrite Hthis.
    repeat split.
  - pose proof (request_this _ _ _ _ _ _ Hreq) as Hthis.
    intros H. injection H as <- <-. exact Hthis.
Qed.

(** A project token whose resolution fails with a 404: nothing is cached. *)
Lemma resolveProjectId_cache_writes_witness :
  resolvedProjectId
    (this (snd (Unified.resolveProjectId None (always Fixtures.r404)
                  Fixtures.projectSys))) = None.
Proof.
  pose proof (resolveProjectId_cache_writes None (always Fixtures.r404)
                Fixtures.projectSys
                (snd (Unified.resolveProjectId None (always Fixtures.r404)
                        Fixtures.projectSys))
                (Threw (newError "not found")) eq_refl) as H.
  cbn beta iota in H. rewrite H. reflexivity.
Defined.

(** Unfolding the calls down to [resolveProjectId] and [request]. *)
Ltac open_call :=
  unfold asBody, asId,
    Unified.listProjects, Unified.getProjectHealth, Unified.getTestHistory,
    Unified.getFlakyTests, Unified.getTestRuns, Unified.getReport,
    Unified.getSlowestTests, Unified.getTestRunDetails,
    Unified.compareTestMetrics, Unified.getCoverageSummary,
    Unified.getCoverageFiles, Unified.getCoverageRiskAreas,
    Unified.getReportBrowserUrl, Unified.getFailureClusters,
    Unified.listUploadSessions, Unified.getUploadSessionDetail,
    Legacy.listProjects, Legacy.getProjectHealth, Legacy.getTestHistory,
    Legacy.getFlakyTests, Legacy.getTestRuns, Legacy.getReport,
    Legacy.getSlowestTests, Legacy.getTestRunDetails,
    Legacy.compareTestMetrics, Legacy.getCoverageSummary,
    Legacy.getCoverageFiles, Legacy.getCoverageRiskAreas,
    Legacy.getReportBrowserUrl, Legacy.getFailureClusters,
    Legacy.listUploadSessions, Legacy.getUploadSessionDetail,
    Legacy.requireUserToken, requireStr, bind, getThis.

(** X11.  With a project token whose cache holds a non-empty id, a method
    call without a project id is the same computation as the call with the
    cached id passed explicitly: same result, same requests, same state.
    This holds for every method that takes a project id. *)
Theorem cached_id_is_substituted (c : Call) (p : option string) (id : string)
    (net : Net) (s : Sys) :
  projectIdArg c = Some p ->
  truthyOptStr p = false ->
  isUserToken (this s) = false ->
  resolvedProjectId (this s) = Some id ->
  id <> EmptyString ->
  performUnified c net s = performUnified (withProjectId (Some id) c) net s.
Proof.
  intros Harg Hp Ht Hc Hid.
  pose proof (resolve_cached p id net s Hp Ht Hc Hid) as H1.
  pose proof (resolve_explicit_id id net s Hid) as H2.
  destruct c; cbn [projectIdArg] in Harg; try discriminate Harg;
    injection Harg as ->; cbn [withProjectId performUnified];
    open_call;
    repeat match goal with
           | |- context [whenTruthy ?v] => destruct (whenTruthy v)
           | |- context [if ?b then _ else _] => destruct b
           end;
    unfold ret, throw; rewrite ?H1, ?H2; reflexivity.
Qed.

Lemma cached_id_is_substituted_witness :
  performUnified (CallGetProjectHealth None None) MoreFixtures.routed
    MoreFixtures.cachedSys
  = performUnified (CallGetProjectHealth (Some "proj_1") None) MoreFixtures.routed
      MoreFixtures.cachedSys.
Proof.
  apply (cached_id_is_substituted (CallGetProjectHealth None None) None "proj_1");
    try reflexivity.
  discriminate.
Defined.

(** X12.  With a user key, every method that takes a project id throws when
    it is called without one (missing or empty), before any request is sent
    and without touching the state.  This holds on both clients. *)
Theorem user_key_requires_projectId (c : Call) (p : option string)
    (net : Net) (s : Sys) :
  projectIdArg c = Some p ->
  truthyOptStr p = false ->
  isUserToken (this s) = true ->
  (exists e, performUnified c net s = (Threw e, s))
  /\ (exists e, performLegacy c net s = (Threw e, s)).
Proof.
  intros Harg Hp Ht.
  pose proof (resolve_user p net s Hp Ht) as H1.
  pose proof (whenTruthy_None p Hp) as H2.
  split.
  - destruct c; cbn [projectIdArg] in Harg; try discriminate Harg;
      injection Harg as ->; cbn [performUnified];
      open_call;
      repeat match goal with
             | |- context [whenTruthy ?v] => destruct (whenTruthy v)
             | |- context [if ?b then _ else _] => destruct b
             end;
      unfold ret, throw; rewrite ?H1; eexists; reflexivity.
  - destruct c; cbn [projectIdArg] in Harg; try discriminate Harg;
      injection Harg as ->; cbn [performLegacy];
      try (eexists; reflexivity);
      open_call;
      repeat first
        [ progress cbv beta iota
        | rewrite Ht
        | rewrite H2
        | progress cbn [negb]
        | match goal with
          | |- context [whenTruthy ?v] => destruct (whenTruthy v)
          | |- context [if ?b then _ else _] => destruct b
          end ];
      unfold ret, throw; eexists; reflexivity.
Qed.

Lemma user_key_requires_projectId_witness :
  fst (performUnified (CallGetFlakyTests None None None None)
         (always Fixtures.rEmpty) Fixtures.userSys)
  = Threw (newError "projectId is required when using a user API Key")
  /\ snd (performLegacy (CallGetCoverageSummary (Some EmptyString) None)
            (always Fixtures.rEmpty) Fixtures.userSys) = Fixtures.userSys.
Proof.
  destruct (user_key_requires_projectId (CallGetFlakyTests None None None None)
              None (always Fixtures.rEmpty) Fixtures.userSys)
    as [[e He] _]; try reflexivity.
  destruct (user_key_requires_projectId
              (CallGetCoverageSummary (Some EmptyString) None)
              (Some EmptyString) (always Fixtures.rEmpty) Fixtures.userSys)
    as [_ [e' He']]; try reflexivity.
  split.
  - reflexivity.
  - now rewrite He'.
Defined.

(** X13.  On the per-token client a project token reaches the network with
    four methods only, each on its own [/project/...] route, and there the
    [projectId] argument is ignored: the call is the same computation
    whatever project id is passed, and every fetch it makes goes to that
    route (the path of the URL that is fetched). *)
Theorem legacy_project_routes (c : Call) (route : string) (q : option string)
    (net : Net) (s : Sys) :
  projectRoute c = Some route ->
  isUserToken (this s) = false ->
  performLegacy (withProjectId q c) net s = performLegacy c net s
  /\ exists l,
       log (snd (performLegacy c net s)) = (log s ++ l)%list
       /\ forall req, In (EvFetch req) l -> req_path req = "/api/v1" ++ route.
Proof.
  intros Hroute Ht.
  assert (Hreq : forall endpoint params,
             plainPath endpoint = true ->
             exists l,
               log (snd (bind (request endpoint params)
                           (fun b => ret (Decoded b)) net s)) = (log s ++ l)%list
               /\ forall req, In (EvFetch req) l ->
                              req_path req = "/api/v1" ++ endpoint).
  { intros endpoint params Hplain.
    destruct (request_extends endpoint params net s) as [_ (l & Hl & Hf)].
    exists l. split.
    - unfold bind, ret. destruct (request endpoint params net s) as [[b|e] s1];
        exact Hl.
    - intros req Hin. rewrite (fromRequest_fetch_eq _ _ _ Hf Hin).
      now destruct (buildRequest_path (this s) endpoint params Hplain). }
  assert (Hsame : forall (m1 m2 : Eff Body),
             m1 net s = m2 net s -> asBody m1 net s = asBody m2 net s).
  { intros m1 m2 H. unfold asBody, bind. now rewrite H. }
  destruct c; cbn [projectRoute] in Hroute; try discriminate Hroute;
    injection Hroute as <-; cbn [withProjectId performLegacy].
  - assert (E : forall x, Legacy.getProjectHealth x days net s
                          = request "/project/analytics"
                              (Some [("days", VNum (orNum days (num 30)))]) net s).
    { intros x. unfold Legacy.getProjectHealth, bind at 1, getThis.
      cbv beta iota. now rewrite Ht. }
    split; [apply Hsame; now rewrite !E|].
    unfold asBody, bind at 1. rewrite E. apply Hreq. reflexivity.
  - assert (E : forall x,
               Legacy.getTestHistory x testName filePath limit net s
               = (if negb (truthyOptStr (optTrim testName))
                     && negb (truthyOptStr (optTrim filePath))
                  then throw (newError "Either testName or filePath is required (and must not be empty)")
                  else request "/project/test-history"
                         (Some (spreadStr "testName" (optTrim testName)
                                ++ spreadStr "filePath" (optTrim filePath)
                                ++ spreadNum "limit" limit)%list)) net s).
    { intros x. unfold Legacy.getTestHistory.
      destruct (negb _ && negb _); [reflexivity|].
      unfold bind at 1, getThis. cbv beta iota. now rewrite Ht. }
    split; [apply Hsame; now rewrite !E|].
    unfold asBody, bind at 1. rewrite E.
    destruct (negb _ && negb _).
    + exists []. rewrite app_nil_r. split; [reflexivity | intros req []].
    + apply Hreq. reflexivity.
  - assert (E : forall x, Legacy.getFlakyTests x threshold limit days net s
                          = request "/project/flaky-tests"
                              (Some (spreadNum "threshold" threshold
                                     ++ spreadNum "limit" limit
                                     ++ spreadNum "days" days)%list) net s).
    { intros x. unfold Legacy.getFlakyTests, bind at 1, getThis.
      cbv beta iota. now rewrite Ht. }
    split; [apply Hsame; now rewrite !E|].
    unfold asBody, bind at 1. rewrite E. apply Hreq. reflexivity.
  - assert (E : forall x, Legacy.getTestRuns x commitSha branch status0 limit net s
                          = request "/project/test-runs"
                              (Some (spreadStr "commitSha" commitSha
                                     ++ spreadStr "branch" branch
                                     ++ spreadStr "status" status0
                                     ++ spreadNum "limit" limit)%list) net s).
    { intros x. unfold Legacy.getTestRuns, bind at 1, getThis.
      cbv beta iota. now rewrite Ht. }
    split; [apply Hsame; now rewrite !E|].
    unfold asBody, bind at 1. rewrite E. apply Hreq. reflexivity.
Qed.

Lemma legacy_project_routes_witness :
  performLegacy (CallGetFlakyTests (Some "other") None None None)
    (always Fixtures.rEmpty) Fixtures.projectSys
  = performLegacy (CallGetFlakyTests None None None None)
      (always Fixtures.rEmpty) Fixtures.projectSys.
Proof.
  apply (proj1 (legacy_project_routes (CallGetFlakyTests None None None None)
                  "/project/flaky-tests" (Some "other")
                  (always Fixtures.rEmpty) Fixtures.projectSys
                  eq_refl eq_refl)).
Defined.

(** X14.  On the per-token client every other method refuses a project
    token before any request is sent: it throws an error whose message
    starts with the name of the method followed by [requires a user API Key
    (gaf_).], and the state is untouched, whatever the arguments. *)
Theorem legacy_gate_names_method (c : Call) (net : Net) (s : Sys) :
  isMethod c = true ->
  projectRoute c = None ->
  isUserToken (this s) = false ->
  exists rest,
    performLegacy c net s
    = (Threw (newError (methodName c ++ " requires a user API Key (gaf_)." ++ rest)),
       s).
Proof.
  intros Hm Hroute Ht.
  destruct c; cbn [isMethod projectRoute] in *; try discriminate;
    cbn [performLegacy methodName];
    unfold asBody, Legacy.listProjects, Legacy.getReport, Legacy.getSlowestTests,
      Legacy.getTestRunDetails, Legacy.compareTestMetrics,
      Legacy.getCoverageSummary, Legacy.getCoverageFiles,
      Legacy.getCoverageRiskAreas, Legacy.getReportBrowserUrl,
      Legacy.getFailureClusters, Legacy.listUploadSessions,
      Legacy.getUploadSessionDetail, Legacy.requireUserToken, bind, getThis;
    cbv beta iota; rewrite Ht; cbn [negb]; unfold throw;
    first [ exists EmptyString; reflexivity
          | eexists; cbn [append]; reflexivity ].
Qed.

Lemma legacy_gate_names_method_witness :
  exists rest,
    performLegacy (CallGetCoverageRiskAreas (Some "proj_1") None None)
      (always Fixtures.rEmpty) Fixtures.projectSys
    = (Threw (newError ("getCoverageRiskAreas requires a user API Key (gaf_)."
                        ++ rest)),
       Fixtures.projectSys).
Proof.
  apply (legacy_gate_names_method
           (CallGetCoverageRiskAreas (Some "proj_1") None None)
           (always Fixtures.rEmpty) Fixtures.projectSys);
    reflexivity.
Defined.

(** *** Once settled, the client object no longer changes *)

Lemma quiet_ret {A} c (a : A) (post : A -> Prop) : post a -> quiet c (ret a) post.
Proof.
  intros Hp net s Hs. split; [exact Hs|]. split.
  - exists []. rewrite app_nil_r. split; [reflexivity | intros req []].
  - intros a' E. now injection E as <-.
Qed.

Lemma quiet_throw {A} c (e : JsError) (post : A -> Prop) :
  quiet c (throw (A := A) e) post.
Proof.
  intros net s Hs. split; [exact Hs|]. split.
  - exists []. rewrite app_nil_r. split; [reflexivity | intros req []].
  - intros a E. discriminate E.
Qed.

Lemma quiet_weaken {A} c (m : Eff A) (Q R : A -> Prop) :
  quiet c m Q -> (forall a, Q a -> R a) -> quiet c m R.
Proof.
  intros Hm HQR net s Hs. destruct (Hm net s Hs) as (Ht & Hl & Hp).
  split; [exact Ht|]. split; [exact Hl|]. intros a E. apply HQR, Hp, E.
Qed.

Lemma quiet_bind {A B} c (m : Eff A) (k : A -> Eff B) (Q : A -> Prop)
    (R : B -> Prop) :
  quiet c m Q -> (forall a, Q a -> quiet c (k a) R) -> quiet c (bind m k) R.
Proof.
  intros Hm Hk net s Hs. unfold bind.
  destruct (Hm net s Hs) as (Ht & (l1 & Hl1 & Hf1) & Hp).
  destruct (m net s) as [[a|e] s1]; cbn [fst snd] in *.
  - destruct (Hk a (Hp a eq_refl) net s1 Ht) as (Ht2 & (l2 & Hl2 & Hf2) & Hp2).
    split; [exact Ht2|]. split; [|exact Hp2]. exists (l1 ++ l2)%list.
    rewrite Hl2, Hl1, app_assoc. split; [reflexivity|].
    intros req Hin. apply in_app_or in Hin. destruct Hin; auto.
  - split; [exact Ht|]. split; [exists l1; now split|].
    intros b E. discriminate E.
Qed.

Lemma quiet_getThis {A} c (k : GafferApiClient -> Eff A) (R : A -> Prop) :
  quiet c (k c) R -> quiet c (bind getThis k) R.
Proof.
  intros Hk net s Hs. unfold bind, getThis. rewrite Hs. now apply Hk.
Qed.

Lemma quiet_settle {A} c (m : Eff A) (Q : A -> Prop) :
  quiet c m Q -> quiet c (settle m) (fun _ => True).
Proof.
  intros Hm net s Hs. unfold settle. cbn [fst snd].
  destruct (Hm net s Hs) as (Ht & Hl & _). now repeat split.
Qed.

Lemma quiet_requireStr c (v : option string) (msg : string) :
  plainOpt v = true -> quiet c (requireStr v msg) (fun x => plainId x = true).
Proof.
  intros Hv. unfold requireStr. destruct (whenTruthy v) as [x|] eqn:E.
  - apply quiet_ret. apply whenTruthy_Some in E. destruct E as [-> _]. exact Hv.
  - apply quiet_throw.
Qed.

Lemma quiet_requireStr_any c (v : option string) (msg : string) :
  quiet c (requireStr v msg) (fun _ => True).
Proof.
  unfold requireStr. destruct (whenTruthy v);
    [now apply quiet_ret | apply quiet_throw].
Qed.

Lemma quiet_request c (endpoint : string) (params : option Params) :
  plainPath endpoint = true ->
  "/api/v1" ++ endpoint <> IDENTITY_PATH ->
  quiet c (request endpoint params) (fun _ => True).
Proof.
  intros Hplain Hne net s Hs.
  destruct (request_extends endpoint params net s) as [Ht (l & Hl & Hf)].
  split; [now rewrite Ht|]. split; [|trivial]. exists l. split; [exact Hl|].
  intros req Hin. rewrite (fromRequest_fetch_eq _ _ _ Hf Hin).
  now destruct (buildRequest_path (this s) endpoint params Hplain) as [-> _].
Qed.

Lemma quiet_resolveProjectId c (p : option string) :
  settled c = true ->
  plainOpt (resolvedProjectId c) = true ->
  plainOpt p = true ->
  quiet c (Unified.resolveProjectId p) (fun id => plainId id = true).
Proof.
  intros Hc Hcache Hp. unfold Unified.resolveProjectId.
  destruct (whenTruthy p) as [x|] eqn:E.
  { apply quiet_ret. apply whenTruthy_Some in E. destruct E as [-> _]. exact Hp. }
  apply quiet_getThis. unfold settled in Hc.
  destruct (isUserToken c); [apply quiet_throw|].
  cbn [orb] in Hc. rewrite <- whenTruthy_truthy in Hc.
  destruct (whenTruthy (resolvedProjectId c)) as [x|] eqn:E'; [|discriminate Hc].
  apply quiet_ret. apply whenTruthy_Some in E'. destruct E' as [E' _].
  now rewrite E' in Hcache.
Qed.

Ltac quiet_step :=
  match goal with
  | |- quiet _ (settle _) _ => apply (quiet_settle _ _ (fun _ => True))
  | |- quiet _ (ret _) _ => apply quiet_ret; trivial
  | |- quiet _ (throw _) _ => apply quiet_throw
  | |- quiet _ (bind (requireStr _ _) _) _ =>
      first [ eapply quiet_bind; [apply quiet_requireStr; assumption | intros ? ?]
            | eapply quiet_bind; [apply quiet_requireStr_any | intros ? _] ]
  | |- quiet _ (bind (Unified.resolveProjectId _) _) _ =>
      eapply quiet_bind; [apply quiet_resolveProjectId; assumption | intros ? ?]
  | |- quiet _ (Unified.resolveProjectId _) _ =>
      eapply quiet_weaken; [apply quiet_resolveProjectId; assumption | trivial]
  | |- quiet _ (request _ _) _ =>
      apply quiet_request; [plain_path | cbn [append]; discriminate]
  | |- quiet _ (bind getThis _) _ => apply quiet_getThis
  | |- quiet _ (if ?b then _ else _) _ => destruct b
  end.

Lemma invokeUnified_quiet c (call : Call) :
  settled c = true ->
  plainOpt (resolvedProjectId c) = true ->
  plainCall call = true ->
  quiet c (invokeUnified call) (fun _ => True).
Proof.
  intros Hc Hcache Hplain.
  destruct call; plain_args; cbn [invokeUnified];
    unfold Unified.listProjects, Unified.getProjectHealth, Unified.getTestHistory,
      Unified.getFlakyTests, Unified.getTestRuns, Unified.getReport,
      Unified.getSlowestTests, Unified.getTestRunDetails,
      Unified.compareTestMetrics, Unified.getCoverageSummary,
      Unified.getCoverageFiles, Unified.getCoverageRiskAreas,
      Unified.getReportBrowserUrl, Unified.getFailureClusters,
      Unified.listUploadSessions, Unified.getUploadSessionDetail;
    repeat quiet_step.
Qed.

(** X15.  The project id is resolved at most once per session.  From a
    state whose client is a user key, or a project token with a non-empty
    cached id, every sequence of method calls whose path arguments are plain
    identifiers (letters, digits, [-] and [_], as the cached id), with any
    other arguments and any network, leaves the client object (the cache
    included) exactly as it was and never fetches the identity-resolution
    endpoint [/api/v1/project]: the cache is never invalidated, overwritten
    or refreshed.  The path is that of the URL that is fetched. *)
Theorem settled_client_never_resolves (calls : list Call) (net : Net) (s : Sys) :
  settled (this s) = true ->
  plainOpt (resolvedProjectId (this s)) = true ->
  forallb plainCall calls = true ->
  let s' := snd (session invokeUnified calls net s) in
  this s' = this s
  /\ exists l,
       log s' = (log s ++ l)%list
       /\ forall req, In (EvFetch req) l -> req_path req <> IDENTITY_PATH.
Proof.
  intros Hc Hcache Hcalls s'. subst s'.
  assert (H : quiet (this s) (session invokeUnified calls) (fun _ => True)).
  { induction calls as [|call rest IH]; cbn [session forallb] in *.
    - now apply quiet_ret.
    - apply andb_true_iff in Hcalls. destruct Hcalls as [Hcall Hrest].
      eapply quiet_bind; [now apply invokeUnified_quiet | intros _ _; exact (IH Hrest)]. }
  destruct (H net s eq_refl) as (Ht & Hl & _). now split.
Qed.

(** With the id cached, health, flaky tests and an explicit resolution
    leave the client as it was. *)
Lemma settled_client_never_resolves_witness :
  this (snd (session invokeUnified
               [CallGetProjectHealth None None;
                CallGetFlakyTests None None None None;
                CallResolveProjectId None]
               MoreFixtures.routed MoreFixtures.cachedSys))
  = this MoreFixtures.cachedSys.
Proof.
  apply (settled_client_never_resolves
           [CallGetProjectHealth None None;
            CallGetFlakyTests None None None None;
            CallResolveProjectId None]
           MoreFixtures.routed MoreFixtures.cachedSys);
    reflexivity.
Defined.

(** X16.  A project token resolves its project on first use.  With a base
    URL that is a plain origin and an empty cache, [getProjectHealth] without a project id first fetches
    [/project]; when that answers [{project:{id}}] it stores [id] in the
    cache and then fetches [/user/projects/<id>/health] with [days] (30 by
    default), returning the body of that second response.  Two fetches, no
    sleep. *)
Theorem first_use_resolves (net : Net) (s : Sys) (id : string)
    (days : option JsNum) (r1 r2 : Response) (b : Body) :
  plainOrigin (baseUrl (this s)) = true ->
  isUserToken (this s) = false ->
  truthyOptStr (resolvedProjectId (this s)) = false ->
  let reqProject := buildRequest (this s) "/project" None in
  let reqHealth :=
    buildRequest (this s) ("/user/projects/" ++ id ++ "/health")
      (Some [("days", VNum (orNum days (num 30)))]) in
  net (fetchCount (log s)) reqProject = Resolved r1 ->
  ok r1 = true -> json r1 = JsonOk (BProject id) ->
  net (S (fetchCount (log s))) reqHealth = Resolved r2 ->
  ok r2 = true -> json r2 = JsonOk b ->
  Unified.getProjectHealth None days net s
  = (Returned b,
     {| this := {| apiKey := apiKey (this s);
                   baseUrl := baseUrl (this s);
                   tokenType := tokenType (this s);
                   resolvedProjectId := Some id |};
        log := log s ++ [EvFetch reqProject; EvFetch reqHealth] |}).
Proof.
  intros Hbase Ht Hc reqProject reqHealth H1 Hok1 Hj1 H2 Hok2 Hj2.
  set (s1 := {| this := this s; log := log s ++ [EvFetch reqProject] |}).
  set (s2 := {| this := {| apiKey := apiKey (this s);
                           baseUrl := baseUrl (this s);
                           tokenType := tokenType (this s);
                           resolvedProjectId := Some id |};
                log := log s1 |}).
  assert (Hres : Unified.resolveProjectId None net s = (Returned id, s2)).
  { unfold Unified.resolveProjectId. cbn [whenTruthy].
    unfold bind at 1, getThis. rewrite Ht.
    rewrite <- whenTruthy_truthy in Hc.
    destruct (whenTruthy (resolvedProjectId (this s))); [discriminate Hc|].
    unfold bind at 1.
    rewrite (request_ok_body net s "/project" None r1 (BProject id) Hbase H1 Hok1 Hj1).
    reflexivity. }
  unfold Unified.getProjectHealth, bind. rewrite Hres.
  rewrite (request_ok_body net s2 _ _ r2 b); auto.
  - unfold s2, s1. cbn [this log]. rewrite <- app_assoc. reflexivity.
  - unfold s2, s1. cbn [this log]. rewrite fetchCount_fetch. exact H2.
Qed.

Lemma first_use_resolves_witness :
  exists s',
    Unified.getProjectHealth None None MoreFixtures.routed Fixtures.projectSys
    = (Returned (BOther "{}"), s')
    /\ resolvedProjectId (this s') = Some "proj_1"
    /\ map (fun e => match e with
                     | EvFetch req => req_path req
                     | EvSleep _ => EmptyString
                     end) (log s')
       = ["/api/v1/project"; "/api/v1/user/projects/proj_1/health"].
Proof.
  eexists. split.
  - apply (first_use_resolves MoreFixtures.routed Fixtures.projectSys "proj_1"
             None Fixtures.rProject Fixtures.rEmpty (BOther "{}"));
      reflexivity.
  - split; reflexivity.
Defined.

(* ===================================================================== *)
(** * The tools over the client *)
(* ===================================================================== *)

(** X17.  [executeGetUploadStatus] has two modes, chosen by the truthiness
    of [sessionId].  With a non-empty [sessionId] the call is the detail
    request [/user/projects/<projectId>/upload-sessions/<sessionId>] with no
    query at all, so [commitSha] and [branch] are ignored.  With [sessionId]
    missing or empty it is the listing request
    [/user/projects/<projectId>/upload-sessions] whose query holds only the
    non-empty ones of [commitSha] and [branch], never [limit] or [offset];
    an empty [sessionId] does not reach the client's [sessionId is required]
    check. *)
Theorem upload_status_modes (input : GetUploadStatusInput) (net : Net) (s : Sys) :
  up_projectId input <> EmptyString ->
  executeGetUploadStatus (client := unifiedTools) input net s
  = match whenTruthy (up_sessionId input) with
    | Some sid =>
        request ("/user/projects/" ++ up_projectId input
                 ++ "/upload-sessions/" ++ sid) None net s
    | None =>
        request ("/user/projects/" ++ up_projectId input ++ "/upload-sessions")
          (Some (spreadStr "commitSha" (up_commitSha input)
                 ++ spreadStr "branch" (up_branch input))%list) net s
    end.
Proof.
  intros Hpid. unfold executeGetUploadStatus.
  rewrite <- (whenTruthy_truthy (up_sessionId input)).
  destruct (whenTruthy (up_sessionId input)) as [sid|] eqn:Hs.
  - cbn [tc_getUploadSessionDetail unifiedTools].
    unfold Unified.getUploadSessionDetail, requireStr. rewrite Hs.
    unfold bind at 1, ret at 1. unfold bind at 1.
    now rewrite (resolve_explicit_id _ net s Hpid).
  - cbn [tc_listUploadSessions unifiedTools].
    unfold Unified.listUploadSessions, bind at 1.
    rewrite (resolve_explicit_id _ net s Hpid).
    cbn [spreadNum]. now rewrite !app_nil_r.
Qed.

Lemma upload_status_modes_witness :
  executeGetUploadStatus (client := unifiedTools) MoreFixtures.detailInput
    (always Fixtures.rEmpty) Fixtures.userSys
  = request "/user/projects/proj_1/upload-sessions/sess_1" None
      (always Fixtures.rEmpty) Fixtures.userSys
  /\ executeGetUploadStatus (client := unifiedTools) MoreFixtures.listInput
       (always Fixtures.rEmpty) Fixtures.userSys
     = request "/user/projects/proj_1/upload-sessions"
         (Some [("commitSha", VStr "abc")])
         (always Fixtures.rEmpty) Fixtures.userSys.
Proof.
  split.
  - apply (upload_status_modes MoreFixtures.detailInput). discriminate.
  - apply (upload_status_modes MoreFixtures.listInput). discriminate.
Defined.

(** X18.  The request of [executeGetUntestedFiles].  With an explicit
    project id that is a plain identifier (letters, digits, [-] and [_]),
    every fetch of the call goes to [/user/projects/<id>/coverage/files]
    with the query [maxCoverage], [limit], [sortBy=coverage],
    [sortOrder=asc], where
    - [maxCoverage] is the given number, zero included, and 10 when it is
      omitted;
    - [limit] is 20 when it is omitted and the given number when that is
      not zero; a given zero (or NaN) is neither sent nor replaced by 20:
      the query then has no [limit] at all.
    With a base URL that is a plain origin there are between one and four
    such fetches. *)
Theorem untested_files_query
    (asCoverageFiles : Body -> option CoverageFilesResponse)
    (input : GetUntestedFilesInput) (pid : string) (net : Net) (s : Sys) :
  unt_projectId input = Some pid ->
  pid <> EmptyString ->
  plainId pid = true ->
  let maxCoverage := match unt_maxCoverage input with
                     | Some n => n
                     | None => num 10
                     end in
  let limit := match unt_limit input with
               | Some n => if truthyNum n then [("limit", VNum n)] else []
               | None => [("limit", VNum (num 20))]
               end in
  let req := {| req_base := baseUrl (this s);
                req_path := "/api/v1/user/projects/" ++ pid ++ "/coverage/files";
                req_query := ([("maxCoverage", VNum maxCoverage)] ++ limit
                              ++ [("sortBy", VStr "coverage");
                                  ("sortOrder", VStr "asc")])%list;
                req_key := apiKey (this s) |} in
  exists l,
    log (snd (executeGetUntestedFiles (client := unifiedTools)
                asCoverageFiles input net s)) = (log s ++ l)%list
    /\ fromRequest req l
    /\ (plainOrigin (baseUrl (this s)) = true -> (1 <= fetchCount l <= 4)%nat).
Proof.
  intros Hp Hpid Hplain maxCoverage limit req.
  unfold executeGetUntestedFiles. rewrite Hp.
  cbn [tc_getCoverageFiles unifiedTools].
  unfold Unified.getCoverageFiles.
  rewrite bind_keeps_state
    by (intros a s'; destruct (asCoverageFiles a);
        [reflexivity | destruct a; reflexivity]).
  unfold bind at 1. rewrite (resolve_explicit_id _ net s Hpid).
  match goal with |- context [request ?e ?p] => set (params := p) end.
  destruct (request_shape ("/user/projects/" ++ pid ++ "/coverage/files")
              params net s) as (l & Hlog & Hf & Hcount).
  exists l. split; [exact Hlog|]. split; [|exact Hcount].
  rewrite buildRequest_plain in Hf by plain_path.
  replace req with {| req_base := baseUrl (this s);
                      req_path := "/api/v1" ++ "/user/projects/" ++ pid
                                  ++ "/coverage/files";
                      req_query := setAll
                                     (match params with
                                      | Some ps => filter (fun kv => isSet (snd kv)) ps
                                      | None => []
                                      end) [];
                      req_key := apiKey (this s) |};
    [exact Hf|].
  unfold req, params, limit, maxCoverage. f_equal.
  destruct (unt_maxCoverage input) as [m|], (unt_limit input) as [n|];
    cbn [nullishNum spreadNum]; try destruct (truthyNum n); reflexivity.
Qed.

(** Zero for both: [maxCoverage=0] is sent and there is no [limit]. *)
Lemma untested_files_query_witness :
  exists l,
    log (snd (executeGetUntestedFiles (client := unifiedTools)
                (fun _ => Some MoreFixtures.someCoverage)
                MoreFixtures.zeroUntested (always Fixtures.rEmpty)
                Fixtures.userSys)) = l
    /\ fromRequest
         {| req_base := "https://app.gaffer.sh";
            req_path := "/api/v1/user/projects/proj_1/coverage/files";
            req_query := [("maxCoverage", VNum (num 0));
                          ("sortBy", VStr "coverage"); ("sortOrder", VStr "asc")];
            req_key := "gaf_abc123" |} l
    /\ (1 <= fetchCount l <= 4)%nat.
Proof.
  destruct (untested_files_query (fun _ => Some MoreFixtures.someCoverage)
              MoreFixtures.zeroUntested "proj_1" (always Fixtures.rEmpty)
              Fixtures.userSys) as (l & Hlog & Hf & Hcount);
    [reflexivity | discriminate | reflexivity |].
  exists l. split; [exact Hlog|]. split; [exact Hf | now apply Hcount].
Defined.

(** X19.  The request of [executeListTestRuns].  With an explicit project
    id that is a plain identifier (letters, digits, [-] and [_]), every
    fetch of the call goes to [/user/projects/<id>/test-runs] with the
    non-empty ones of [commitSha], [branch] and [status] and with a [limit]
    that is always there: the given number, or 20 when it is omitted, zero
    or NaN.  With a base URL that is a plain origin there are between one
    and four such fetches. *)
Theorem list_test_runs_query
    (asTestRuns : Body -> option TestRunsResponse)
    (input : ListTestRunsInput) (pid : string) (net : Net) (s : Sys) :
  ltr_projectId input = Some pid ->
  pid <> EmptyString ->
  plainId pid = true ->
  let limit := match ltr_limit input with
               | Some n => if truthyNum n then n else num 20
               | None => num 20
               end in
  let req := {| req_base := baseUrl (this s);
                req_path := "/api/v1/user/projects/" ++ pid ++ "/test-runs";
                req_query := (spreadStr "commitSha" (ltr_commitSha input)
                              ++ spreadStr "branch" (ltr_branch input)
                              ++ spreadStr "status" (ltr_status input)
                              ++ [("limit", VNum limit)])%list;
                req_key := apiKey (this s) |} in
  truthyNum limit = true
  /\ exists l,
       log (snd (executeListTestRuns (client := unifiedTools)
                   asTestRuns input net s)) = (log s ++ l)%list
       /\ fromRequest req l
       /\ (plainOrigin (baseUrl (this s)) = true -> (1 <= fetchCount l <= 4)%nat).
Proof.
  intros Hp Hpid Hplain limit req.
  assert (Hlim : truthyNum limit = true).
  { unfold limit. destruct (ltr_limit input) as [n|]; [|reflexivity].
    destruct (truthyNum n) eqn:E; [exact E | reflexivity]. }
  split; [exact Hlim|].
  unfold executeListTestRuns. rewrite Hp.
  cbn [tc_getTestRuns unifiedTools].
  unfold Unified.getTestRuns.
  rewrite bind_keeps_state
    by (intros a s'; destruct (asTestRuns a);
        [reflexivity | destruct a; reflexivity]).
  unfold bind at 1. rewrite (resolve_explicit_id _ net s Hpid).
  match goal with |- context [request ?e ?p] => set (params := p) end.
  destruct (request_shape ("/user/projects/" ++ pid ++ "/test-runs")
              params net s) as (l & Hlog & Hf & Hcount).
  exists l. split; [exact Hlog|]. split; [|exact Hcount].
  rewrite buildRequest_plain in Hf by plain_path.
  replace req with {| req_base := baseUrl (this s);
                      req_path := "/api/v1" ++ "/user/projects/" ++ pid
                                  ++ "/test-runs";
                      req_query := setAll
                                     (match params with
                                      | Some ps => filter (fun kv => isSet (snd kv)) ps
                                      | None => []
                                      end) [];
                      req_key := apiKey (this s) |};
    [exact Hf|].
  unfold req, params. f_equal.
  change (orNum (ltr_limit input) (num 20)) with limit.
  cbn [spreadNum]. rewrite Hlim.
  spread_cases; reflexivity.
Qed.

(** A zero [limit] goes out as [limit=20]. *)
Lemma list_test_runs_query_witness :
  exists l,
    log (snd (executeListTestRuns (client := unifiedTools)
                (fun _ => Some MoreFixtures.someRuns)
                MoreFixtures.zeroLimitRuns (always Fixtures.rEmpty)
                Fixtures.userSys)) = l
    /\ fromRequest
         {| req_base := "https://app.gaffer.sh";
            req_path := "/api/v1/user/projects/proj_1/test-runs";
            req_query := [("branch", VStr "main"); ("limit", VNum (num 20))];
            req_key := "gaf_abc123" |} l
    /\ (1 <= fetchCount l <= 4)%nat.
Proof.
  destruct (list_test_runs_query (fun _ => Some MoreFixtures.someRuns)
              MoreFixtures.zeroLimitRuns "proj_1" (always Fixtures.rEmpty)
              Fixtures.userSys) as (_ & l & Hlog & Hf & Hcount);
    [reflexivity | discriminate | reflexivity |].
  exists l. split; [exact Hlog|]. split; [exact Hf | now apply Hcount].
Defined.

Section MoreToolProperties.

Context {client : ToolClient}.
Variable asTestRuns : Body -> option TestRunsResponse.

(** X20.  The output of [executeListTestRuns].  When the client returns a
    test-runs response, the tool returns one entry per run, in order and
    with the run's id; [commitSha] and [branch] of an entry are either
    absent or a non-empty string (an upstream null or empty string comes out
    absent, a non-empty string is copied); the four counts come from the
    run's summary, and [total] and [hasMore] from the pagination. *)
Theorem list_test_runs_output (input : ListTestRunsInput) (net : Net)
    (s s1 : Sys) (b : Body) (r : TestRunsResponse) :
  tc_getTestRuns (ltr_projectId input) (ltr_commitSha input) (ltr_branch input)
    (ltr_status input) (Some (orNum (ltr_limit input) (num 20))) net s
  = (Returned b, s1) ->
  asTestRuns b = Some r ->
  exists out,
    executeListTestRuns asTestRuns input net s = (Returned out, s1)
    /\ ltr_total out = pg_total (runs_pagination r)
    /\ ltr_hasMore out = pg_hasMore (runs_pagination r)
    /\ Forall2
         (fun run o =>
            lr_id o = run_id run
            /\ (forall field value,
                  (field, value) = (lr_commitSha o, run_commitSha run)
                  \/ (field, value) = (lr_branch o, run_branch run) ->
                  match value with
                  | Present x => if truthyStr x then field = Present x
                                 else field = Absent
                  | _ => field = Absent
                  end)
            /\ (lr_passedCount o, lr_failedCount o, lr_skippedCount o, lr_totalCount o)
               = (rsum_passed (run_summary run), rsum_failed (run_summary run),
                  rsum_skipped (run_summary run), rsum_total (run_summary run)))
         (runs_testRuns r) (ltr_testRuns out).
Proof.
  intros Hc Hr. exists (reshapeRuns r). split; [|split; [|split]].
  - unfold executeListTestRuns, bind. now rewrite Hc, Hr.
  - reflexivity.
  - reflexivity.
  - cbn [reshapeRuns ltr_testRuns].
    induction (runs_testRuns r) as [|run rest IH]; cbn [map]; constructor;
      [|exact IH].
    split; [reflexivity|]. split; [|reflexivity].
    intros field value [H | H]; injection H as -> ->; cbn [reshapeRun lr_commitSha lr_branch];
      unfold orUndefined.
    + destruct (run_commitSha run) as [| |x]; try reflexivity.
      now destruct (truthyStr x).
    + destruct (run_branch run) as [| |x]; try reflexivity.
      now destruct (truthyStr x).
Qed.

End MoreToolProperties.

(** A run with a null [commitSha]: absent in the output. *)
Lemma list_test_runs_output_witness :
  exists out s1,
    executeListTestRuns (client := unifiedTools)
      (fun _ => Some MoreFixtures.someRuns)
      MoreFixtures.zeroLimitRuns (always Fixtures.rEmpty) Fixtures.userSys
    = (Returned out, s1)
    /\ map lr_commitSha (ltr_testRuns out) = [Absent]
    /\ map lr_branch (ltr_testRuns out) = [Present "main"].
Proof.
  destruct (list_test_runs_output (client := unifiedTools)
              (fun _ => Some MoreFixtures.someRuns)
              MoreFixtures.zeroLimitRuns (always Fixtures.rEmpty)
              Fixtures.userSys
              (snd (Unified.getTestRuns (Some "proj_1") None (Some "main") None
                      (Some (num 20)) (always Fixtures.rEmpty) Fixtures.userSys))
              (BOther "{}") MoreFixtures.someRuns)
    as (out & Hrun & _ & _ & Hall); [reflexivity | reflexivity |].
  exists out. eexists. split; [exact Hrun|].
  inversion Hall as [|run o rest outs (_ & Hf & _) Hrest Hin Hout]; subst.
  inversion Hrest; subst. cbn [map]. split.
  - f_equal. apply (Hf (lr_commitSha o) Null). now left.
  - f_equal. apply (Hf (lr_branch o) (Present "main")). now right.
Defined.

Section MoreCompareProperties.

Context {client : ClientMethods}.

(** X21.  A pair of which both sides are given but one is whitespace-only
    is refused by [executeCompareTestMetrics] even when the other pair is
    complete, without calling the client: for the commit pair with
    [beforeCommit and afterCommit must not be empty strings], and for the
    run pair, when the commit pair did not already fail this check, with
    [beforeRunId and afterRunId must not be empty strings]. *)
Theorem compare_rejects_whitespace_side (input : CompareTestMetricsInput)
    (net : Net) (s : Sys) :
  let hasCommits := truthyOptStr (cmp_beforeCommit input)
                    && truthyOptStr (cmp_afterCommit input) in
  let hasRunIds := truthyOptStr (cmp_beforeRunId input)
                   && truthyOptStr (cmp_afterRunId input) in
  let blankCommit := blank (cmp_beforeCommit input) || blank (cmp_afterCommit input) in
  let blankRunId := blank (cmp_beforeRunId input) || blank (cmp_afterRunId input) in
  (hasCommits && blankCommit = true ->
   executeCompareTestMetrics input net s
   = (Threw (newError "beforeCommit and afterCommit must not be empty strings"), s))
  /\ (hasCommits && blankCommit = false ->
      hasRunIds && blankRunId = true ->
      executeCompareTestMetrics input net s
      = (Threw (newError "beforeRunId and afterRunId must not be empty strings"), s)).
Proof.
  intros hasCommits hasRunIds blankCommit blankRunId.
  unfold executeCompareTestMetrics.
  fold hasCommits hasRunIds blankCommit blankRunId.
  split.
  - intros H. rewrite H.
    apply andb_true_iff in H. destruct H as [-> _]. reflexivity.
  - intros H1 H2. rewrite H1, H2.
    apply andb_true_iff in H2. destruct H2 as [-> _].
    now rewrite andb_false_r.
Qed.

End MoreCompareProperties.

Lemma compare_rejects_whitespace_side_witness :
  executeCompareTestMetrics (client := unifiedClient) MoreFixtures.whitespacePair
    (always Fixtures.rEmpty) Fixtures.userSys
  = (Threw (newError "beforeRunId and afterRunId must not be empty strings"),
     Fixtures.userSys).
Proof.
  destruct (compare_rejects_whitespace_side (client := unifiedClient)
              MoreFixtures.whitespacePair (always Fixtures.rEmpty)
              Fixtures.userSys) as [_ H].
  apply H; reflexivity.
Defined.

(** X22.  A lone [beforeCommit] is forwarded.  When the run pair is
    complete and the commit pair has a non-empty [beforeCommit] (of any
    content, whitespace included) but no [afterCommit], the validation of
    [executeCompareTestMetrics] passes and, on the client with project-id
    resolution and for a project id that is a plain identifier, every fetch
    of the call carries that [beforeCommit] in its query, with no
    [afterCommit] beside it.  With a base URL that is a plain origin there
    are between one and four such fetches. *)
Theorem compare_lone_commit_is_forwarded (input : CompareTestMetricsInput)
    (w : string) (net : Net) (s : Sys) :
  cmp_projectId input <> EmptyString ->
  plainId (cmp_projectId input) = true ->
  cmp_testName input <> EmptyString ->
  completePair (cmp_beforeRunId input) (cmp_afterRunId input) = true ->
  cmp_beforeCommit input = Some w ->
  w <> EmptyString ->
  truthyOptStr (cmp_afterCommit input) = false ->
  exists l,
    log (snd (executeCompareTestMetrics (client := unifiedClient) input net s))
    = (log s ++ l)%list
    /\ (forall req, In (EvFetch req) l ->
          In ("beforeCommit", VStr w) (req_query req)
          /\ ~ In "afterCommit" (queryKeys (req_query req)))
    /\ (plainOrigin (baseUrl (this s)) = true -> (1 <= fetchCount l <= 4)%nat).
Proof.
  intros Hpid Hplain Htn Hruns Hbc Hw Hac.
  assert (Hpass : passesValidation input).
  { right. right. split; [exact Hruns|]. rewrite Hac. apply andb_false_r. }
  rewrite (compare_unified_request input net s Hpass Hpid Htn).
  destruct (request_shape
              ("/user/projects/" ++ cmp_projectId input ++ "/compare-test")
              (Some ([("testName", VStr (cmp_testName input))]
                     ++ spreadStr "beforeCommit" (cmp_beforeCommit input)
                     ++ spreadStr "afterCommit" (cmp_afterCommit input)
                     ++ spreadStr "beforeRunId" (cmp_beforeRunId input)
                     ++ spreadStr "afterRunId" (cmp_afterRunId input))%list)
              net s) as (l & Hlog & Hf & Hcount).
  exists l. split; [exact Hlog|]. split; [|exact Hcount].
  intros req Hin. rewrite (fromRequest_fetch_eq _ _ _ Hf Hin).
  rewrite compare_query by plain_path.
  assert (Hafter : spreadStr "afterCommit" (cmp_afterCommit input) = []).
  { destruct (cmp_afterCommit input) as [x|]; [|reflexivity].
    cbn [truthyOptStr] in Hac. cbn [spreadStr]. now rewrite Hac. }
  rewrite Hafter, Hbc. cbn [spreadStr]. rewrite (truthyStr_nonempty _ Hw).
  unfold queryKeys. split; [cbn; now right; left|].
  spread_cases; cbn; intuition discriminate.
Qed.

Lemma compare_lone_commit_is_forwarded_witness :
  exists l,
    log (snd (executeCompareTestMetrics (client := unifiedClient)
                MoreFixtures.loneCommit (always Fixtures.rEmpty)
                Fixtures.userSys)) = l
    /\ (forall req, In (EvFetch req) l ->
          In ("beforeCommit", VStr "  ") (req_query req)
          /\ ~ In "afterCommit" (queryKeys (req_query req)))
    /\ (1 <= fetchCount l <= 4)%nat.
Proof.
  destruct (compare_lone_commit_is_forwarded MoreFixtures.loneCommit "  "
              (always Fixtures.rEmpty) Fixtures.userSys)
    as (l & Hlog & Hq & Hcount);
    try reflexivity; try discriminate.
  exists l. split; [exact Hlog|]. split; [exact Hq | now apply Hcount].
Defined.
